(** * Background statistics recalculation of the storage engine
      (dict/dict0stats_bg.cc)

    A shallow embedding of the recalc pool, of the modification tracker
    [dict_stats_update_if_needed], of the timer glue, of the worker
    [dict_stats_func] and of the init/deinit pair, followed by the properties
    of the design document that can be stated over one thread of execution.

    Conventions
    - 64-bit unsigned quantities ([table_id_t], [ulonglong]) are [Z] with the
      wrap-around written out where the source can wrap.
    - File-static variables are the fields of [state]; the code is written in
      state-passing style, one [let] per source statement.
    - Calls that leave the file (catalog, statistics engine, thread pool) are
      appended to the ghost log [calls], oldest first, together with every
      entry into [dict_stats_schedule].
    - What the surroundings decide (the clock, whether [try_lock] wins, what
      [dict_stats_update] does to a table) is read from an [env].
    - Debug assertions ([ut_ad]) compile to nothing and are not modelled. *)

From stdpp Require Import base decidable option list gmap.
From Stdlib Require Import ZArith Lia.

Local Open Scope Z_scope.

(** ** Data *)

Definition table_id_t := Z.

(** [ulonglong] arithmetic wraps modulo 2^64. *)
Definition ULONGLONG_MODULUS : Z := 2 ^ 64.

(** #define MIN_RECALC_INTERVAL 10 (seconds) *)
Definition MIN_RECALC_INTERVAL : Z := 10.

(** Modelled from the spec: the values of the background-activity flag,
    declared in dict0mem.h which is not among the sources. The design
    document names the states NONE and IN_PROGRESS; IN_PROGRESS is a bit that
    the worker sets with [|=]. *)
Definition BG_STAT_NONE : Z := 0.
Definition BG_STAT_IN_PROGRESS : Z := 1.

Inductive dict_stats_upd_option_t :=
  | DICT_STATS_RECALC_PERSISTENT
  | DICT_STATS_RECALC_TRANSIENT.

(** The part of [dict_table_t] that this file reads or writes. The last four
    fields stand for inline predicates of headers that are not among the
    sources ([dict_stats_is_persistent_enabled],
    [dict_stats_auto_recalc_is_enabled], [table->name.is_temporary()],
    [table->is_accessible()]): each is a function of the table object, kept
    here as its value. *)
Record dict_table_t := mk_table {
  id : table_id_t;
  stat_initialized : bool;
  stat_modified_counter : Z;
  stat_n_rows : Z;
  stats_last_recalc : Z;
  stats_bg_flag : Z;
  stat_persistent_on : bool;
  stats_auto_recalc_on : bool;
  name_is_temporary : bool;
  accessible : bool
}.

Definition set_stat_modified_counter (c : Z) (t : dict_table_t) : dict_table_t :=
  mk_table (id t) (stat_initialized t) c (stat_n_rows t) (stats_last_recalc t)
           (stats_bg_flag t) (stat_persistent_on t) (stats_auto_recalc_on t)
           (name_is_temporary t) (accessible t).

Definition set_stats_bg_flag (f : Z) (t : dict_table_t) : dict_table_t :=
  mk_table (id t) (stat_initialized t) (stat_modified_counter t) (stat_n_rows t)
           (stats_last_recalc t) f (stat_persistent_on t)
           (stats_auto_recalc_on t) (name_is_temporary t) (accessible t).

Definition dict_table_get_n_rows (t : dict_table_t) : Z := stat_n_rows t.
Definition dict_stats_is_persistent_enabled (t : dict_table_t) : bool :=
  stat_persistent_on t.
Definition dict_stats_auto_recalc_is_enabled (t : dict_table_t) : bool :=
  stats_auto_recalc_on t.
Definition is_temporary (t : dict_table_t) : bool := name_is_temporary t.
Definition is_accessible (t : dict_table_t) : bool := accessible t.

(** The three tests the WITH_WSREP build makes on the current transaction. *)
Record trx_t := mk_trx {
  trx_is_wsrep : bool;
  wsrep_thd_is_applying : bool;
  wsrep_thd_is_BF : bool
}.

(** [mysql_mutex_t recalc_pool_mutex]: not initialised (or destroyed),
    initialised and free, or held by the running thread. *)
Inductive mutex_state := MutexNone | MutexFree | MutexHeld.

(** [tpool::timer]: the delay in milliseconds of the pending one-shot firing,
    if one is set. *)
Record timer_t := mk_timer { timer_due : option Z }.

(** An entry of the companion defrag pool (table id, index id); the pool is
    declared in dict0defrag_bg.h and is only cleared here. *)
Definition defrag_pool_item_t : Type := Z * Z.

Inductive event :=
  | EvDictSysLock
  | EvDictSysUnlock
  | EvTableOpenOnId (tid : table_id_t)
  | EvTableRelease (tid : table_id_t)
  | EvTableClose (tid : table_id_t)
  | EvStatsUpdate (tid : table_id_t) (mode : dict_stats_upd_option_t)
  | EvSchedule (ms : Z)
  | EvCreateTimer
  | EvDeleteTimer
  | EvDefragPoolInit
  | EvDefragPoolDeinit
  | EvDefragProcess
  | EvWsrepDebug (tid : table_id_t).

Record state := mk_state {
  recalc_pool : list table_id_t;
  defrag_pool : list defrag_pool_item_t;
  recalc_pool_mutex : mutex_state;
  stats_initialised : bool;
  dict_stats_timer : option timer_t;
  dict_sys : gmap Z dict_table_t;
  oracle_pos : nat;
  calls : list event
}.

(** What the surroundings answer. [time_at n] and [try_lock_at n] are the
    answers to the query made when [oracle_pos] is [n]; every query advances
    [oracle_pos], so successive readings may differ. *)
Record env := mk_env {
  srv_stats_modified_counter : Z;
  time_at : nat -> Z;
  try_lock_at : nat -> bool;
  dict_stats_update_table : dict_stats_upd_option_t -> dict_table_t -> dict_table_t
}.

Section Setters.
Variable s : state.

Definition set_recalc_pool (p : list table_id_t) : state :=
  mk_state p (defrag_pool s) (recalc_pool_mutex s) (stats_initialised s)
           (dict_stats_timer s) (dict_sys s) (oracle_pos s) (calls s).

Definition set_defrag_pool (p : list defrag_pool_item_t) : state :=
  mk_state (recalc_pool s) p (recalc_pool_mutex s) (stats_initialised s)
           (dict_stats_timer s) (dict_sys s) (oracle_pos s) (calls s).

Definition set_recalc_pool_mutex (m : mutex_state) : state :=
  mk_state (recalc_pool s) (defrag_pool s) m (stats_initialised s)
           (dict_stats_timer s) (dict_sys s) (oracle_pos s) (calls s).

Definition set_stats_initialised (b : bool) : state :=
  mk_state (recalc_pool s) (defrag_pool s) (recalc_pool_mutex s) b
           (dict_stats_timer s) (dict_sys s) (oracle_pos s) (calls s).

Definition set_dict_stats_timer (t : option timer_t) : state :=
  mk_state (recalc_pool s) (defrag_pool s) (recalc_pool_mutex s)
           (stats_initialised s) t (dict_sys s) (oracle_pos s) (calls s).

Definition set_dict_sys (d : gmap Z dict_table_t) : state :=
  mk_state (recalc_pool s) (defrag_pool s) (recalc_pool_mutex s)
           (stats_initialised s) (dict_stats_timer s) d (oracle_pos s)
           (calls s).

Definition set_oracle_pos (n : nat) : state :=
  mk_state (recalc_pool s) (defrag_pool s) (recalc_pool_mutex s)
           (stats_initialised s) (dict_stats_timer s) (dict_sys s) n
           (calls s).

Definition set_calls (c : list event) : state :=
  mk_state (recalc_pool s) (defrag_pool s) (recalc_pool_mutex s)
           (stats_initialised s) (dict_stats_timer s) (dict_sys s)
           (oracle_pos s) c.
End Setters.

(** Append one call to the ghost log. *)
Definition log (ev : event) (s : state) : state := set_calls s (calls s ++ [ev]).

Definition mysql_mutex_lock (s : state) : state := set_recalc_pool_mutex s MutexHeld.
Definition mysql_mutex_unlock (s : state) : state := set_recalc_pool_mutex s MutexFree.

(** [time(NULL)] *)
Definition time_now (e : env) (s : state) : Z * state :=
  (time_at e (oracle_pos s), set_oracle_pos s (S (oracle_pos s))).

(** [difftime(a, b)] on whole seconds. *)
Definition difftime (a b : Z) : Z := a - b.

(** The table object behind a [dict_table_t*] obtained from the catalog lives
    in the catalog: a write through the pointer is a write to its slot. *)
Definition store_table (tid : table_id_t) (t : dict_table_t) (s : state) : state :=
  set_dict_sys s (<[tid := t]> (dict_sys s)).

(** ** The timer: dict_stats_start, dict_stats_schedule, dict_stats_shutdown *)

(** [std::lock_guard] blocks until [dict_stats_mutex] is free and releases it
    on return, so it leaves no mark on one thread's view. *)
Definition dict_stats_start (s : state) : state :=
  match dict_stats_timer s with
  | None => set_dict_stats_timer (log EvCreateTimer s) (Some (mk_timer None))
  | Some _ => s
  end.

Definition dict_stats_schedule (e : env) (ms : Z) (s : state) : state :=
  let s := log (EvSchedule ms) s in
  let locked := try_lock_at e (oracle_pos s) in
  let s := set_oracle_pos s (S (oracle_pos s)) in
  if negb locked then s
  else match dict_stats_timer s with
       | Some _ => set_dict_stats_timer s (Some (mk_timer (Some ms)))
       | None => s
       end.

Definition dict_stats_schedule_now (e : env) (s : state) : state :=
  dict_stats_schedule e 0 s.

Definition dict_stats_shutdown (s : state) : state :=
  let s := match dict_stats_timer s with
           | Some _ => log EvDeleteTimer s
           | None => s
           end in
  set_dict_stats_timer s None.

(** ** The recalc pool *)

(** The scan of [dict_stats_recalc_pool_add]: true when some element of the
    vector equals [tid]. *)
Fixpoint pool_scan (tid : table_id_t) (p : list table_id_t) : bool :=
  match p with
  | [] => false
  | x :: rest => if x =? tid then true else pool_scan tid rest
  end.

Definition dict_stats_recalc_pool_add (e : env) (table : dict_table_t)
    (schedule_dict_stats_task : bool) (s : state) : state :=
  let s := mysql_mutex_lock s in
  if pool_scan (id table) (recalc_pool s) then mysql_mutex_unlock s
  else
    let s := set_recalc_pool s (recalc_pool s ++ [id table]) in
    let s := if (Z.of_nat (length (recalc_pool s)) =? 1) && schedule_dict_stats_task
             then dict_stats_schedule_now e s else s in
    mysql_mutex_unlock s.

(** [id] is the out-parameter: the second component of the result is what it
    holds on return. *)
Definition dict_stats_recalc_pool_get (id : table_id_t) (s : state)
    : bool * table_id_t * state :=
  let s := mysql_mutex_lock s in
  match recalc_pool s with
  | [] => (false, id, mysql_mutex_unlock s)
  | first :: rest =>
      let id := first in
      let s := set_recalc_pool s rest in
      (true, id, mysql_mutex_unlock s)
  end.

(** The scan of [dict_stats_recalc_pool_del]: erase the first match, stop. *)
Fixpoint pool_erase_first (tid : table_id_t) (p : list table_id_t) : list table_id_t :=
  match p with
  | [] => []
  | x :: rest => if x =? tid then rest else x :: pool_erase_first tid rest
  end.

Definition dict_stats_recalc_pool_del (table : dict_table_t) (s : state) : state :=
  let s := mysql_mutex_lock s in
  let s := set_recalc_pool s (pool_erase_first (id table) (recalc_pool s)) in
  mysql_mutex_unlock s.

(** [clear()] both vectors, then [swap] each with a fresh empty vector so that
    the buffers are given back. *)
Definition dict_stats_recalc_pool_deinit (s : state) : state :=
  let s := set_recalc_pool s [] in
  let s := set_defrag_pool s [] in
  let recalc_empty_pool : list table_id_t := [] in
  let defrag_empty_pool : list defrag_pool_item_t := [] in
  let s := set_recalc_pool s recalc_empty_pool in
  let s := set_defrag_pool s defrag_empty_pool in
  s.

(** ** The modification tracker *)

(** [dict_stats_update(table, mode)] belongs to the statistics engine
    (dict0stats.cc). Its call is logged; what it does to the table object is
    the environment's [dict_stats_update_table]. *)
Definition dict_stats_update (e : env) (table : dict_table_t)
    (mode : dict_stats_upd_option_t) (s : state) : dict_table_t * state :=
  (dict_stats_update_table e mode table, log (EvStatsUpdate (id table) mode) s).

(** The threshold of the transient branch:
    [threshold = 16 + n_rows / 16], then
    [if (srv_stats_modified_counter) threshold = min(srv_stats_modified_counter, threshold)]. *)
Definition transient_threshold (e : env) (n_rows : Z) : Z :=
  let threshold := (16 + n_rows / 16) mod ULONGLONG_MODULUS in
  if negb (srv_stats_modified_counter e =? 0)
  then Z.min (srv_stats_modified_counter e) threshold
  else threshold.

(** The test that is compiled in under WITH_WSREP. *)
Definition wsrep_skip (trx : trx_t) : bool :=
  trx_is_wsrep trx && negb (wsrep_thd_is_applying trx) && wsrep_thd_is_BF trx.

(** The common body of [dict_stats_update_if_needed] (WITH_WSREP, [trx] is
    [Some]) and [dict_stats_update_if_needed_func] (otherwise, [trx] is
    [None]). The table is passed by pointer and written to: the result holds
    the table on return. The function reads and writes the object behind its
    pointer only and never goes through the catalog, so the object is
    threaded beside the state; where the pointer is to a table of the
    catalog, the returned table is what the catalog holds for it on return,
    and nothing is said here about [dict_sys] of the returned state. *)
Definition dict_stats_update_if_needed_body (trx : option trx_t) (e : env)
    (table : dict_table_t) (s : state) : dict_table_t * state :=
  if negb (stat_initialized table) then (table, s)
  else
    let counter := stat_modified_counter table in
    let table := set_stat_modified_counter
                   ((stat_modified_counter table + 1) mod ULONGLONG_MODULUS) table in
    let n_rows := dict_table_get_n_rows table in
    if dict_stats_is_persistent_enabled table then
      if is_temporary table then (table, s)
      else if (n_rows / 10 <? counter) && dict_stats_auto_recalc_is_enabled table then
        if match trx with Some t => wsrep_skip t | None => false end
        then (table, log (EvWsrepDebug (id table)) s)
        else
          let s := dict_stats_recalc_pool_add e table true s in
          let table := set_stat_modified_counter 0 table in
          (table, s)
      else (table, s)
    else
      let threshold := transient_threshold e n_rows in
      if threshold <? counter
      then dict_stats_update e table DICT_STATS_RECALC_TRANSIENT s
      else (table, s).

Definition dict_stats_update_if_needed (e : env) (table : dict_table_t)
    (trx : trx_t) (s : state) : dict_table_t * state :=
  dict_stats_update_if_needed_body (Some trx) e table s.

Definition dict_stats_update_if_needed_func (e : env) (table : dict_table_t)
    (s : state) : dict_table_t * state :=
  dict_stats_update_if_needed_body None e table s.

(** ** Initialisation *)

Definition dict_stats_init (s : state) : state :=
  let s := set_recalc_pool_mutex s MutexFree in
  let s := log EvDefragPoolInit s in
  set_stats_initialised s true.

Definition dict_stats_deinit (s : state) : state :=
  if negb (stats_initialised s) then s
  else
    let s := set_stats_initialised s false in
    let s := dict_stats_recalc_pool_deinit s in
    let s := log EvDefragPoolDeinit s in
    set_recalc_pool_mutex s MutexNone.

(** ** The worker *)

(** How one round after the label [next_table_id] ends: with a [return], or
    with [goto next_table_id]. *)
Inductive round_end := Return (ret : bool) | GotoNextTableId.

(** The tail shared by both arms of the interval test: latch the catalog,
    clear the flag, close the table, unlatch. *)
Definition close_entry (tid : table_id_t) (table : dict_table_t) (s : state) : state :=
  let s := log EvDictSysLock s in
  let table := set_stats_bg_flag BG_STAT_NONE table in
  let s := store_table tid table s in
  let s := log (EvTableClose tid) s in
  log EvDictSysUnlock s.

Definition process_entry_round (e : env) (s : state) : round_end * state :=
  (* the local [table_id] starts uninitialised; it is read only after
     [dict_stats_recalc_pool_get] has stored into it *)
  let '(got, table_id, s) := dict_stats_recalc_pool_get 0 s in
  if negb got then (Return false, s)
  else
    let s := log EvDictSysLock s in
    let s := log (EvTableOpenOnId table_id) s in
    match dict_sys s !! table_id with
    | None => (GotoNextTableId, log EvDictSysUnlock s)
    | Some table =>
        if negb (is_accessible table) then
          let s := log (EvTableRelease table_id) s in
          (GotoNextTableId, log EvDictSysUnlock s)
        else
          let table := set_stats_bg_flag
                         (Z.lor (stats_bg_flag table) BG_STAT_IN_PROGRESS) table in
          let s := store_table table_id table s in
          let s := log EvDictSysUnlock s in
          let '(now, s) := time_now e s in
          if difftime now (stats_last_recalc table) <? MIN_RECALC_INTERVAL then
            let s := dict_stats_recalc_pool_add e table false s in
            let s := dict_stats_schedule e (MIN_RECALC_INTERVAL * 1000) s in
            (Return false, close_entry table_id table s)
          else
            let '(table, s) := dict_stats_update e table DICT_STATS_RECALC_PERSISTENT s in
            (Return true, close_entry table_id table s)
    end.

(** The [goto] loop, with a bound on the number of rounds; [None] when the
    bound is used up. *)
Fixpoint process_entry_rounds (fuel : nat) (e : env) (s : state)
    : option (bool * state) :=
  match fuel with
  | O => None
  | S fuel' =>
      match process_entry_round e s with
      | (Return ret, s') => Some (ret, s')
      | (GotoNextTableId, s') => process_entry_rounds fuel' e s'
      end
  end.

(** Every round takes one identifier out of the pool and only the last one
    can put one back, so one round more than the pool has entries is
    enough ([process_entry_total] below). *)
Definition dict_stats_process_entry_from_recalc_pool (e : env) (s : state)
    : option (bool * state) :=
  process_entry_rounds (S (length (recalc_pool s))) e s.

(** Modelled from the spec: [dict_defrag_process_entries_from_defrag_pool()]
    is defined in dict0defrag_bg.cc, which is not among the sources. The
    design document has the defrag pool drained in this pass, after the
    recalc passes and by a collaborator of its own: the call is recorded and
    the defrag pool is empty afterwards. *)
Definition dict_defrag_process_entries_from_defrag_pool (s : state) : state :=
  set_defrag_pool (log EvDefragProcess s) [].

(** [while (dict_stats_process_entry_from_recalc_pool()) {}], bounded. *)
Fixpoint dict_stats_func_loop (fuel : nat) (e : env) (s : state) : option state :=
  match fuel with
  | O => None
  | S fuel' =>
      match dict_stats_process_entry_from_recalc_pool e s with
      | None => None
      | Some (true, s') => dict_stats_func_loop fuel' e s'
      | Some (false, s') => Some s'
      end
  end.

Definition dict_stats_func (e : env) (s : state) : option state :=
  match dict_stats_func_loop (S (length (recalc_pool s))) e s with
  | Some s' => Some (dict_defrag_process_entries_from_defrag_pool s')
  | None => None
  end.

(** ** Definitions used in the statements *)

(** A run of [dict_stats_recalc_pool_add] calls, first call first. *)
Definition add_all (e : env) (adds : list (dict_table_t * bool)) (s : state) : state :=
  foldl (fun s a => dict_stats_recalc_pool_add e a.1 a.2 s) s adds.

(** The threshold in the words of the design document:
    [max(16, row_count/16)], clamped to the override when one is set. *)
Definition documented_transient_threshold (override n_rows : Z) : Z :=
  let threshold := Z.max 16 (n_rows / 16) in
  if override =? 0 then threshold else Z.min override threshold.

(** The state after [dict_stats_recalc_pool_get] has taken the head off. *)
Definition after_get (s : state) (rest : list table_id_t) : state :=
  mysql_mutex_unlock (set_recalc_pool (mysql_mutex_lock s) rest).

(** ... and after the catalog was latched and asked for the table. *)
Definition after_open (s : state) (tid : table_id_t) (rest : list table_id_t) : state :=
  log (EvTableOpenOnId tid) (log EvDictSysLock (after_get s rest)).

(** The table with the activity flag raised, and the state in which the
    clock is read. *)
Definition in_progress (t : dict_table_t) : dict_table_t :=
  set_stats_bg_flag (Z.lor (stats_bg_flag t) BG_STAT_IN_PROGRESS) t.

Definition after_mark (s : state) (tid : table_id_t) (rest : list table_id_t)
    (t : dict_table_t) : state :=
  set_oracle_pos
    (log EvDictSysUnlock (store_table tid (in_progress t) (after_open s tid rest)))
    (S (oracle_pos s)).

(** ** Sample inputs *)

Module Sample.
(** A quiet environment: no override of the threshold, the clock reads
    1000 s, [try_lock] always wins, the statistics engine leaves the table
    object as it is. *)
Definition e0 : env := mk_env 0 (fun _ => 1000) (fun _ => true) (fun _ t => t).

(** A persistent, accessible table whose statistics were recalculated at
    time [last]. *)
Definition tbl (tid last : Z) : dict_table_t :=
  mk_table tid true 0 100 last BG_STAT_NONE true true false true.

(** The state right after [dict_stats_init] and [dict_stats_start], with
    the given catalog. *)
Definition started (d : gmap Z dict_table_t) : state :=
  mk_state [] [] MutexFree true (Some (mk_timer None)) d 0 [].
End Sample.

Module TransientSample.
(** A table of 160 rows with transient statistics and [c] modifications
    counted so far. *)
Definition t160 (c : Z) : dict_table_t :=
  mk_table 1 true c 160 0 BG_STAT_NONE false true false true.
End TransientSample.

Module PersistentSample.
(** A table of 100 rows with persistent statistics and auto-recalculation,
    with [c] modifications counted so far. *)
Definition t100 (c : Z) : dict_table_t :=
  mk_table 4 true c 100 0 BG_STAT_NONE true true false true.
End PersistentSample.

Module WorkerSample.
(** Table 7 was recalculated 5 s before the clock of [Sample.e0], table 8
    long ago, table 6 cannot be accessed, and there is no table 9. *)
Definition t6 : dict_table_t :=
  mk_table 6 true 0 100 0 BG_STAT_NONE true true false false.
Definition catalog : gmap Z dict_table_t :=
  <[6 := t6]> (<[7 := Sample.tbl 7 995]> (<[8 := Sample.tbl 8 0]> ∅)).
Definition with_pool (p : list table_id_t) : state :=
  set_recalc_pool (Sample.started catalog) p.
End WorkerSample.

Module LifecycleSample.
(** Initialised but never started: both pools hold entries, there is no
    timer. *)
Definition s0 : state := mk_state [7; 8] [(7, 1)] MutexFree true None ∅ 0 [].
End LifecycleSample.

(** ** The debug switch and readings of the call log *)

(** [dict_stats_disabled_debug_update] (UNIV_DEBUG builds): [save] points to
    the new value of innodb_dict_stats_disabled_debug. *)
Definition dict_stats_disabled_debug_update (save : bool) (s : state) : state :=
  let disable := save in
  if disable then dict_stats_shutdown s else dict_stats_start s.

(** The calls logged between an earlier state [s] and a later state [s']. *)
Definition new_calls (s s' : state) : list event :=
  drop (length (calls s)) (calls s').

(** The identifiers looked up in the catalog, in call order. *)
Fixpoint opened_ids (l : list event) : list table_id_t :=
  match l with
  | [] => []
  | EvTableOpenOnId tid :: l' => tid :: opened_ids l'
  | _ :: l' => opened_ids l'
  end.

(** The delays asked of [dict_stats_schedule], in call order. *)
Fixpoint schedule_requests (l : list event) : list Z :=
  match l with
  | [] => []
  | EvSchedule ms :: l' => ms :: schedule_requests l'
  | _ :: l' => schedule_requests l'
  end.

(** The calls of the statistics engine, in call order. *)
Fixpoint stats_updates (l : list event) : list (table_id_t * dict_stats_upd_option_t) :=
  match l with
  | [] => []
  | EvStatsUpdate tid mode :: l' => (tid, mode) :: stats_updates l'
  | _ :: l' => stats_updates l'
  end.

(** The discipline of the catalog latch, read off a call log: starting with
    the latch [held] or not, the log is followed call by call; the result is
    whether the latch is held at the end, or [None] when a call breaks the
    discipline (latching twice, unlatching what is not held, opening,
    releasing or closing a table without the latch, calling the statistics
    engine with it). *)
Fixpoint latch_run (held : bool) (l : list event) : option bool :=
  match l with
  | [] => Some held
  | EvDictSysLock :: l' => if held then None else latch_run true l'
  | EvDictSysUnlock :: l' => if held then latch_run false l' else None
  | EvTableOpenOnId _ :: l' | EvTableRelease _ :: l' | EvTableClose _ :: l' =>
      if held then latch_run held l' else None
  | EvStatsUpdate _ _ :: l' => if held then None else latch_run held l'
  | _ :: l' => latch_run held l'
  end.

(** [n] calls of [dict_stats_recalc_pool_get] in a row: the identifiers
    handed out, and the state after the last call that handed one out or
    after the first that found the pool empty. *)
Fixpoint get_all (n : nat) (s : state) : list table_id_t * state :=
  match n with
  | O => ([], s)
  | S n' =>
      match dict_stats_recalc_pool_get 0 s with
      | (true, tid, s1) => let '(l, s2) := get_all n' s1 in (tid :: l, s2)
      | (false, _, s1) => ([], s1)
      end
  end.

(** ** The rounds of the worker, as a relation *)

(** The five ways through one round after [next_table_id], each with the
    state it leaves. *)
Inductive round_spec (e : env) (s : state) : round_end -> state -> Prop :=
  | RoundEmpty :
      recalc_pool s = [] ->
      round_spec e s (Return false) (set_recalc_pool_mutex s MutexFree)
  | RoundMissing tid rest :
      recalc_pool s = tid :: rest ->
      dict_sys s !! tid = None ->
      round_spec e s GotoNextTableId (log EvDictSysUnlock (after_open s tid rest))
  | RoundInaccessible tid rest t :
      recalc_pool s = tid :: rest ->
      dict_sys s !! tid = Some t ->
      is_accessible t = false ->
      round_spec e s GotoNextTableId
        (log EvDictSysUnlock (log (EvTableRelease tid) (after_open s tid rest)))
  | RoundThrottled tid rest t :
      recalc_pool s = tid :: rest ->
      dict_sys s !! tid = Some t ->
      is_accessible t = true ->
      difftime (time_at e (oracle_pos s)) (stats_last_recalc t) < MIN_RECALC_INTERVAL ->
      round_spec e s (Return false)
        (close_entry tid (in_progress t)
           (dict_stats_schedule e (MIN_RECALC_INTERVAL * 1000)
              (dict_stats_recalc_pool_add e (in_progress t) false
                 (after_mark s tid rest t))))
  | RoundRecalculated tid rest t :
      recalc_pool s = tid :: rest ->
      dict_sys s !! tid = Some t ->
      is_accessible t = true ->
      MIN_RECALC_INTERVAL <= difftime (time_at e (oracle_pos s)) (stats_last_recalc t) ->
      round_spec e s (Return true)
        (close_entry tid
           (dict_stats_update_table e DICT_STATS_RECALC_PERSISTENT (in_progress t))
           (log (EvStatsUpdate (id t) DICT_STATS_RECALC_PERSISTENT)
              (after_mark s tid rest t))).

(** One firing of [dict_stats_func] up to the call of the defrag pass: rounds
    follow one another, whether joined by [goto next_table_id] or by the
    [while], until one returns false. *)
Inductive worker_run (e : env) : state -> state -> Prop :=
  | RunStop s s1 :
      process_entry_round e s = (Return false, s1) ->
      worker_run e s s1
  | RunStep s re s1 s2 :
      process_entry_round e s = (re, s1) ->
      re <> Return false ->
      worker_run e s1 s2 ->
      worker_run e s s2.

(** An identifier is stale in a catalog when it names no table or a table
    that cannot be accessed. *)
Definition stale (d : gmap Z dict_table_t) (tid : table_id_t) : Prop :=
  match d !! tid with
  | None => True
  | Some t => is_accessible t = false
  end.

(** What the worker logs for a stale identifier. *)
Definition stale_calls (d : gmap Z dict_table_t) (tid : table_id_t) : list event :=
  [EvDictSysLock; EvTableOpenOnId tid]
    ++ match d !! tid with
       | None => []
       | Some _ => [EvTableRelease tid]
       end
    ++ [EvDictSysUnlock].

(** [n] writes to one table in a row, each going through the modification
    tracker. *)
Fixpoint writes (n : nat) (trx : option trx_t) (e : env) (t : dict_table_t)
    (s : state) : dict_table_t * state :=
  match n with
  | O => (t, s)
  | S n' =>
      let '(t1, s1) := dict_stats_update_if_needed_body trx e t s in
      writes n' trx e t1 s1
  end.

(** * Properties *)

(** ** The timer glue leaves the pool alone *)

(** Both outcomes of [try_lock], and both values of the timer handle. *)
Ltac schedule_cases e s :=
  unfold dict_stats_schedule; cbn;
  destruct (try_lock_at e (oracle_pos s)); cbn; [|reflexivity];
  destruct (dict_stats_timer s); reflexivity.

Lemma schedule_recalc_pool e ms s :
  recalc_pool (dict_stats_schedule e ms s) = recalc_pool s.
Proof. schedule_cases e s. Qed.

Lemma schedule_calls e ms s :
  calls (dict_stats_schedule e ms s) = calls s ++ [EvSchedule ms].
Proof. schedule_cases e s. Qed.

Lemma schedule_dict_sys e ms s :
  dict_sys (dict_stats_schedule e ms s) = dict_sys s.
Proof. schedule_cases e s. Qed.

Lemma schedule_timer_armed e ms s :
  try_lock_at e (oracle_pos s) = true ->
  dict_stats_timer s <> None ->
  dict_stats_timer (dict_stats_schedule e ms s) = Some (mk_timer (Some ms)).
Proof.
  intros Hl Ht. unfold dict_stats_schedule; cbn. rewrite Hl; cbn.
  destruct (dict_stats_timer s); [reflexivity | congruence].
Qed.

(** ** The pool as a list *)

Lemma pool_scan_true tid p : pool_scan tid p = true <-> tid ∈ p.
Proof.
  induction p as [|x p IH]; cbn.
  - split; [discriminate | intros H; inversion H].
  - destruct (Z.eqb_spec x tid) as [->|Hne].
    + split; [intros _; left | reflexivity].
    + rewrite IH. split; [intros H; now right|].
      intros H. apply elem_of_cons in H as [H|H]; [congruence | exact H].
Qed.

Lemma pool_scan_false tid p : pool_scan tid p = false <-> tid ∉ p.
Proof.
  rewrite <- pool_scan_true. destruct (pool_scan tid p); split; congruence.
Qed.

(** What [dict_stats_recalc_pool_add] does to the vector. *)
Lemma add_recalc_pool e t f s :
  recalc_pool (dict_stats_recalc_pool_add e t f s) =
    if pool_scan (id t) (recalc_pool s) then recalc_pool s
    else recalc_pool s ++ [id t].
Proof.
  unfold dict_stats_recalc_pool_add; cbn.
  destruct (pool_scan (id t) (recalc_pool s)); cbn; [reflexivity|].
  destruct (_ && f); cbn; [|reflexivity].
  unfold dict_stats_schedule_now. now rewrite schedule_recalc_pool.
Qed.

Lemma add_dict_sys e t f s :
  dict_sys (dict_stats_recalc_pool_add e t f s) = dict_sys s.
Proof.
  unfold dict_stats_recalc_pool_add; cbn.
  destruct (pool_scan (id t) (recalc_pool s)); cbn; [reflexivity|].
  destruct (_ && f); cbn; [|reflexivity].
  unfold dict_stats_schedule_now. now rewrite schedule_dict_sys.
Qed.

Lemma add_elem e t f s : id t ∈ recalc_pool (dict_stats_recalc_pool_add e t f s).
Proof.
  rewrite add_recalc_pool.
  destruct (pool_scan (id t) (recalc_pool s)) eqn:E.
  - now apply pool_scan_true.
  - apply elem_of_app; right; left.
Qed.

Lemma add_NoDup e t f s :
  NoDup (recalc_pool s) -> NoDup (recalc_pool (dict_stats_recalc_pool_add e t f s)).
Proof.
  intros Hnd. rewrite add_recalc_pool.
  destruct (pool_scan (id t) (recalc_pool s)) eqn:E; [exact Hnd|].
  apply pool_scan_false in E.
  apply NoDup_app. split; [exact Hnd|]. split; [|apply NoDup_singleton].
  intros x Hx Hx'. apply list_elem_of_singleton in Hx'. now subst.
Qed.

Lemma pool_erase_first_subset tid p x : x ∈ pool_erase_first tid p -> x ∈ p.
Proof.
  induction p as [|y p IH]; cbn; [trivial|].
  destruct (y =? tid); [now right|].
  intros H. apply elem_of_cons in H as [->|H]; [left | right; auto].
Qed.

Lemma pool_erase_first_NoDup tid p : NoDup p -> NoDup (pool_erase_first tid p).
Proof.
  induction 1 as [|y p Hy Hp IH]; cbn; [constructor|].
  destruct (y =? tid); [exact Hp|].
  constructor; [|exact IH].
  intros H; apply Hy. eapply pool_erase_first_subset, H.
Qed.

(** Removal and taking the head keep the pool free of repetitions as well. *)
Lemma del_NoDup t s :
  NoDup (recalc_pool s) -> NoDup (recalc_pool (dict_stats_recalc_pool_del t s)).
Proof. cbn. apply pool_erase_first_NoDup. Qed.

Lemma get_NoDup o s :
  NoDup (recalc_pool s) -> NoDup (recalc_pool (dict_stats_recalc_pool_get o s).2).
Proof.
  unfold dict_stats_recalc_pool_get; cbn.
  destruct (recalc_pool s) as [|x p] eqn:E; cbn; [now rewrite E|].
  intros H. now apply NoDup_cons in H as [_ H].
Qed.

Lemma add_all_NoDup e adds : forall s,
  NoDup (recalc_pool s) -> NoDup (recalc_pool (add_all e adds s)).
Proof.
  induction adds as [|a adds IH]; intros s H; cbn; [exact H|].
  apply IH, add_NoDup, H.
Qed.

Lemma add_all_elem e adds : forall s x,
  x ∈ recalc_pool s -> x ∈ recalc_pool (add_all e adds s).
Proof.
  induction adds as [|a adds IH]; intros s x H; cbn; [exact H|].
  apply IH. rewrite add_recalc_pool.
  destruct (pool_scan _ _); [exact H | apply elem_of_app; now left].
Qed.

Lemma NoDup_count_occ_1 (p : list Z) x :
  NoDup p -> x ∈ p -> count_occ Z.eq_dec p x = 1%nat.
Proof.
  intros Hnd Hx. apply list_elem_of_In in Hx.
  apply NoDup_ListNoDup in Hnd.
  pose proof (proj1 (List.NoDup_count_occ Z.eq_dec p) Hnd x) as Hle.
  pose proof (proj1 (List.count_occ_In Z.eq_dec p x) Hx). lia.
Qed.

(** ** Uniqueness *)

(** C3. Starting from a pool without repetitions (the empty pool of a fresh
    process in particular), no run of [dict_stats_recalc_pool_add] calls
    produces a pool that holds an identifier twice; after one or more adds
    of one identifier the pool holds it exactly once; and an add of an
    identifier that is present leaves the pool as it was. *)
Theorem recalc_pool_add_unique (e : env) (s : state) :
  NoDup (recalc_pool s) ->
  (forall adds, NoDup (recalc_pool (add_all e adds s))) /\
  (forall adds tid,
      adds <> [] -> Forall (fun a => id a.1 = tid) adds ->
      count_occ Z.eq_dec (recalc_pool (add_all e adds s)) tid = 1%nat) /\
  (forall t f,
      id t ∈ recalc_pool s ->
      recalc_pool (dict_stats_recalc_pool_add e t f s) = recalc_pool s).
Proof.
  intros Hnd. split; [|split].
  - intros adds. now apply add_all_NoDup.
  - intros adds tid Hne Hall.
    apply NoDup_count_occ_1; [now apply add_all_NoDup|].
    destruct adds as [|a adds]; [congruence|].
    apply Forall_cons in Hall as [<- _]. cbn.
    apply add_all_elem, add_elem.
  - intros t f Hin. rewrite add_recalc_pool.
    apply pool_scan_true in Hin. now rewrite Hin.
Qed.

Lemma recalc_pool_add_unique_witness :
  NoDup (recalc_pool (Sample.started ∅)) /\
  recalc_pool (add_all Sample.e0
                 [(Sample.tbl 5 0, true); (Sample.tbl 5 0, false); (Sample.tbl 5 9, true)]
                 (Sample.started ∅)) = [5] /\
  count_occ Z.eq_dec
    (recalc_pool (add_all Sample.e0
                    [(Sample.tbl 5 0, true); (Sample.tbl 5 0, false); (Sample.tbl 5 9, true)]
                    (Sample.started ∅))) 5 = 1%nat.
Proof.
  split; [constructor|]. split; [reflexivity|].
  apply (recalc_pool_add_unique Sample.e0 (Sample.started ∅)).
  - constructor.
  - discriminate.
  - repeat constructor.
Defined.

(** ** First in, first out *)

Lemma add_fresh_pool e t f s :
  id t ∉ recalc_pool s ->
  recalc_pool (dict_stats_recalc_pool_add e t f s) = recalc_pool s ++ [id t].
Proof.
  intros H. rewrite add_recalc_pool.
  apply pool_scan_false in H. now rewrite H.
Qed.

Lemma get_cons o s x p :
  recalc_pool s = x :: p ->
  dict_stats_recalc_pool_get o s =
    (true, x, mysql_mutex_unlock (set_recalc_pool (mysql_mutex_lock s) p)).
Proof. intros H. unfold dict_stats_recalc_pool_get; cbn. now rewrite H. Qed.

(** C4. After adds of three distinct identifiers A, B, C into the empty pool,
    three [dict_stats_recalc_pool_get] calls return A, then B, then C and
    leave the pool empty; and when A is added again right after it was
    taken, the pool reads B, C, A. *)
Theorem recalc_pool_fifo (e : env) (s : state) (ta tb tc : dict_table_t)
    (fa fb fc fr : bool) (o1 o2 o3 : table_id_t) :
  recalc_pool s = [] ->
  id ta <> id tb -> id ta <> id tc -> id tb <> id tc ->
  let s3 := dict_stats_recalc_pool_add e tc fc
              (dict_stats_recalc_pool_add e tb fb
                 (dict_stats_recalc_pool_add e ta fa s)) in
  exists s4 s5 s6,
    dict_stats_recalc_pool_get o1 s3 = (true, id ta, s4) /\
    dict_stats_recalc_pool_get o2 s4 = (true, id tb, s5) /\
    dict_stats_recalc_pool_get o3 s5 = (true, id tc, s6) /\
    recalc_pool s6 = [] /\
    recalc_pool (dict_stats_recalc_pool_add e ta fr s4) = [id tb; id tc; id ta].
Proof.
  intros Hs Hab Hac Hbc s3.
  assert (H1 : recalc_pool (dict_stats_recalc_pool_add e ta fa s) = [id ta]).
  { rewrite add_fresh_pool; rewrite Hs; [reflexivity | apply not_elem_of_nil]. }
  assert (H2 : recalc_pool (dict_stats_recalc_pool_add e tb fb
                 (dict_stats_recalc_pool_add e ta fa s)) = [id ta; id tb]).
  { rewrite add_fresh_pool; rewrite H1; [reflexivity|].
    rewrite list_elem_of_singleton. congruence. }
  assert (H3 : recalc_pool s3 = [id ta; id tb; id tc]).
  { subst s3. rewrite add_fresh_pool; rewrite H2; [reflexivity|].
    rewrite !elem_of_cons, elem_of_nil. intuition congruence. }
  eexists _, _, _.
  split; [apply (get_cons _ _ _ _ H3)|].
  split; [apply get_cons; reflexivity|].
  split; [apply get_cons; reflexivity|].
  split; [reflexivity|].
  rewrite add_fresh_pool; [reflexivity|]. cbn.
  rewrite ?elem_of_cons, ?elem_of_nil; intuition congruence.
Qed.

Lemma recalc_pool_fifo_witness :
  exists s4 s5 s6,
    dict_stats_recalc_pool_get 0
      (dict_stats_recalc_pool_add Sample.e0 (Sample.tbl 3 0) true
         (dict_stats_recalc_pool_add Sample.e0 (Sample.tbl 2 0) true
            (dict_stats_recalc_pool_add Sample.e0 (Sample.tbl 1 0) true
               (Sample.started ∅)))) = (true, 1, s4) /\
    dict_stats_recalc_pool_get 1 s4 = (true, 2, s5) /\
    dict_stats_recalc_pool_get 2 s5 = (true, 3, s6) /\
    recalc_pool s6 = [] /\
    recalc_pool (dict_stats_recalc_pool_add Sample.e0 (Sample.tbl 1 0) false s4)
      = [2; 3; 1].
Proof.
  apply (recalc_pool_fifo Sample.e0 (Sample.started ∅)
           (Sample.tbl 1 0) (Sample.tbl 2 0) (Sample.tbl 3 0)
           true true true false 0 1 2); cbn; [reflexivity | lia | lia | lia].
Defined.

(** ** When an add asks for an immediate firing *)

(** C5. [dict_stats_recalc_pool_add] enters [dict_stats_schedule_now] exactly
    when the pool was empty before the call and the flag is true: it then
    logs one request with delay 0. In every other case (the pool was not
    empty, or the flag is false) it logs nothing, asks the surroundings
    nothing and leaves the timer as it was. *)
Theorem recalc_pool_add_schedules (e : env) (t : dict_table_t) (f : bool) (s : state) :
  let s' := dict_stats_recalc_pool_add e t f s in
  if decide (recalc_pool s = [] /\ f = true)
  then calls s' = calls s ++ [EvSchedule 0] /\
       s' = mysql_mutex_unlock
              (dict_stats_schedule_now e (set_recalc_pool (mysql_mutex_lock s) [id t]))
  else calls s' = calls s /\
       dict_stats_timer s' = dict_stats_timer s /\
       oracle_pos s' = oracle_pos s.
Proof.
  cbv zeta. unfold dict_stats_recalc_pool_add.
  destruct (decide (recalc_pool s = [] /\ f = true)) as [[Hp ->]|Hn].
  - cbn. rewrite Hp. cbn.
    change ((Z.of_nat 1 =? 1) && true) with true. cbv iota.
    split; [|reflexivity].
    unfold dict_stats_schedule_now. now rewrite schedule_calls.
  - cbn. destruct (pool_scan (id t) (recalc_pool s)); cbn; [auto|].
    destruct (recalc_pool s) as [|x p] eqn:Hp; cbn.
    + destruct f; [exfalso; apply Hn; auto | cbn; auto].
    + rewrite length_app. cbn.
      replace (Z.of_nat (S (length p + 1)) =? 1) with false
        by (symmetry; apply Z.eqb_neq; lia).
      cbn. auto.
Qed.

(** ** Taking from the empty pool *)

(** C10. On an empty pool [dict_stats_recalc_pool_get] returns false, hands
    the out-parameter back with the value it came in with, and leaves the
    pool empty; nothing but the mutex, which ends released, is touched, so
    a state whose mutex was free is returned as it was. *)
Theorem recalc_pool_get_empty (o : table_id_t) (s : state) :
  recalc_pool s = [] ->
  exists s',
    dict_stats_recalc_pool_get o s = (false, o, s') /\
    recalc_pool s' = recalc_pool s /\
    s' = set_recalc_pool_mutex s MutexFree /\
    (recalc_pool_mutex s = MutexFree -> s' = s).
Proof.
  intros Hp. exists (set_recalc_pool_mutex s MutexFree).
  unfold dict_stats_recalc_pool_get; cbn. rewrite Hp.
  split; [reflexivity|]. split; [reflexivity|]. split; [reflexivity|].
  intros Hm. destruct s; cbn in *. now subst.
Qed.

Lemma recalc_pool_get_empty_witness :
  dict_stats_recalc_pool_get 42 (Sample.started ∅) = (false, 42, Sample.started ∅).
Proof.
  destruct (recalc_pool_get_empty 42 (Sample.started ∅) eq_refl)
    as (s' & Hget & _ & _ & Hsame).
  rewrite Hget. now rewrite (Hsame eq_refl).
Defined.

(** ** Start, shutdown, deinit *)

(** C9. A second [dict_stats_start] changes nothing (no timer is created, the
    handle stays); [dict_stats_shutdown] without a timer changes nothing;
    [dict_stats_deinit] changes nothing when [stats_initialised] is false,
    and otherwise empties both pools and clears [stats_initialised], so
    that a second [dict_stats_deinit] changes nothing. *)
Theorem lifecycle_idempotent (s : state) :
  dict_stats_start (dict_stats_start s) = dict_stats_start s /\
  (dict_stats_timer s = None -> dict_stats_shutdown s = s) /\
  (stats_initialised s = false -> dict_stats_deinit s = s) /\
  (stats_initialised s = true ->
     recalc_pool (dict_stats_deinit s) = [] /\
     defrag_pool (dict_stats_deinit s) = [] /\
     stats_initialised (dict_stats_deinit s) = false /\
     dict_stats_deinit (dict_stats_deinit s) = dict_stats_deinit s).
Proof.
  split; [|split; [|split]].
  - unfold dict_stats_start at 2 3.
    destruct (dict_stats_timer s) eqn:Ht.
    + unfold dict_stats_start. now rewrite Ht.
    + reflexivity.
  - intros Ht. unfold dict_stats_shutdown. rewrite Ht.
    destruct s; cbn in *. now subst.
  - intros Hi. unfold dict_stats_deinit. now rewrite Hi.
  - intros Hi. unfold dict_stats_deinit. rewrite Hi. cbn. auto.
Qed.

Lemma lifecycle_idempotent_witness :
  dict_stats_shutdown LifecycleSample.s0 = LifecycleSample.s0 /\
  recalc_pool (dict_stats_deinit LifecycleSample.s0) = [] /\
  defrag_pool (dict_stats_deinit LifecycleSample.s0) = [] /\
  dict_stats_deinit (dict_stats_deinit LifecycleSample.s0)
    = dict_stats_deinit LifecycleSample.s0 /\
  calls (dict_stats_start (dict_stats_start LifecycleSample.s0)) = [EvCreateTimer].
Proof.
  destruct (lifecycle_idempotent LifecycleSample.s0) as (Hstart & Hshut & _ & Hdeinit).
  destruct (Hdeinit eq_refl) as (Hp & Hd & _ & Htwice).
  split; [exact (Hshut eq_refl)|].
  split; [exact Hp|]. split; [exact Hd|]. split; [exact Htwice|].
  rewrite Hstart. reflexivity.
Defined.

(** ** The modification tracker: transient statistics *)

(** C1, as the document has it, fails: for 160 rows the code's threshold is
    26 and the documented one is 16, and a write that finds the counter at
    17 (or brings it to 17) does not call the statistics engine. *)
Lemma transient_threshold_160_is_not_16 :
  documented_transient_threshold 0 160 = 16 /\
  transient_threshold Sample.e0 160 = 26 /\
  dict_stats_update_if_needed_func Sample.e0 (TransientSample.t160 17) (Sample.started ∅)
    = (TransientSample.t160 18, Sample.started ∅) /\
  dict_stats_update_if_needed_func Sample.e0 (TransientSample.t160 16) (Sample.started ∅)
    = (TransientSample.t160 17, Sample.started ∅).
Proof. repeat split; reflexivity. Qed.

(** C1, amended. With initialised transient statistics the threshold is
    [16 + row_count/16], replaced by the override when that is set and
    smaller; the statistics engine is called in the writer's thread (mode
    TRANSIENT) exactly when the counter, as read before its increment, is
    above the threshold. For 160 rows and no override the threshold is 26:
    a counter of 27 triggers the call and a counter of 26 does not. *)
Theorem transient_recalc_threshold (trx : option trx_t) (e : env)
    (t : dict_table_t) (s : state) :
  stat_initialized t = true ->
  dict_stats_is_persistent_enabled t = false ->
  0 <= stat_n_rows t < ULONGLONG_MODULUS ->
  let base := 16 + stat_n_rows t / 16 in
  let threshold := if srv_stats_modified_counter e =? 0 then base
                   else Z.min (srv_stats_modified_counter e) base in
  let t' := set_stat_modified_counter
              ((stat_modified_counter t + 1) mod ULONGLONG_MODULUS) t in
  dict_stats_update_if_needed_body trx e t s =
    (if threshold <? stat_modified_counter t
     then (dict_stats_update_table e DICT_STATS_RECALC_TRANSIENT t',
           log (EvStatsUpdate (id t) DICT_STATS_RECALC_TRANSIENT) s)
     else (t', s)) /\
  (stat_n_rows t = 160 -> srv_stats_modified_counter e = 0 ->
     threshold = 26 /\
     (stat_modified_counter t = 27 ->
        calls (dict_stats_update_if_needed_body trx e t s).2
          = calls s ++ [EvStatsUpdate (id t) DICT_STATS_RECALC_TRANSIENT]) /\
     (stat_modified_counter t = 26 ->
        (dict_stats_update_if_needed_body trx e t s).2 = s)).
Proof.
  intros Hi Hp Hn base threshold t'.
  assert (Hth : transient_threshold e (stat_n_rows t) = threshold).
  { unfold transient_threshold, threshold, base.
    rewrite Z.mod_small.
    - now destruct (srv_stats_modified_counter e =? 0).
    - unfold ULONGLONG_MODULUS in *.
      assert (0 <= stat_n_rows t / 16) by (apply Z.div_pos; lia).
      assert (stat_n_rows t / 16 <= stat_n_rows t)
        by (apply Z.div_le_upper_bound; lia).
      assert (stat_n_rows t / 16 < 2 ^ 60)
        by (apply Z.div_lt_upper_bound; lia).
      lia. }
  assert (Hbody : dict_stats_update_if_needed_body trx e t s =
    (if threshold <? stat_modified_counter t
     then (dict_stats_update_table e DICT_STATS_RECALC_TRANSIENT t',
           log (EvStatsUpdate (id t) DICT_STATS_RECALC_TRANSIENT) s)
     else (t', s))).
  { unfold dict_stats_update_if_needed_body. rewrite Hi. cbn.
    unfold dict_stats_is_persistent_enabled in Hp. rewrite Hp.
    unfold dict_table_get_n_rows. cbn. rewrite Hth.
    destruct (threshold <? stat_modified_counter t); reflexivity. }
  split; [exact Hbody|].
  intros H160 H0.
  assert (H26 : threshold = 26).
  { unfold threshold, base. rewrite H0, H160. reflexivity. }
  split; [exact H26|]. rewrite Hbody, H26. split; intros ->; reflexivity.
Qed.

Lemma transient_recalc_threshold_witness :
  calls (dict_stats_update_if_needed_body None Sample.e0
           (TransientSample.t160 27) (Sample.started ∅)).2
    = [EvStatsUpdate 1 DICT_STATS_RECALC_TRANSIENT].
Proof.
  destruct (transient_recalc_threshold None Sample.e0 (TransientSample.t160 27)
              (Sample.started ∅) eq_refl eq_refl) as [_ H].
  - unfold ULONGLONG_MODULUS; cbn; lia.
  - destruct (H eq_refl eq_refl) as (_ & H27 & _). exact (H27 eq_refl).
Defined.

(** ** The modification tracker: persistent statistics *)

(** C8. With initialised persistent statistics, a write to a temporary table
    only counts the modification: the state, the pool included, is as
    before. For any other table, the table is added to the recalc pool with
    the immediate-scheduling flag set and its counter is set to zero when
    the counter read is above [row_count/10], auto-recalculation is enabled
    and the replication test (compiled in under WITH_WSREP, absent when
    [trx] is [None]) does not object; in every other case the pool is left
    alone and the counter is the incremented one. *)
Theorem persistent_enqueue (trx : option trx_t) (e : env)
    (t : dict_table_t) (s : state) :
  stat_initialized t = true ->
  dict_stats_is_persistent_enabled t = true ->
  let t1 := set_stat_modified_counter
              ((stat_modified_counter t + 1) mod ULONGLONG_MODULUS) t in
  let veto := match trx with Some x => wsrep_skip x | None => false end in
  let due := stat_n_rows t / 10 < stat_modified_counter t /\
             dict_stats_auto_recalc_is_enabled t = true /\
             veto = false in
  let r := dict_stats_update_if_needed_body trx e t s in
  (is_temporary t = true -> r = (t1, s)) /\
  (is_temporary t = false ->
     (due -> r.2 = dict_stats_recalc_pool_add e t1 true s /\
             id t ∈ recalc_pool r.2 /\
             r.1 = set_stat_modified_counter 0 t1) /\
     (~ due -> recalc_pool r.2 = recalc_pool s /\ r.1 = t1)).
Proof.
  intros Hi Hp t1 veto due r. subst r.
  unfold dict_stats_update_if_needed_body. rewrite Hi. cbn.
  unfold dict_stats_is_persistent_enabled in Hp. rewrite Hp.
  fold t1. split.
  - unfold is_temporary. intros ->. reflexivity.
  - unfold is_temporary. intros ->.
    unfold dict_table_get_n_rows, dict_stats_auto_recalc_is_enabled in *. cbn.
    split.
    + intros (Hc & Ha & Hv). apply Z.ltb_lt in Hc. rewrite Hc, Ha. cbn.
      fold veto. rewrite Hv. cbn.
      split; [reflexivity|]. split; [|reflexivity].
      apply (add_elem e t1 true s).
    + intros Hnd.
      destruct (stat_n_rows t / 10 <? stat_modified_counter t) eqn:Hc; cbn;
        [|auto].
      destruct (stats_auto_recalc_on t) eqn:Ha; cbn; [|auto].
      fold veto. destruct veto eqn:Hv; cbn; [auto|].
      exfalso. apply Hnd. apply Z.ltb_lt in Hc. unfold due. auto.
Qed.

Lemma persistent_enqueue_witness :
  (dict_stats_update_if_needed_body None Sample.e0
     (PersistentSample.t100 11) (Sample.started ∅)).1 = PersistentSample.t100 0 /\
  recalc_pool (dict_stats_update_if_needed_body None Sample.e0
     (PersistentSample.t100 11) (Sample.started ∅)).2 = [4] /\
  (dict_stats_update_if_needed_body None Sample.e0
     (PersistentSample.t100 10) (Sample.started ∅)).1 = PersistentSample.t100 11 /\
  recalc_pool (dict_stats_update_if_needed_body None Sample.e0
     (PersistentSample.t100 10) (Sample.started ∅)).2 = [].
Proof.
  destruct (persistent_enqueue None Sample.e0 (PersistentSample.t100 11)
              (Sample.started ∅) eq_refl eq_refl) as [_ H11].
  destruct (persistent_enqueue None Sample.e0 (PersistentSample.t100 10)
              (Sample.started ∅) eq_refl eq_refl) as [_ H10].
  destruct (H11 eq_refl) as [Hdue _].
  destruct (H10 eq_refl) as [_ Hnot].
  destruct Hdue as (Hs & _ & Ht).
  { split; [reflexivity | split; reflexivity]. }
  destruct Hnot as (Hp & Ht').
  { intros (Hc & _). vm_compute in Hc. discriminate. }
  split; [exact Ht|]. split; [rewrite Hs; reflexivity|].
  split; [exact Ht' | exact Hp].
Defined.

(** ** One round of the worker *)

Lemma round_empty e s :
  recalc_pool s = [] ->
  process_entry_round e s = (Return false, set_recalc_pool_mutex s MutexFree).
Proof.
  intros Hp. unfold process_entry_round, dict_stats_recalc_pool_get; cbn.
  now rewrite Hp.
Qed.

Lemma round_missing e s tid rest :
  recalc_pool s = tid :: rest ->
  dict_sys s !! tid = None ->
  process_entry_round e s = (GotoNextTableId, log EvDictSysUnlock (after_open s tid rest)).
Proof.
  intros Hp Hd. unfold process_entry_round.
  rewrite (get_cons _ _ _ _ Hp). cbn. now rewrite Hd.
Qed.

Lemma round_inaccessible e s tid rest t :
  recalc_pool s = tid :: rest ->
  dict_sys s !! tid = Some t ->
  is_accessible t = false ->
  process_entry_round e s =
    (GotoNextTableId,
     log EvDictSysUnlock (log (EvTableRelease tid) (after_open s tid rest))).
Proof.
  intros Hp Hd Ha. unfold process_entry_round.
  rewrite (get_cons _ _ _ _ Hp). cbn. rewrite Hd. now rewrite Ha.
Qed.

Lemma round_throttled e s tid rest t :
  recalc_pool s = tid :: rest ->
  dict_sys s !! tid = Some t ->
  is_accessible t = true ->
  difftime (time_at e (oracle_pos s)) (stats_last_recalc t) < MIN_RECALC_INTERVAL ->
  process_entry_round e s =
    (Return false,
     close_entry tid (in_progress t)
       (dict_stats_schedule e (MIN_RECALC_INTERVAL * 1000)
          (dict_stats_recalc_pool_add e (in_progress t) false (after_mark s tid rest t)))).
Proof.
  intros Hp Hd Ha Ht. unfold process_entry_round.
  rewrite (get_cons _ _ _ _ Hp). cbn. rewrite Hd, Ha. cbn.
  apply Z.ltb_lt in Ht. cbn in Ht. now rewrite Ht.
Qed.

Lemma round_recalculated e s tid rest t :
  recalc_pool s = tid :: rest ->
  dict_sys s !! tid = Some t ->
  is_accessible t = true ->
  MIN_RECALC_INTERVAL <= difftime (time_at e (oracle_pos s)) (stats_last_recalc t) ->
  process_entry_round e s =
    (Return true,
     close_entry tid (dict_stats_update_table e DICT_STATS_RECALC_PERSISTENT (in_progress t))
       (log (EvStatsUpdate (id t) DICT_STATS_RECALC_PERSISTENT) (after_mark s tid rest t))).
Proof.
  intros Hp Hd Ha Ht. unfold process_entry_round.
  rewrite (get_cons _ _ _ _ Hp). cbn. rewrite Hd, Ha. cbn.
  apply Z.ltb_ge in Ht. cbn in Ht. now rewrite Ht.
Qed.

(** ** Throttled entries *)

Lemma add_false_calls e t s :
  calls (dict_stats_recalc_pool_add e t false s) = calls s.
Proof.
  unfold dict_stats_recalc_pool_add; cbn.
  destruct (pool_scan (id t) (recalc_pool s)); cbn; [reflexivity|].
  now rewrite andb_false_r.
Qed.

Lemma add_false_timer e t s :
  dict_stats_timer (dict_stats_recalc_pool_add e t false s) = dict_stats_timer s.
Proof.
  unfold dict_stats_recalc_pool_add; cbn.
  destruct (pool_scan (id t) (recalc_pool s)); cbn; [reflexivity|].
  now rewrite andb_false_r.
Qed.

Lemma add_false_oracle_pos e t s :
  oracle_pos (dict_stats_recalc_pool_add e t false s) = oracle_pos s.
Proof.
  unfold dict_stats_recalc_pool_add; cbn.
  destruct (pool_scan (id t) (recalc_pool s)); cbn; [reflexivity|].
  now rewrite andb_false_r.
Qed.

(** C6. When the head of the pool names an accessible table of the catalog
    whose last recalculation is less than MIN_RECALC_INTERVAL seconds old,
    the worker returns false with the identifier in the pool (at its tail
    when it was not queued a second time), with the table still in the
    catalog and its activity flag cleared, having called neither the
    statistics engine nor [dict_stats_schedule_now]: the one schedule request
    is for MIN_RECALC_INTERVAL * 1000 ms, and it arms the timer when the
    timer exists and [try_lock] wins. *)
Theorem worker_requeues_throttled (e : env) (s : state) (tid : table_id_t)
    (rest : list table_id_t) (t : dict_table_t) :
  recalc_pool s = tid :: rest ->
  dict_sys s !! tid = Some t ->
  id t = tid ->
  is_accessible t = true ->
  difftime (time_at e (oracle_pos s)) (stats_last_recalc t) < MIN_RECALC_INTERVAL ->
  exists s1,
    dict_stats_process_entry_from_recalc_pool e s = Some (false, s1) /\
    tid ∈ recalc_pool s1 /\
    (tid ∉ rest -> recalc_pool s1 = rest ++ [tid]) /\
    dict_sys s1 !! tid = Some (set_stats_bg_flag BG_STAT_NONE t) /\
    calls s1 = calls s ++ [EvDictSysLock; EvTableOpenOnId tid; EvDictSysUnlock;
                           EvSchedule 10000;
                           EvDictSysLock; EvTableClose tid; EvDictSysUnlock] /\
    (try_lock_at e (S (oracle_pos s)) = true -> dict_stats_timer s <> None ->
       dict_stats_timer s1 = Some (mk_timer (Some 10000))).
Proof.
  intros Hp Hd Hid Ha Ht.
  pose proof (round_throttled e s tid rest t Hp Hd Ha Ht) as Hr.
  eexists. split.
  { unfold dict_stats_process_entry_from_recalc_pool. rewrite Hp.
    cbn [length process_entry_rounds]. rewrite Hr. reflexivity. }
  assert (Hpool : forall x, recalc_pool (close_entry tid (in_progress t) x) = recalc_pool x)
    by reflexivity.
  split; [|split; [|split; [|split]]].
  - rewrite Hpool, schedule_recalc_pool. rewrite <- Hid at 1.
    apply (add_elem e (in_progress t) false).
  - intros Hfresh. rewrite Hpool, schedule_recalc_pool.
    rewrite add_fresh_pool; cbn; [now rewrite Hid | now rewrite Hid].
  - cbn. apply lookup_insert_eq.
  - cbn. rewrite schedule_calls, add_false_calls. cbn.
    now rewrite <- !app_assoc.
  - intros Hlock Htimer.
    change (dict_stats_timer (close_entry tid (in_progress t) ?x))
      with (dict_stats_timer x).
    apply schedule_timer_armed.
    + now rewrite add_false_oracle_pos.
    + now rewrite add_false_timer.
Qed.

Lemma worker_requeues_throttled_witness :
  exists s1,
    dict_stats_process_entry_from_recalc_pool Sample.e0 (WorkerSample.with_pool [7; 8])
      = Some (false, s1) /\
    recalc_pool s1 = [8; 7] /\
    dict_sys s1 !! 7 = Some (Sample.tbl 7 995) /\
    calls s1 = [EvDictSysLock; EvTableOpenOnId 7; EvDictSysUnlock;
                EvSchedule 10000;
                EvDictSysLock; EvTableClose 7; EvDictSysUnlock] /\
    dict_stats_timer s1 = Some (mk_timer (Some 10000)).
Proof.
  destruct (worker_requeues_throttled Sample.e0 (WorkerSample.with_pool [7; 8]) 7 [8]
              (Sample.tbl 7 995) eq_refl eq_refl eq_refl eq_refl eq_refl)
    as (s1 & Hrun & _ & Hpool & Hd & Hc & Htimer).
  exists s1. split; [exact Hrun|].
  split; [apply Hpool; rewrite list_elem_of_singleton; discriminate|].
  split; [exact Hd|]. split; [exact Hc|].
  apply Htimer; [reflexivity | discriminate].
Defined.

(** ** The worker returns *)

(** A round that does not return false has taken one identifier out of the
    pool and put none back. *)
Lemma round_shrinks e s re s1 :
  process_entry_round e s = (re, s1) ->
  re <> Return false ->
  exists x, recalc_pool s = x :: recalc_pool s1.
Proof.
  intros Hr Hre. destruct (recalc_pool s) as [|x rest] eqn:Hp.
  - rewrite (round_empty e s Hp) in Hr. congruence.
  - exists x. f_equal.
    destruct (dict_sys s !! x) as [t|] eqn:Hd.
    + destruct (is_accessible t) eqn:Ha.
      * destruct (Z.lt_ge_cases (difftime (time_at e (oracle_pos s)) (stats_last_recalc t))
                    MIN_RECALC_INTERVAL) as [Ht|Ht].
        -- rewrite (round_throttled e s x rest t Hp Hd Ha Ht) in Hr. congruence.
        -- rewrite (round_recalculated e s x rest t Hp Hd Ha Ht) in Hr.
           now inversion Hr.
      * rewrite (round_inaccessible e s x rest t Hp Hd Ha) in Hr. now inversion Hr.
    + rewrite (round_missing e s x rest Hp Hd) in Hr. now inversion Hr.
Qed.

(** A round that returns false found the pool empty, or has put a throttled
    identifier back and asked for a firing after the interval. *)
Lemma round_false e s s1 :
  process_entry_round e s = (Return false, s1) ->
  recalc_pool s1 = [] \/
  (recalc_pool s1 <> [] /\
   exists prefix tid,
     calls s1 = prefix ++ [EvSchedule 10000; EvDictSysLock; EvTableClose tid;
                           EvDictSysUnlock]).
Proof.
  intros Hr. destruct (recalc_pool s) as [|x rest] eqn:Hp.
  - rewrite (round_empty e s Hp) in Hr. inversion Hr. now left.
  - destruct (dict_sys s !! x) as [t|] eqn:Hd.
    + destruct (is_accessible t) eqn:Ha.
      * destruct (Z.lt_ge_cases (difftime (time_at e (oracle_pos s)) (stats_last_recalc t))
                    MIN_RECALC_INTERVAL) as [Ht|Ht].
        -- rewrite (round_throttled e s x rest t Hp Hd Ha Ht) in Hr.
           inversion Hr as [Hs1]. clear Hr Hs1. right. split.
           ++ change (recalc_pool (close_entry x (in_progress t) ?y))
                with (recalc_pool y).
              rewrite schedule_recalc_pool. intros Hnil.
              pose proof (add_elem e (in_progress t) false (after_mark s x rest t)) as Hin.
              rewrite Hnil in Hin. now apply elem_of_nil in Hin.
           ++ exists (calls s ++ [EvDictSysLock; EvTableOpenOnId x; EvDictSysUnlock]), x.
              cbn. rewrite schedule_calls, add_false_calls. cbn.
              now rewrite <- !app_assoc.
        -- rewrite (round_recalculated e s x rest t Hp Hd Ha Ht) in Hr. congruence.
      * rewrite (round_inaccessible e s x rest t Hp Hd Ha) in Hr. congruence.
    + rewrite (round_missing e s x rest Hp Hd) in Hr. congruence.
Qed.

Lemma rounds_total e n : forall s,
  (length (recalc_pool s) < n)%nat ->
  exists r, process_entry_rounds n e s = Some r.
Proof.
  induction n as [|n IH]; intros s Hlen; [lia|]. cbn.
  destruct (process_entry_round e s) as [[ret|] s1] eqn:Hr; [eauto|].
  destruct (round_shrinks e s _ s1 Hr) as [x Hx]; [discriminate|].
  apply IH. rewrite Hx in Hlen. cbn in Hlen. lia.
Qed.

Lemma rounds_true_shrinks e n : forall s s1,
  process_entry_rounds n e s = Some (true, s1) ->
  (length (recalc_pool s1) < length (recalc_pool s))%nat.
Proof.
  induction n as [|n IH]; intros s s1 H; [discriminate|]. cbn in H.
  destruct (process_entry_round e s) as [[ret|] s2] eqn:Hr.
  - inversion H; subst.
    destruct (round_shrinks e s _ s1 Hr) as [x Hx]; [discriminate|].
    rewrite Hx. cbn. lia.
  - destruct (round_shrinks e s _ s2 Hr) as [x Hx]; [discriminate|].
    apply IH in H. rewrite Hx. cbn. lia.
Qed.

Lemma rounds_false e n : forall s s1,
  process_entry_rounds n e s = Some (false, s1) ->
  recalc_pool s1 = [] \/
  (recalc_pool s1 <> [] /\
   exists prefix tid,
     calls s1 = prefix ++ [EvSchedule 10000; EvDictSysLock; EvTableClose tid;
                           EvDictSysUnlock]).
Proof.
  induction n as [|n IH]; intros s s1 H; [discriminate|]. cbn in H.
  destruct (process_entry_round e s) as [[ret|] s2] eqn:Hr.
  - inversion H; subst. eapply round_false, Hr.
  - eapply IH, H.
Qed.

(** [dict_stats_process_entry_from_recalc_pool] always returns. *)
Lemma process_entry_total e s :
  exists b s1, dict_stats_process_entry_from_recalc_pool e s = Some (b, s1).
Proof.
  destruct (rounds_total e (S (length (recalc_pool s))) s) as [[b s1] H]; [lia|].
  now exists b, s1.
Qed.

(** ** Stale entries *)

(** What a round logs begins with the latch and the lookup of the identifier
    at the head of the pool; on the empty pool it logs nothing and returns
    false. *)
Lemma round_calls_head e s re s1 :
  process_entry_round e s = (re, s1) ->
  exists d,
    calls s1 = calls s ++ d /\
    match recalc_pool s with
    | [] => re = Return false /\ d = []
    | next :: _ => exists d', d = EvDictSysLock :: EvTableOpenOnId next :: d'
    end.
Proof.
  intros Hr. destruct (recalc_pool s) as [|x rest] eqn:Hp.
  - rewrite (round_empty e s Hp) in Hr. inversion Hr; subst.
    exists []. cbn. now rewrite app_nil_r.
  - destruct (dict_sys s !! x) as [t|] eqn:Hd.
    + destruct (is_accessible t) eqn:Ha.
      * destruct (Z.lt_ge_cases (difftime (time_at e (oracle_pos s)) (stats_last_recalc t))
                    MIN_RECALC_INTERVAL) as [Ht|Ht].
        -- rewrite (round_throttled e s x rest t Hp Hd Ha Ht) in Hr.
           inversion Hr; subst. eexists. split; [|eexists; reflexivity].
           cbn. rewrite schedule_calls, add_false_calls. cbn.
           now rewrite <- !app_assoc.
        -- rewrite (round_recalculated e s x rest t Hp Hd Ha Ht) in Hr.
           inversion Hr; subst. eexists. split; [|eexists; reflexivity].
           cbn. now rewrite <- !app_assoc.
      * rewrite (round_inaccessible e s x rest t Hp Hd Ha) in Hr.
        inversion Hr; subst. eexists. split; [|eexists; reflexivity].
        cbn. now rewrite <- !app_assoc.
    + rewrite (round_missing e s x rest Hp Hd) in Hr.
      inversion Hr; subst. eexists. split; [|eexists; reflexivity].
      cbn. now rewrite <- !app_assoc.
Qed.

(** The same for a whole run of rounds: later rounds only add to the log. *)
Lemma rounds_calls_head e n : forall s ret s2,
  process_entry_rounds n e s = Some (ret, s2) ->
  exists d,
    calls s2 = calls s ++ d /\
    match recalc_pool s with
    | [] => ret = false /\ d = []
    | next :: _ => exists d', d = EvDictSysLock :: EvTableOpenOnId next :: d'
    end.
Proof.
  induction n as [|n IH]; intros s ret s2 H; [discriminate|]. cbn in H.
  destruct (process_entry_round e s) as [[r|] s1] eqn:Hr.
  - inversion H; subst.
    destruct (round_calls_head e s _ s2 Hr) as (d & Hc & Hd).
    exists d. split; [exact Hc|].
    destruct (recalc_pool s); [|exact Hd].
    destruct Hd as [Hret ->]. split; [congruence | reflexivity].
  - destruct (round_calls_head e s _ s1 Hr) as (d1 & Hc1 & Hd1).
    destruct (IH s1 ret s2 H) as (d2 & Hc2 & _).
    exists (d1 ++ d2). split; [rewrite Hc2, Hc1; now rewrite app_assoc|].
    destruct (recalc_pool s); [destruct Hd1 as [Hd1 _]; discriminate|].
    destruct Hd1 as [d' ->]. now exists (d' ++ d2).
Qed.

(** C7. When the identifier at the head of the pool is not in the catalog, or
    names a table that is not accessible, the round ends with
    [goto next_table_id]: the identifier is gone from the pool and is not
    put back, the only calls made are the catalog latch, the lookup, the
    release of the handle of an inaccessible table and the unlatch (no call
    of the statistics engine, no schedule request, no message), and catalog,
    timer and clock position are as before. The worker then goes on with the
    next entry: [dict_stats_process_entry_from_recalc_pool] returns, with
    the very result it returns from the pool without the stale entry, and
    what it logs after the unlatch begins with the latch and the lookup of
    the identifier that was next in the pool; when none was left it logs
    nothing more and returns false. *)
Theorem worker_discards_stale (e : env) (s : state) (tid : table_id_t)
    (rest : list table_id_t) :
  recalc_pool s = tid :: rest ->
  (dict_sys s !! tid = None \/
   exists t, dict_sys s !! tid = Some t /\ is_accessible t = false) ->
  exists s1 ret s2 d,
    process_entry_round e s = (GotoNextTableId, s1) /\
    calls s1 = calls s ++ [EvDictSysLock; EvTableOpenOnId tid]
                 ++ match dict_sys s !! tid with
                    | None => []
                    | Some _ => [EvTableRelease tid]
                    end
                 ++ [EvDictSysUnlock] /\
    recalc_pool s1 = rest /\
    dict_sys s1 = dict_sys s /\
    dict_stats_timer s1 = dict_stats_timer s /\
    oracle_pos s1 = oracle_pos s /\
    dict_stats_process_entry_from_recalc_pool e s = Some (ret, s2) /\
    dict_stats_process_entry_from_recalc_pool e s1 = Some (ret, s2) /\
    calls s2 = calls s1 ++ d /\
    match rest with
    | [] => ret = false /\ d = []
    | next :: _ => exists d', d = EvDictSysLock :: EvTableOpenOnId next :: d'
    end.
Proof.
  intros Hp Hstale.
  assert (Hround : exists s1,
            process_entry_round e s = (GotoNextTableId, s1) /\
            calls s1 = calls s ++ [EvDictSysLock; EvTableOpenOnId tid]
                         ++ match dict_sys s !! tid with
                            | None => []
                            | Some _ => [EvTableRelease tid]
                            end
                         ++ [EvDictSysUnlock] /\
            recalc_pool s1 = rest /\
            dict_sys s1 = dict_sys s /\
            dict_stats_timer s1 = dict_stats_timer s /\
            oracle_pos s1 = oracle_pos s).
  { destruct Hstale as [Hd | (t & Hd & Ha)].
    - exists (log EvDictSysUnlock (after_open s tid rest)).
      split; [exact (round_missing e s tid rest Hp Hd)|]. rewrite Hd.
      split; [cbn; now rewrite <- !app_assoc|]. auto.
    - exists (log EvDictSysUnlock (log (EvTableRelease tid) (after_open s tid rest))).
      split; [exact (round_inaccessible e s tid rest t Hp Hd Ha)|]. rewrite Hd.
      split; [cbn; now rewrite <- !app_assoc|]. auto. }
  destruct Hround as (s1 & Hr & Hc & Hp1 & Hd1 & Ht1 & Ho1).
  destruct (process_entry_total e s1) as (ret & s2 & Hnext).
  destruct (rounds_calls_head e _ s1 ret s2 Hnext) as (d & Hc2 & Hhead).
  rewrite Hp1 in Hhead.
  exists s1, ret, s2, d.
  do 6 (split; [assumption|]).
  split; [|split; [exact Hnext|split; [exact Hc2 | exact Hhead]]].
  unfold dict_stats_process_entry_from_recalc_pool in *.
  rewrite Hp. rewrite Hp1 in Hnext.
  cbn [length process_entry_rounds]. rewrite Hr. exact Hnext.
Qed.

Lemma worker_discards_stale_witness :
  exists s1 ret s2,
    process_entry_round Sample.e0 (WorkerSample.with_pool [9; 8]) = (GotoNextTableId, s1) /\
    calls s1 = [EvDictSysLock; EvTableOpenOnId 9; EvDictSysUnlock] /\
    recalc_pool s1 = [8] /\
    dict_stats_process_entry_from_recalc_pool Sample.e0 (WorkerSample.with_pool [9; 8])
      = Some (ret, s2) /\
    dict_stats_process_entry_from_recalc_pool Sample.e0 s1 = Some (ret, s2) /\
    exists d', calls s2 = calls s1 ++ EvDictSysLock :: EvTableOpenOnId 8 :: d'.
Proof.
  destruct (worker_discards_stale Sample.e0 (WorkerSample.with_pool [9; 8]) 9 [8]
              eq_refl (or_introl eq_refl))
    as (s1 & ret & s2 & d & Hr & Hc & Hp & _ & _ & _ & Hfrom & Hnext & Hc2 & d' & Hd).
  exists s1, ret, s2. split; [exact Hr|]. split; [exact Hc|]. split; [exact Hp|].
  split; [exact Hfrom|]. split; [exact Hnext|].
  exists d'. now rewrite Hc2, Hd.
Defined.

(** ** The loop of [dict_stats_func] *)

Lemma func_loop_mono e n : forall m s r,
  (n <= m)%nat ->
  dict_stats_func_loop n e s = Some r -> dict_stats_func_loop m e s = Some r.
Proof.
  induction n as [|n IH]; intros m s r Hle H; [discriminate|].
  destruct m as [|m]; [lia|]. cbn [dict_stats_func_loop] in *.
  destruct (dict_stats_process_entry_from_recalc_pool e s) as [[[|] s1]|];
    [|exact H|discriminate].
  apply IH; [lia | exact H].
Qed.

Lemma func_loop_total e n : forall s,
  (length (recalc_pool s) < n)%nat ->
  exists r, dict_stats_func_loop n e s = Some r.
Proof.
  induction n as [|n IH]; intros s Hlen; [lia|]. cbn [dict_stats_func_loop].
  destruct (process_entry_total e s) as (b & s1 & Hb). rewrite Hb.
  destruct b; [|eauto].
  apply IH. apply rounds_true_shrinks in Hb. lia.
Qed.

(** After a pass that returned true the loop goes on as if started there. *)
Lemma func_after_true e s s1 :
  dict_stats_process_entry_from_recalc_pool e s = Some (true, s1) ->
  dict_stats_func e s = dict_stats_func e s1.
Proof.
  intros Hb. unfold dict_stats_func.
  pose proof (rounds_true_shrinks e _ s s1 Hb) as Hlt.
  destruct (func_loop_total e (S (length (recalc_pool s1))) s1) as [r Hr]; [lia|].
  rewrite Hr.
  cbn [dict_stats_func_loop]. rewrite Hb.
  destruct (recalc_pool s) as [|x rest]; [cbn in Hlt; lia|].
  cbn [length]. cbn [length] in Hlt.
  rewrite (func_loop_mono e (S (length (recalc_pool s1))) (S (length rest)) s1 r);
    [reflexivity | lia | exact Hr].
Qed.

Lemma func_after_false e s s1 :
  dict_stats_process_entry_from_recalc_pool e s = Some (false, s1) ->
  dict_stats_func e s = Some (dict_defrag_process_entries_from_defrag_pool s1).
Proof.
  intros Hb. unfold dict_stats_func. cbn [dict_stats_func_loop]. now rewrite Hb.
Qed.

Lemma func_total e s : exists s', dict_stats_func e s = Some s'.
Proof.
  unfold dict_stats_func.
  destruct (func_loop_total e (S (length (recalc_pool s))) s) as [r Hr]; [lia|].
  rewrite Hr. eauto.
Qed.

(** ** When the worker loop stops *)

(** C2, as the document has it, fails: with tables 7 and 8 queued, table 7
    recalculated 5 s ago and table 8 long overdue, the first pass puts 7 back
    behind 8 and returns false; [dict_stats_func] stops there, with a pool of
    two entries and without ever having looked at table 8. *)
Lemma dict_stats_func_stops_with_entries_queued :
  exists s1,
    dict_stats_process_entry_from_recalc_pool Sample.e0 (WorkerSample.with_pool [7; 8])
      = Some (false, s1) /\
    recalc_pool s1 = [8; 7] /\
    dict_stats_func Sample.e0 (WorkerSample.with_pool [7; 8])
      = Some (dict_defrag_process_entries_from_defrag_pool s1) /\
    recalc_pool (dict_defrag_process_entries_from_defrag_pool s1) <> [] /\
    calls (dict_defrag_process_entries_from_defrag_pool s1)
      = [EvDictSysLock; EvTableOpenOnId 7; EvDictSysUnlock; EvSchedule 10000;
         EvDictSysLock; EvTableClose 7; EvDictSysUnlock; EvDefragProcess].
Proof.
  eexists. split; [vm_compute; reflexivity|].
  split; [reflexivity|]. split; [vm_compute; reflexivity|].
  split; [discriminate | reflexivity].
Qed.

(** C2, amended. [dict_stats_func] always returns. It makes another pass
    exactly when the pass before returned true (an entry was recalculated,
    and the pool is then shorter); it stops at the first pass that returns
    false, which is a pass that found the pool empty or one that put a
    throttled entry back and asked for a firing after the interval, so the
    pool may hold entries when the loop stops. *)
Theorem dict_stats_func_repeats_while_true (e : env) (s : state) :
  exists b s1 s',
    dict_stats_process_entry_from_recalc_pool e s = Some (b, s1) /\
    dict_stats_func e s = Some s' /\
    (b = true ->
       dict_stats_func e s = dict_stats_func e s1 /\
       (length (recalc_pool s1) < length (recalc_pool s))%nat) /\
    (b = false ->
       s' = dict_defrag_process_entries_from_defrag_pool s1 /\
       (recalc_pool s1 = [] \/
        (recalc_pool s1 <> [] /\
         exists prefix tid,
           calls s1 = prefix ++ [EvSchedule 10000; EvDictSysLock; EvTableClose tid;
                                 EvDictSysUnlock]))).
Proof.
  destruct (process_entry_total e s) as (b & s1 & Hb).
  destruct (func_total e s) as [s' Hs'].
  exists b, s1, s'. split; [exact Hb|]. split; [exact Hs'|]. split.
  - intros ->. split; [now apply func_after_true|].
    eapply rounds_true_shrinks, Hb.
  - intros ->. split.
    + rewrite (func_after_false e s s1 Hb) in Hs'. congruence.
    + eapply rounds_false, Hb.
Qed.

(** * Further properties of the background statistics code *)

(** ** Reading the call log *)

Lemma new_calls_app s s' d : calls s' = calls s ++ d -> new_calls s s' = d.
Proof. intros H. unfold new_calls. rewrite H. apply drop_app_length. Qed.

Lemma opened_ids_app a b : opened_ids (a ++ b) = opened_ids a ++ opened_ids b.
Proof.
  induction a as [|ev a IH]; [reflexivity|].
  destruct ev; cbn; rewrite ?IH; reflexivity.
Qed.

Lemma schedule_requests_app a b :
  schedule_requests (a ++ b) = schedule_requests a ++ schedule_requests b.
Proof.
  induction a as [|ev a IH]; [reflexivity|].
  destruct ev; cbn; rewrite ?IH; reflexivity.
Qed.

Lemma stats_updates_app a b :
  stats_updates (a ++ b) = stats_updates a ++ stats_updates b.
Proof.
  induction a as [|ev a IH]; [reflexivity|].
  destruct ev; cbn; rewrite ?IH; reflexivity.
Qed.

Lemma latch_run_app a : forall h b h',
  latch_run h a = Some h' -> latch_run h (a ++ b) = latch_run h' b.
Proof.
  induction a as [|ev a IH]; intros h b h' H; cbn in *.
  - now inversion H.
  - destruct ev, h; cbn in *; try discriminate; now apply IH.
Qed.

(** ** Every round is one of the five *)

Lemma round_spec_holds e s :
  round_spec e s (process_entry_round e s).1 (process_entry_round e s).2.
Proof.
  destruct (recalc_pool s) as [|x rest] eqn:Hp.
  - rewrite (round_empty e s Hp). now apply RoundEmpty.
  - destruct (dict_sys s !! x) as [t|] eqn:Hd.
    + destruct (is_accessible t) eqn:Ha.
      * destruct (Z.lt_ge_cases (difftime (time_at e (oracle_pos s)) (stats_last_recalc t))
                    MIN_RECALC_INTERVAL) as [Ht|Ht].
        -- rewrite (round_throttled e s x rest t Hp Hd Ha Ht). now apply RoundThrottled.
        -- rewrite (round_recalculated e s x rest t Hp Hd Ha Ht).
           now apply RoundRecalculated.
      * rewrite (round_inaccessible e s x rest t Hp Hd Ha).
        now apply (RoundInaccessible e s x rest t).
    + rewrite (round_missing e s x rest Hp Hd). now apply RoundMissing.
Qed.

Lemma round_spec_of e s re s1 :
  process_entry_round e s = (re, s1) -> round_spec e s re s1.
Proof. intros H. pose proof (round_spec_holds e s) as R. now rewrite H in R. Qed.

(** ** A firing is a chain of rounds *)

Lemma rounds_run e n : forall s b s1,
  process_entry_rounds n e s = Some (b, s1) ->
  if b then forall s2, worker_run e s1 s2 -> worker_run e s s2
  else worker_run e s s1.
Proof.
  induction n as [|n IH]; intros s b s1 H; [discriminate|]. cbn in H.
  destruct (process_entry_round e s) as [[ret|] s'] eqn:Hr.
  - inversion H; subst. destruct b.
    + intros s2 Hrun. eapply RunStep; [exact Hr | discriminate | exact Hrun].
    + now apply RunStop.
  - specialize (IH _ _ _ H). destruct b.
    + intros s2 Hrun. eapply RunStep; [exact Hr | discriminate | now apply IH].
    + eapply RunStep; [exact Hr | discriminate | exact IH].
Qed.

Lemma func_loop_run e n : forall s s1,
  dict_stats_func_loop n e s = Some s1 -> worker_run e s s1.
Proof.
  induction n as [|n IH]; intros s s1 H; [discriminate|].
  cbn [dict_stats_func_loop] in H.
  destruct (dict_stats_process_entry_from_recalc_pool e s) as [[b s']|] eqn:Hb;
    [|discriminate].
  pose proof (rounds_run e _ _ _ _ Hb) as Hrun. destruct b.
  - apply Hrun, IH, H.
  - now inversion H; subst.
Qed.

(** [dict_stats_func] returns, and what it returns is the end of a chain of
    rounds followed by the defrag pass. *)
Lemma func_worker_run e s :
  exists s1, worker_run e s s1 /\
             dict_stats_func e s = Some (dict_defrag_process_entries_from_defrag_pool s1).
Proof.
  destruct (func_loop_total e (S (length (recalc_pool s))) s) as [s1 H1]; [lia|].
  exists s1. split; [eapply func_loop_run, H1|].
  unfold dict_stats_func. now rewrite H1.
Qed.

(** ** What one round logs *)

Lemma round_calls e s re s1 :
  round_spec e s re s1 ->
  exists d,
    calls s1 = calls s ++ d /\
    opened_ids d = take 1 (recalc_pool s) /\
    latch_run false d = Some false /\
    ((schedule_requests d = [] /\ (re = Return false -> recalc_pool s1 = [])) \/
     (re = Return false /\ schedule_requests d = [10000] /\ recalc_pool s1 <> [])) /\
    (stats_updates d = [] \/ re = Return true).
Proof.
  intros [Hp | tid rest Hp Hd | tid rest t Hp Hd Ha | tid rest t Hp Hd Ha Ht
         | tid rest t Hp Hd Ha Ht]; rewrite Hp.
  - exists []. cbn. rewrite app_nil_r. auto 7.
  - exists [EvDictSysLock; EvTableOpenOnId tid; EvDictSysUnlock].
    split; [cbn; now rewrite <- !app_assoc|]. cbn.
    do 2 (split; [reflexivity|]). split; [left; split; [reflexivity | discriminate] | auto].
  - exists [EvDictSysLock; EvTableOpenOnId tid; EvTableRelease tid; EvDictSysUnlock].
    split; [cbn; now rewrite <- !app_assoc|]. cbn.
    do 2 (split; [reflexivity|]). split; [left; split; [reflexivity | discriminate] | auto].
  - exists [EvDictSysLock; EvTableOpenOnId tid; EvDictSysUnlock; EvSchedule 10000;
            EvDictSysLock; EvTableClose tid; EvDictSysUnlock].
    split.
    { cbn. rewrite schedule_calls, add_false_calls. cbn. now rewrite <- !app_assoc. }
    cbn. do 2 (split; [reflexivity|]). split; [right | auto].
    do 2 (split; [reflexivity|]).
    change (recalc_pool (close_entry tid (in_progress t) ?y)) with (recalc_pool y).
    rewrite schedule_recalc_pool. intros Hnil.
    pose proof (add_elem e (in_progress t) false (after_mark s tid rest t)) as Hin.
    rewrite Hnil in Hin. now apply elem_of_nil in Hin.
  - exists [EvDictSysLock; EvTableOpenOnId tid; EvDictSysUnlock;
            EvStatsUpdate (id t) DICT_STATS_RECALC_PERSISTENT;
            EvDictSysLock; EvTableClose tid; EvDictSysUnlock].
    split; [cbn; now rewrite <- !app_assoc|]. cbn.
    do 2 (split; [reflexivity|]). split; [left; split; [reflexivity | discriminate] | auto].
Qed.

(** ** What a firing logs *)

Lemma worker_run_calls e s s1 :
  worker_run e s s1 ->
  exists d,
    calls s1 = calls s ++ d /\
    (exists k, opened_ids d = take k (recalc_pool s)) /\
    latch_run false d = Some false /\
    ((schedule_requests d = [] /\ recalc_pool s1 = []) \/
     (schedule_requests d = [10000] /\ recalc_pool s1 <> [])).
Proof.
  induction 1 as [s s1 Hr | s re s1 s2 Hr Hre _ IH].
  - destruct (round_calls e s _ s1 (round_spec_of _ _ _ _ Hr))
      as (d & Hc & Ho & Hl & Hs & _).
    exists d. split; [exact Hc|]. split; [now exists 1%nat|]. split; [exact Hl|].
    destruct Hs as [[Hs Hp] | (_ & Hs & Hp)]; auto.
  - destruct (round_calls e s _ s1 (round_spec_of _ _ _ _ Hr))
      as (d1 & Hc1 & Ho1 & Hl1 & Hs1 & _).
    destruct IH as (d2 & Hc2 & [k Ho2] & Hl2 & Hs2).
    destruct (round_shrinks e s re s1 Hr Hre) as [x Hx].
    exists (d1 ++ d2). split; [rewrite Hc2, Hc1; now rewrite app_assoc|].
    split.
    { exists (S k). rewrite opened_ids_app, Ho1, Ho2, Hx. reflexivity. }
    split; [now rewrite (latch_run_app d1 false d2 false Hl1)|].
    rewrite schedule_requests_app.
    destruct Hs1 as [[Hs1 _] | [Hfalse _]]; [|congruence].
    now rewrite Hs1.
Qed.

(** ** What a firing keeps *)

Lemma schedule_timer_none e ms s :
  dict_stats_timer s = None -> dict_stats_timer (dict_stats_schedule e ms s) = None.
Proof.
  intros Ht. unfold dict_stats_schedule; cbn.
  destruct (try_lock_at e (oracle_pos s)); cbn; [|exact Ht].
  now rewrite Ht.
Qed.

Lemma round_state e s re s1 :
  round_spec e s re s1 ->
  (NoDup (recalc_pool s) -> NoDup (recalc_pool s1)) /\
  (forall k, k ∉ recalc_pool s -> dict_sys s1 !! k = dict_sys s !! k) /\
  (dict_stats_timer s = None -> dict_stats_timer s1 = None) /\
  defrag_pool s1 = defrag_pool s /\
  stats_initialised s1 = stats_initialised s.
Proof.
  intros [Hp | tid rest Hp Hd | tid rest t Hp Hd Ha | tid rest t Hp Hd Ha Ht
         | tid rest t Hp Hd Ha Ht]; rewrite Hp.
  - cbn. rewrite Hp. auto.
  - cbn. split; [intros H; now apply NoDup_cons in H|]. auto.
  - cbn. split; [intros H; now apply NoDup_cons in H|]. auto.
  - split; [|split; [|split; [|split]]].
    + intros H. apply NoDup_cons in H as [_ H].
      change (recalc_pool (close_entry tid (in_progress t) ?y)) with (recalc_pool y).
      rewrite schedule_recalc_pool. now apply add_NoDup.
    + intros k Hk. apply not_elem_of_cons in Hk as [Hk _]. cbn.
      rewrite lookup_insert_ne by congruence.
      rewrite schedule_dict_sys, add_dict_sys. cbn.
      now rewrite lookup_insert_ne by congruence.
    + intros Hn.
      change (dict_stats_timer (close_entry tid (in_progress t) ?y))
        with (dict_stats_timer y).
      apply schedule_timer_none. now rewrite add_false_timer.
    + cbn. unfold dict_stats_schedule, dict_stats_recalc_pool_add; cbn.
      destruct (pool_scan _ _); cbn; rewrite ?andb_false_r; cbn;
        destruct (try_lock_at _ _); cbn; try reflexivity;
        destruct (dict_stats_timer s); reflexivity.
    + cbn. unfold dict_stats_schedule, dict_stats_recalc_pool_add; cbn.
      destruct (pool_scan _ _); cbn; rewrite ?andb_false_r; cbn;
        destruct (try_lock_at _ _); cbn; try reflexivity;
        destruct (dict_stats_timer s); reflexivity.
  - cbn. split; [intros H; now apply NoDup_cons in H|].
    split; [|auto].
    intros k Hk. apply not_elem_of_cons in Hk as [Hk _].
    now rewrite !lookup_insert_ne by congruence.
Qed.

Lemma worker_run_state e s s1 :
  worker_run e s s1 ->
  (NoDup (recalc_pool s) -> NoDup (recalc_pool s1)) /\
  (forall k, k ∉ recalc_pool s -> dict_sys s1 !! k = dict_sys s !! k) /\
  (dict_stats_timer s = None -> dict_stats_timer s1 = None) /\
  defrag_pool s1 = defrag_pool s /\
  stats_initialised s1 = stats_initialised s.
Proof.
  induction 1 as [s s1 Hr | s re s1 s2 Hr Hre _ IH].
  - apply (round_state e s (Return false) s1), round_spec_of, Hr.
  - destruct (round_state e s _ s1 (round_spec_of _ _ _ _ Hr))
      as (Hn1 & Hd1 & Ht1 & Hf1 & Hi1).
    destruct IH as (Hn2 & Hd2 & Ht2 & Hf2 & Hi2).
    destruct (round_shrinks e s re s1 Hr Hre) as [x Hx].
    split; [auto|]. split; [|split; [auto|split; congruence]].
    intros k Hk. rewrite Hd2, Hd1; [reflexivity | exact Hk|].
    rewrite Hx in Hk. now apply not_elem_of_cons in Hk as [_ Hk].
Qed.

(** What [dict_stats_func] logs: the calls of the chain of rounds, then the
    call of the defrag pass. *)
Lemma func_calls e s :
  exists s1 d,
    worker_run e s s1 /\
    dict_stats_func e s = Some (dict_defrag_process_entries_from_defrag_pool s1) /\
    calls s1 = calls s ++ d /\
    new_calls s (dict_defrag_process_entries_from_defrag_pool s1) = d ++ [EvDefragProcess].
Proof.
  destruct (func_worker_run e s) as (s1 & Hrun & Hf).
  destruct (worker_run_calls e s s1 Hrun) as (d & Hc & _).
  exists s1, d. repeat split; try assumption.
  apply new_calls_app. cbn. now rewrite Hc, app_assoc.
Qed.

(** ** The worker serves the queue in order *)

(** X1. In one firing, [dict_stats_func] looks tables up in the catalog in
    the order in which their identifiers were queued: the identifiers it
    opens are an initial segment of the pool it started with, so it opens
    nothing that was not queued, and nothing twice unless it was queued
    twice. *)
Theorem worker_opens_pool_prefix (e : env) (s : state) :
  exists s' k,
    dict_stats_func e s = Some s' /\
    opened_ids (new_calls s s') = take k (recalc_pool s).
Proof.
  destruct (func_calls e s) as (s1 & d & Hrun & Hf & Hc & Hn).
  destruct (worker_run_calls e s s1 Hrun) as (d' & Hc' & [k Ho] & _).
  assert (d' = d) by (rewrite Hc in Hc'; now apply app_inv_head in Hc').
  subst d'. eexists _, k. split; [exact Hf|].
  rewrite Hn, opened_ids_app. cbn. now rewrite app_nil_r.
Qed.

(** ** The catalog latch *)

(** X2. In one firing the worker keeps to the latch discipline: it never
    latches the catalog twice, opens, releases and closes tables only under
    the latch, calls the statistics engine only without it, and has given
    the latch back when it returns. *)
Theorem worker_latch_discipline (e : env) (s : state) :
  exists s',
    dict_stats_func e s = Some s' /\
    latch_run false (new_calls s s') = Some false.
Proof.
  destruct (func_calls e s) as (s1 & d & Hrun & Hf & Hc & Hn).
  destruct (worker_run_calls e s s1 Hrun) as (d' & Hc' & _ & Hl & _).
  assert (d' = d) by (rewrite Hc in Hc'; now apply app_inv_head in Hc').
  subst d'. eexists. split; [exact Hf|].
  rewrite Hn. now rewrite (latch_run_app d false _ false Hl).
Qed.

(** ** No entry is left without a firing to come *)

(** X3. A firing asks for at most one later firing, never for an immediate
    one, and it asks exactly when it leaves entries behind: either it made
    no schedule request and the pool is empty when it returns, or it made
    one request, for 10000 ms, and the pool is not empty. *)
Theorem worker_reschedules_what_it_leaves (e : env) (s : state) :
  exists s',
    dict_stats_func e s = Some s' /\
    ((schedule_requests (new_calls s s') = [] /\ recalc_pool s' = []) \/
     (schedule_requests (new_calls s s') = [10000] /\ recalc_pool s' <> [])).
Proof.
  destruct (func_calls e s) as (s1 & d & Hrun & Hf & Hc & Hn).
  destruct (worker_run_calls e s s1 Hrun) as (d' & Hc' & _ & _ & Hs).
  assert (d' = d) by (rewrite Hc in Hc'; now apply app_inv_head in Hc').
  subst d'. eexists. split; [exact Hf|].
  rewrite Hn, schedule_requests_app. cbn. rewrite app_nil_r. exact Hs.
Qed.

(** ** A table removed from the pool is not looked at *)

Lemma pool_erase_first_gone tid p : NoDup p -> tid ∉ pool_erase_first tid p.
Proof.
  induction 1 as [|y p Hy Hp IH]; cbn; [apply not_elem_of_nil|].
  destruct (Z.eqb_spec y tid) as [->|Hne]; [exact Hy|].
  apply not_elem_of_cons. split; [congruence | exact IH].
Qed.

(** X4. Once [dict_stats_recalc_pool_del] has removed a table from a pool
    without repetitions, the next firing of the worker does not look that
    table up in the catalog. *)
Theorem dropped_table_is_not_opened (e : env) (t : dict_table_t) (s : state) :
  NoDup (recalc_pool s) ->
  exists s',
    dict_stats_func e (dict_stats_recalc_pool_del t s) = Some s' /\
    id t ∉ opened_ids (new_calls (dict_stats_recalc_pool_del t s) s').
Proof.
  intros Hnd. set (s0 := dict_stats_recalc_pool_del t s).
  destruct (func_calls e s0) as (s1 & d & Hrun & Hf & Hc & Hn).
  destruct (worker_run_calls e s0 s1 Hrun) as (d' & Hc' & [k Ho] & _).
  assert (d' = d) by (rewrite Hc in Hc'; now apply app_inv_head in Hc').
  subst d'. eexists. split; [exact Hf|].
  rewrite Hn, opened_ids_app. cbn. rewrite app_nil_r, Ho.
  intros Hin. apply elem_of_take in Hin as (i & Hi & _).
  apply list_elem_of_lookup_2 in Hi.
  now apply (pool_erase_first_gone (id t) (recalc_pool s) Hnd).
Qed.

Lemma dropped_table_is_not_opened_witness :
  exists s',
    dict_stats_func Sample.e0
      (dict_stats_recalc_pool_del (Sample.tbl 8 0) (WorkerSample.with_pool [9; 8; 6]))
      = Some s' /\
    8 ∉ opened_ids
          (new_calls
             (dict_stats_recalc_pool_del (Sample.tbl 8 0) (WorkerSample.with_pool [9; 8; 6]))
             s').
Proof.
  apply (dropped_table_is_not_opened Sample.e0 (Sample.tbl 8 0)
           (WorkerSample.with_pool [9; 8; 6])).
  cbn. repeat constructor; rewrite ?elem_of_cons, ?elem_of_nil; intuition lia.
Defined.

(** ** What a firing keeps *)

(** X5. A firing keeps the pool free of repetitions. *)
Theorem worker_keeps_pool_unique (e : env) (s : state) :
  NoDup (recalc_pool s) ->
  exists s', dict_stats_func e s = Some s' /\ NoDup (recalc_pool s').
Proof.
  intros Hnd. destruct (func_worker_run e s) as (s1 & Hrun & Hf).
  eexists. split; [exact Hf|].
  destruct (worker_run_state e s s1 Hrun) as (Hn & _). cbn. auto.
Qed.

Lemma worker_keeps_pool_unique_witness :
  exists s',
    dict_stats_func Sample.e0 (WorkerSample.with_pool [8; 9; 7; 6]) = Some s' /\
    NoDup (recalc_pool s').
Proof.
  apply (worker_keeps_pool_unique Sample.e0 (WorkerSample.with_pool [8; 9; 7; 6])).
  cbn. repeat constructor; rewrite ?elem_of_cons, ?elem_of_nil; intuition lia.
Defined.

(** X6. A firing writes only to tables that were queued: a table whose
    identifier is not in the pool is the same in the catalog afterwards, and
    [stats_initialised] does not change. The recalc passes do not touch the
    defrag pool: at the end [s1] of the chain of rounds, where the firing
    calls the defrag pass, that pool is as the firing found it; what the
    firing returns is what the defrag pass makes of [s1]. *)
Theorem worker_touches_only_queued_tables (e : env) (s : state) :
  exists s1 s',
    worker_run e s s1 /\
    s' = dict_defrag_process_entries_from_defrag_pool s1 /\
    dict_stats_func e s = Some s' /\
    (forall k, k ∉ recalc_pool s -> dict_sys s' !! k = dict_sys s !! k) /\
    stats_initialised s' = stats_initialised s /\
    defrag_pool s1 = defrag_pool s.
Proof.
  destruct (func_worker_run e s) as (s1 & Hrun & Hf).
  exists s1, (dict_defrag_process_entries_from_defrag_pool s1).
  split; [exact Hrun|]. split; [reflexivity|]. split; [exact Hf|].
  destruct (worker_run_state e s s1 Hrun) as (_ & Hd & _ & Hdf & Hi).
  split; [exact Hd|]. split; [exact Hi | exact Hdf].
Qed.

(** ** Without a timer nothing is armed *)

Lemma add_timer_none e t f s :
  dict_stats_timer s = None ->
  dict_stats_timer (dict_stats_recalc_pool_add e t f s) = None.
Proof.
  intros Ht. unfold dict_stats_recalc_pool_add; cbn.
  destruct (pool_scan (id t) (recalc_pool s)); cbn; [exact Ht|].
  destruct (_ && f); [|exact Ht].
  change (dict_stats_timer (mysql_mutex_unlock ?y)) with (dict_stats_timer y).
  unfold dict_stats_schedule_now. now apply schedule_timer_none.
Qed.

(** X7. While there is no timer (before [dict_stats_start], after
    [dict_stats_shutdown]) nothing brings one about: a schedule request, an
    add to the pool, a write to a table and a whole run of the worker all
    leave the handle null. *)
Theorem no_timer_stays_no_timer (e : env) (s : state) :
  dict_stats_timer s = None ->
  (forall ms, dict_stats_timer (dict_stats_schedule e ms s) = None) /\
  (forall t f, dict_stats_timer (dict_stats_recalc_pool_add e t f s) = None) /\
  (forall trx t, dict_stats_timer (dict_stats_update_if_needed_body trx e t s).2 = None) /\
  (exists s', dict_stats_func e s = Some s' /\ dict_stats_timer s' = None).
Proof.
  intros Ht. split; [|split; [|split]].
  - intros ms. now apply schedule_timer_none.
  - intros t f. now apply add_timer_none.
  - intros trx t. unfold dict_stats_update_if_needed_body.
    repeat match goal with
           | |- dict_stats_timer (if ?b then _ else _).2 = None => destruct b; cbn [negb]
           end; cbn [snd dict_stats_update log set_calls dict_stats_timer];
      try exact Ht.
    now apply add_timer_none.
  - destruct (func_worker_run e s) as (s1 & Hrun & Hf).
    eexists. split; [exact Hf|].
    destruct (worker_run_state e s s1 Hrun) as (_ & _ & Hn & _). cbn. auto.
Qed.

Lemma no_timer_stays_no_timer_witness :
  dict_stats_timer
    (dict_stats_schedule Sample.e0 0
       (dict_stats_shutdown (WorkerSample.with_pool [7; 8]))) = None /\
  exists s',
    dict_stats_func Sample.e0 (dict_stats_shutdown (WorkerSample.with_pool [7; 8]))
      = Some s' /\
    dict_stats_timer s' = None.
Proof.
  destruct (no_timer_stays_no_timer Sample.e0
              (dict_stats_shutdown (WorkerSample.with_pool [7; 8])) eq_refl)
    as (Hs & _ & _ & Hf).
  split; [apply Hs | exact Hf].
Defined.

(** ** A pool of stale identifiers *)

Lemma stale_rounds e p : forall s n,
  recalc_pool s = p ->
  (forall tid, tid ∈ p -> stale (dict_sys s) tid) ->
  (length p < n)%nat ->
  exists s1,
    process_entry_rounds n e s = Some (false, s1) /\
    recalc_pool s1 = [] /\
    dict_sys s1 = dict_sys s /\
    dict_stats_timer s1 = dict_stats_timer s /\
    oracle_pos s1 = oracle_pos s /\
    calls s1 = calls s ++ flat_map (stale_calls (dict_sys s)) p.
Proof.
  induction p as [|x p IH]; intros s n Hp Hst Hn.
  - destruct n as [|n]; [cbn in Hn; lia|]. cbn [process_entry_rounds].
    rewrite (round_empty e s Hp). eexists. split; [reflexivity|].
    cbn. rewrite Hp, app_nil_r. auto 6.
  - destruct n as [|n]; [cbn in Hn; lia|]. cbn [process_entry_rounds].
    assert (Hx : stale (dict_sys s) x) by (apply Hst; left).
    assert (Hrest : forall tid, tid ∈ p -> stale (dict_sys s) tid)
      by (intros tid Hin; apply Hst; now right).
    cbn in Hn. unfold stale in Hx.
    destruct (dict_sys s !! x) as [t|] eqn:Hd.
    + rewrite (round_inaccessible e s x p t Hp Hd Hx).
      destruct (IH (log EvDictSysUnlock (log (EvTableRelease x) (after_open s x p))) n)
        as (s1 & Hr & Hp1 & Hd1 & Ht1 & Ho1 & Hc1); [reflexivity | exact Hrest | lia |].
      exists s1. split; [exact Hr|]. do 4 (split; [assumption|]).
      rewrite Hc1. cbn. unfold stale_calls at 2. rewrite Hd. cbn.
      now rewrite <- !app_assoc.
    + rewrite (round_missing e s x p Hp Hd).
      destruct (IH (log EvDictSysUnlock (after_open s x p)) n)
        as (s1 & Hr & Hp1 & Hd1 & Ht1 & Ho1 & Hc1); [reflexivity | exact Hrest | lia |].
      exists s1. split; [exact Hr|]. do 4 (split; [assumption|]).
      rewrite Hc1. cbn. unfold stale_calls at 2. rewrite Hd. cbn.
      now rewrite <- !app_assoc.
Qed.

(** X8. When every queued identifier is stale (its table is gone from the
    catalog or cannot be accessed), one firing empties the pool: each
    identifier costs a latch, a lookup, the release of an inaccessible
    table's handle and an unlatch, in queue order, and nothing else is
    called before the defrag pass: no table is written to, the statistics
    engine is not called, the timer and the clock are not touched. *)
Theorem stale_pool_is_drained (e : env) (s : state) :
  (forall tid, tid ∈ recalc_pool s -> stale (dict_sys s) tid) ->
  exists s',
    dict_stats_func e s = Some s' /\
    recalc_pool s' = [] /\
    dict_sys s' = dict_sys s /\
    dict_stats_timer s' = dict_stats_timer s /\
    oracle_pos s' = oracle_pos s /\
    calls s' = calls s ++ flat_map (stale_calls (dict_sys s)) (recalc_pool s)
                 ++ [EvDefragProcess].
Proof.
  intros Hst.
  destruct (stale_rounds e (recalc_pool s) s (S (length (recalc_pool s))) eq_refl Hst)
    as (s1 & Hr & Hp & Hd & Ht & Ho & Hc); [lia|].
  eexists. split; [apply (func_after_false e s s1 Hr)|].
  cbn. do 4 (split; [assumption|]). now rewrite Hc, app_assoc.
Qed.

Lemma stale_pool_is_drained_witness :
  exists s',
    dict_stats_func Sample.e0 (WorkerSample.with_pool [9; 6]) = Some s' /\
    recalc_pool s' = [] /\
    calls s' = [EvDictSysLock; EvTableOpenOnId 9; EvDictSysUnlock;
                EvDictSysLock; EvTableOpenOnId 6; EvTableRelease 6; EvDictSysUnlock;
                EvDefragProcess].
Proof.
  destruct (stale_pool_is_drained Sample.e0 (WorkerSample.with_pool [9; 6]))
    as (s' & Hf & Hp & _ & _ & _ & Hc).
  - intros tid Hin. cbn in Hin.
    apply elem_of_cons in Hin as [->|Hin]; [exact I|].
    apply list_elem_of_singleton in Hin as ->. reflexivity.
  - exists s'. split; [exact Hf|]. split; [exact Hp|]. exact Hc.
Defined.

(** ** Entries that are due *)

Lemma schedule_oracle_pos e ms s :
  oracle_pos (dict_stats_schedule e ms s) = S (oracle_pos s).
Proof. schedule_cases e s. Qed.

Lemma process_entry_of_return e s b s1 :
  process_entry_round e s = (Return b, s1) ->
  dict_stats_process_entry_from_recalc_pool e s = Some (b, s1).
Proof.
  intros Hr. unfold dict_stats_process_entry_from_recalc_pool.
  cbn [process_entry_rounds]. now rewrite Hr.
Qed.

(** X9. When the head of the pool names an accessible table whose last
    recalculation is at least MIN_RECALC_INTERVAL seconds old, the worker
    returns true: it has called the statistics engine once, in mode
    PERSISTENT, on the table with its activity flag raised, outside the
    catalog latch; the identifier is out of the pool and not put back; the
    table stays in the catalog with the flag cleared; no schedule request is
    made and the timer is as before. *)
Theorem worker_recalculates_due_entry (e : env) (s : state) (tid : table_id_t)
    (rest : list table_id_t) (t : dict_table_t) :
  recalc_pool s = tid :: rest ->
  dict_sys s !! tid = Some t ->
  is_accessible t = true ->
  MIN_RECALC_INTERVAL <= difftime (time_at e (oracle_pos s)) (stats_last_recalc t) ->
  exists s1,
    dict_stats_process_entry_from_recalc_pool e s = Some (true, s1) /\
    recalc_pool s1 = rest /\
    dict_sys s1 !! tid =
      Some (set_stats_bg_flag BG_STAT_NONE
              (dict_stats_update_table e DICT_STATS_RECALC_PERSISTENT
                 (set_stats_bg_flag (Z.lor (stats_bg_flag t) BG_STAT_IN_PROGRESS) t))) /\
    calls s1 = calls s ++ [EvDictSysLock; EvTableOpenOnId tid; EvDictSysUnlock;
                           EvStatsUpdate (id t) DICT_STATS_RECALC_PERSISTENT;
                           EvDictSysLock; EvTableClose tid; EvDictSysUnlock] /\
    dict_stats_timer s1 = dict_stats_timer s.
Proof.
  intros Hp Hd Ha Ht.
  pose proof (round_recalculated e s tid rest t Hp Hd Ha Ht) as Hr.
  eexists. split; [apply (process_entry_of_return e s true _ Hr)|].
  split; [reflexivity|]. split; [cbn; apply lookup_insert_eq|].
  split; [cbn; now rewrite <- !app_assoc | reflexivity].
Qed.

Lemma worker_recalculates_due_entry_witness :
  exists s1,
    dict_stats_process_entry_from_recalc_pool Sample.e0 (WorkerSample.with_pool [8; 7])
      = Some (true, s1) /\
    recalc_pool s1 = [7] /\
    dict_sys s1 !! 8 = Some (Sample.tbl 8 0) /\
    stats_updates (calls s1) = [(8, DICT_STATS_RECALC_PERSISTENT)].
Proof.
  destruct (worker_recalculates_due_entry Sample.e0 (WorkerSample.with_pool [8; 7]) 8 [7]
              (Sample.tbl 8 0) eq_refl eq_refl eq_refl)
    as (s1 & Hrun & Hp & Hd & Hc & _).
  - vm_compute. discriminate.
  - exists s1. split; [exact Hrun|]. split; [exact Hp|]. split; [exact Hd|].
    rewrite Hc. reflexivity.
Defined.

(** X10. A throttled table is served by a later firing. With one table
    queued whose last recalculation is too recent, the first firing leaves
    it queued and asks for a firing after 10000 ms; when by the next firing
    the interval has passed, that firing has the statistics engine
    recalculate the table, once, and leaves the pool empty. *)
Theorem throttled_entry_is_recalculated_later (e : env) (s : state)
    (tid : table_id_t) (t : dict_table_t) :
  recalc_pool s = [tid] ->
  dict_sys s !! tid = Some t ->
  id t = tid ->
  is_accessible t = true ->
  difftime (time_at e (oracle_pos s)) (stats_last_recalc t) < MIN_RECALC_INTERVAL ->
  MIN_RECALC_INTERVAL
    <= difftime (time_at e (S (S (oracle_pos s)))) (stats_last_recalc t) ->
  exists s1 s2,
    dict_stats_func e s = Some s1 /\
    recalc_pool s1 = [tid] /\
    stats_updates (new_calls s s1) = [] /\
    schedule_requests (new_calls s s1) = [10000] /\
    dict_stats_func e s1 = Some s2 /\
    recalc_pool s2 = [] /\
    stats_updates (new_calls s1 s2) = [(tid, DICT_STATS_RECALC_PERSISTENT)] /\
    schedule_requests (new_calls s1 s2) = [].
Proof.
  intros Hp Hd Hid Ha Hsoon Hlate.
  pose proof (round_throttled e s tid [] t Hp Hd Ha Hsoon) as Hr1.
  set (s1 := dict_defrag_process_entries_from_defrag_pool
               (close_entry tid (in_progress t)
                  (dict_stats_schedule e (MIN_RECALC_INTERVAL * 1000)
                     (dict_stats_recalc_pool_add e (in_progress t) false
                        (after_mark s tid [] t))))).
  assert (Hf1 : dict_stats_func e s = Some s1)
    by (apply func_after_false, process_entry_of_return, Hr1).
  assert (Hp1 : recalc_pool s1 = [tid]).
  { subst s1.
    cbn [dict_defrag_process_entries_from_defrag_pool set_defrag_pool log set_calls
         recalc_pool].
    change (recalc_pool (close_entry tid (in_progress t) ?y)) with (recalc_pool y).
    rewrite schedule_recalc_pool, add_fresh_pool; cbn; [now rewrite Hid|].
    apply not_elem_of_nil. }
  assert (Hc1 : calls s1 = calls s ++ [EvDictSysLock; EvTableOpenOnId tid; EvDictSysUnlock;
                                       EvSchedule 10000; EvDictSysLock; EvTableClose tid;
                                       EvDictSysUnlock; EvDefragProcess]).
  { subst s1.
    unfold dict_defrag_process_entries_from_defrag_pool, close_entry, log, store_table.
    cbn [set_defrag_pool calls set_calls set_dict_sys].
    rewrite schedule_calls, add_false_calls. cbn. now rewrite <- !app_assoc. }
  assert (Hd1 : dict_sys s1 !! tid = Some (set_stats_bg_flag BG_STAT_NONE t)).
  { subst s1.
    unfold dict_defrag_process_entries_from_defrag_pool, close_entry, log, store_table.
    cbn [set_defrag_pool dict_sys set_calls set_dict_sys]. apply lookup_insert_eq. }
  assert (Ho1 : oracle_pos s1 = S (S (oracle_pos s))).
  { subst s1.
    unfold dict_defrag_process_entries_from_defrag_pool, close_entry, log, store_table.
    cbn [set_defrag_pool oracle_pos set_calls set_dict_sys].
    now rewrite schedule_oracle_pos, add_false_oracle_pos. }
  assert (Hlate1 : MIN_RECALC_INTERVAL <=
            difftime (time_at e (oracle_pos s1))
                     (stats_last_recalc (set_stats_bg_flag BG_STAT_NONE t)))
    by (now rewrite Ho1).
  pose proof (round_recalculated e s1 tid [] _ Hp1 Hd1 Ha Hlate1) as Hr2.
  match type of Hr2 with _ = (_, ?x) => set (s2 := x) in * end.
  assert (Hr3 : process_entry_round e s2 = (Return false, set_recalc_pool_mutex s2 MutexFree))
    by (apply round_empty; reflexivity).
  assert (Hf2 : dict_stats_func e s1 =
                Some (dict_defrag_process_entries_from_defrag_pool
                        (set_recalc_pool_mutex s2 MutexFree))).
  { rewrite (func_after_true e s1 s2 (process_entry_of_return e s1 true s2 Hr2)).
    apply func_after_false, process_entry_of_return, Hr3. }
  eexists s1, _. split; [exact Hf1|]. split; [exact Hp1|].
  rewrite (new_calls_app s s1 _ Hc1).
  split; [reflexivity|]. split; [reflexivity|].
  split; [exact Hf2|]. split; [reflexivity|].
  erewrite new_calls_app.
  2:{ subst s2. cbn. rewrite <- !app_assoc. reflexivity. }
  cbn. now rewrite Hid.
Qed.

Lemma throttled_entry_is_recalculated_later_witness :
  exists s1 s2,
    dict_stats_func (mk_env 0 (fun n => 1000 + 5 * Z.of_nat n) (fun _ => true) (fun _ t => t))
      (WorkerSample.with_pool [7]) = Some s1 /\
    recalc_pool s1 = [7] /\
    dict_stats_func (mk_env 0 (fun n => 1000 + 5 * Z.of_nat n) (fun _ => true) (fun _ t => t))
      s1 = Some s2 /\
    recalc_pool s2 = [] /\
    stats_updates (new_calls s1 s2) = [(7, DICT_STATS_RECALC_PERSISTENT)].
Proof.
  destruct (throttled_entry_is_recalculated_later
              (mk_env 0 (fun n => 1000 + 5 * Z.of_nat n) (fun _ => true) (fun _ t => t))
              (WorkerSample.with_pool [7]) 7 (Sample.tbl 7 995)
              eq_refl eq_refl eq_refl eq_refl eq_refl)
    as (s1 & s2 & Hf1 & Hp1 & _ & _ & Hf2 & Hp2 & Hu & _).
  - vm_compute. discriminate.
  - exists s1, s2. auto.
Defined.

(** ** Removal from the pool *)

Lemma filter_ne_id (tid : Z) (p : list Z) : tid ∉ p -> filter (fun x => x <> tid) p = p.
Proof.
  induction p as [|y p IH]; intros H; [reflexivity|].
  apply not_elem_of_cons in H as [Hne Hp].
  rewrite filter_cons_True by congruence. now rewrite IH.
Qed.

Lemma pool_erase_first_filter tid p :
  NoDup p -> pool_erase_first tid p = filter (fun x => x <> tid) p.
Proof.
  induction 1 as [|y p Hy Hp IH]; cbn [pool_erase_first]; [reflexivity|].
  destruct (Z.eqb_spec y tid) as [->|Hne].
  - rewrite filter_cons_False by (intros H; now apply H).
    now rewrite filter_ne_id.
  - rewrite filter_cons_True by exact Hne. now rewrite IH.
Qed.

(** X11. On a pool without repetitions [dict_stats_recalc_pool_del] removes
    the table's identifier and nothing else: the pool afterwards is the pool
    before without that identifier, the others in their old order; an
    identifier that is not queued leaves the pool as it was. *)
Theorem recalc_pool_del_removes (t : dict_table_t) (s : state) :
  NoDup (recalc_pool s) ->
  (recalc_pool (dict_stats_recalc_pool_del t s)
     = filter (fun x => x <> id t) (recalc_pool s)) /\
  (id t ∉ recalc_pool (dict_stats_recalc_pool_del t s)) /\
  (id t ∉ recalc_pool s ->
     recalc_pool (dict_stats_recalc_pool_del t s) = recalc_pool s).
Proof.
  intros Hnd. cbn. split; [now apply pool_erase_first_filter|].
  split; [now apply pool_erase_first_gone|].
  intros Hout. rewrite pool_erase_first_filter by exact Hnd. now apply filter_ne_id.
Qed.

Lemma recalc_pool_del_removes_witness :
  recalc_pool (dict_stats_recalc_pool_del (Sample.tbl 8 0) (WorkerSample.with_pool [7; 8; 9]))
    = [7; 9].
Proof.
  destruct (recalc_pool_del_removes (Sample.tbl 8 0) (WorkerSample.with_pool [7; 8; 9]))
    as (H & _).
  - cbn. repeat constructor; rewrite ?elem_of_cons, ?elem_of_nil; intuition lia.
  - rewrite H. reflexivity.
Defined.

Lemma pool_erase_first_app_fresh tid p :
  tid ∉ p -> pool_erase_first tid (p ++ [tid]) = p.
Proof.
  induction p as [|y p IH]; intros H; cbn.
  - now rewrite Z.eqb_refl.
  - apply not_elem_of_cons in H as [Hne Hp].
    destruct (Z.eqb_spec y tid) as [->|_]; [congruence|]. now rewrite IH.
Qed.

(** X12. Queueing a table that was not queued and removing it again gives
    back the pool as it was, whatever the scheduling flag. *)
Theorem recalc_pool_add_del_round_trip (e : env) (t : dict_table_t) (f : bool)
    (s : state) :
  id t ∉ recalc_pool s ->
  recalc_pool (dict_stats_recalc_pool_del t (dict_stats_recalc_pool_add e t f s))
    = recalc_pool s.
Proof.
  intros Hout. unfold dict_stats_recalc_pool_del.
  cbn [recalc_pool mysql_mutex_unlock mysql_mutex_lock set_recalc_pool
       set_recalc_pool_mutex].
  rewrite add_fresh_pool by exact Hout. now apply pool_erase_first_app_fresh.
Qed.

Lemma recalc_pool_add_del_round_trip_witness :
  recalc_pool
    (dict_stats_recalc_pool_del (Sample.tbl 5 0)
       (dict_stats_recalc_pool_add Sample.e0 (Sample.tbl 5 0) true
          (WorkerSample.with_pool [7; 8]))) = [7; 8].
Proof.
  apply (recalc_pool_add_del_round_trip Sample.e0 (Sample.tbl 5 0) true
           (WorkerSample.with_pool [7; 8])).
  cbn. rewrite !elem_of_cons, elem_of_nil. intuition lia.
Defined.

(** ** Taking everything out *)

(** X13. Repeated [dict_stats_recalc_pool_get] hands the queued identifiers
    out in queue order and leaves the rest queued: [n] calls give the first
    [n] identifiers of the pool and leave the others, and as many calls as
    the pool has entries give the whole pool and leave it empty. *)
Theorem recalc_pool_get_all_in_order (n : nat) (s : state) :
  (get_all n s).1 = take n (recalc_pool s) /\
  recalc_pool (get_all n s).2 = drop n (recalc_pool s) /\
  (get_all (length (recalc_pool s)) s).1 = recalc_pool s.
Proof.
  assert (H : forall n s, (get_all n s).1 = take n (recalc_pool s) /\
                          recalc_pool (get_all n s).2 = drop n (recalc_pool s)).
  { clear. induction n as [|n IH]; intros s; [now rewrite drop_0|].
    cbn [get_all]. unfold dict_stats_recalc_pool_get.
    change (recalc_pool (mysql_mutex_lock s)) with (recalc_pool s).
    destruct (recalc_pool s) as [|x p] eqn:Hp; [now cbn; rewrite Hp|].
    specialize (IH (mysql_mutex_unlock (set_recalc_pool (mysql_mutex_lock s) p))).
    destruct (get_all n _) as [l s2]. cbn in *. destruct IH as [-> ->]. auto. }
  destruct (H n s) as [H1 H2]. split; [exact H1|]. split; [exact H2|].
  rewrite (proj1 (H _ _)). apply firstn_all.
Qed.

(** ** The modification tracker and the timer *)

Lemma add_calls_delta e t f s :
  exists d,
    calls (dict_stats_recalc_pool_add e t f s) = calls s ++ d /\
    (d = [] \/ d = [EvSchedule 0]).
Proof.
  unfold dict_stats_recalc_pool_add.
  cbn [recalc_pool mysql_mutex_lock set_recalc_pool_mutex].
  destruct (pool_scan (id t) (recalc_pool s)).
  - exists []. cbn. rewrite app_nil_r. auto.
  - destruct (_ && f).
    + exists [EvSchedule 0]. split; [|auto].
      change (calls (mysql_mutex_unlock ?y)) with (calls y).
      unfold dict_stats_schedule_now. now rewrite schedule_calls.
    + exists []. cbn. rewrite app_nil_r. auto.
Qed.

(** The persistent branch when the table is due: the table is queued and
    its counter reset. *)
Lemma body_persistent_due trx e t s :
  stat_initialized t = true ->
  dict_stats_is_persistent_enabled t = true ->
  is_temporary t = false ->
  stat_n_rows t / 10 < stat_modified_counter t ->
  dict_stats_auto_recalc_is_enabled t = true ->
  match trx with Some x => wsrep_skip x | None => false end = false ->
  dict_stats_update_if_needed_body trx e t s =
    (set_stat_modified_counter 0 t,
     dict_stats_recalc_pool_add e
       (set_stat_modified_counter
          ((stat_modified_counter t + 1) mod ULONGLONG_MODULUS) t) true s).
Proof.
  intros Hi Hp Htmp Hc Ha Hv.
  unfold dict_stats_update_if_needed_body. rewrite Hi. cbn.
  unfold dict_stats_is_persistent_enabled, is_temporary,
    dict_stats_auto_recalc_is_enabled, dict_table_get_n_rows in *. cbn.
  rewrite Hp, Htmp, Ha. apply Z.ltb_lt in Hc. rewrite Hc. cbn. now rewrite Hv.
Qed.

(** X14. The first table that goes over its limit starts the worker at once.
    Take a table with initialised statistics that has persistent statistics,
    is not temporary and has automatic recalculation enabled, a write that
    the replication test of the WITH_WSREP build does not veto, an empty
    pool, an existing timer and [dict_stats_mutex] free. Then a write that
    finds the counter above [row_count/10] queues the table as the only
    entry, makes one schedule request, for 0 ms, which arms the timer for an
    immediate firing, and resets the counter. *)
Theorem first_due_write_fires_now (trx : option trx_t) (e : env)
    (t : dict_table_t) (s : state) :
  stat_initialized t = true ->
  dict_stats_is_persistent_enabled t = true ->
  is_temporary t = false ->
  stat_n_rows t / 10 < stat_modified_counter t ->
  dict_stats_auto_recalc_is_enabled t = true ->
  match trx with Some x => wsrep_skip x | None => false end = false ->
  recalc_pool s = [] ->
  dict_stats_timer s <> None ->
  try_lock_at e (oracle_pos s) = true ->
  let r := dict_stats_update_if_needed_body trx e t s in
  recalc_pool r.2 = [id t] /\
  schedule_requests (new_calls s r.2) = [0] /\
  dict_stats_timer r.2 = Some (mk_timer (Some 0)) /\
  stat_modified_counter r.1 = 0.
Proof.
  intros Hi Hp Htmp Hc Ha Hv Hpool Htimer Hlock r. subst r.
  rewrite (body_persistent_due trx e t s Hi Hp Htmp Hc Ha Hv).
  cbn [fst snd].
  split; [rewrite add_fresh_pool; rewrite Hpool; [reflexivity | apply not_elem_of_nil]|].
  unfold dict_stats_recalc_pool_add.
  cbn [recalc_pool mysql_mutex_lock set_recalc_pool_mutex]. rewrite Hpool.
  cbn [pool_scan app length set_recalc_pool recalc_pool].
  change ((Z.of_nat 1 =? 1) && true) with true. cbv iota.
  split; [|split; [|reflexivity]].
  - rewrite (new_calls_app s _ [EvSchedule 0]); [reflexivity|].
    change (calls (mysql_mutex_unlock ?y)) with (calls y).
    unfold dict_stats_schedule_now. rewrite schedule_calls. reflexivity.
  - change (dict_stats_timer (mysql_mutex_unlock ?y)) with (dict_stats_timer y).
    unfold dict_stats_schedule_now. apply schedule_timer_armed; assumption.
Qed.

Lemma first_due_write_fires_now_witness :
  recalc_pool (dict_stats_update_if_needed_body None Sample.e0
                 (PersistentSample.t100 11) (Sample.started ∅)).2 = [4] /\
  dict_stats_timer (dict_stats_update_if_needed_body None Sample.e0
                      (PersistentSample.t100 11) (Sample.started ∅)).2
    = Some (mk_timer (Some 0)).
Proof.
  destruct (first_due_write_fires_now None Sample.e0 (PersistentSample.t100 11)
              (Sample.started ∅) eq_refl eq_refl eq_refl eq_refl eq_refl eq_refl eq_refl)
    as (Hp & _ & Ht & _).
  - discriminate.
  - reflexivity.
  - split; [exact Hp | exact Ht].
Defined.

(** ** The two modes of the modification tracker *)

(** X15. The two modes do not mix. With persistent statistics a write never
    calls the statistics engine and changes nothing of the table object but
    its counter; with transient statistics a write never touches the pool,
    the timer or the clock and makes no schedule request. *)
Theorem tracker_modes_do_not_mix (trx : option trx_t) (e : env)
    (t : dict_table_t) (s : state) :
  let r := dict_stats_update_if_needed_body trx e t s in
  if dict_stats_is_persistent_enabled t
  then stats_updates (new_calls s r.2) = [] /\
       r.1 = set_stat_modified_counter (stat_modified_counter r.1) t
  else recalc_pool r.2 = recalc_pool s /\
       dict_stats_timer r.2 = dict_stats_timer s /\
       oracle_pos r.2 = oracle_pos s /\
       schedule_requests (new_calls s r.2) = [].
Proof.
  cbv zeta. unfold dict_stats_update_if_needed_body.
  assert (Hnil : forall x : state, new_calls x x = []).
  { intros x. apply new_calls_app. now rewrite app_nil_r. }
  assert (Hsame : set_stat_modified_counter (stat_modified_counter t) t = t)
    by (now destruct t).
  destruct (stat_initialized t); cbn [negb]; cbv iota.
  2:{ cbn [fst snd]. rewrite Hnil.
      destruct (dict_stats_is_persistent_enabled t); auto. }
  unfold dict_stats_is_persistent_enabled, is_temporary,
    dict_stats_auto_recalc_is_enabled, dict_table_get_n_rows. cbn.
  destruct (stat_persistent_on t).
  - destruct (name_is_temporary t); [cbn; rewrite Hnil; auto|].
    destruct (_ && _); [|cbn; rewrite Hnil; auto].
    destruct (match trx with Some _ => _ | None => _ end).
    + cbn. split; [|reflexivity].
      erewrite new_calls_app; [|reflexivity]. reflexivity.
    + cbn [fst snd]. split; [|reflexivity].
      destruct (add_calls_delta e
                  (set_stat_modified_counter
                     ((stat_modified_counter t + 1) mod ULONGLONG_MODULUS) t) true s)
        as (d & Hc & [-> | ->]); rewrite (new_calls_app _ _ _ Hc); reflexivity.
  - destruct (_ <? _); cbn.
    + repeat split; try reflexivity.
      erewrite new_calls_app; [|reflexivity]. reflexivity.
    + rewrite Hnil. auto.
Qed.

(** ** How often a table can be queued *)

(** X16. With persistent statistics, writes only count as long as the
    counter they read is at most [row_count/10]: [k] writes in a row that
    start from a counter [c] with [c + k <= row_count/10 + 1] leave the state
    (pool, timer, call log) exactly as it was and the table with counter
    [c + k]. In particular, after the counter was reset by an enqueue, the
    next [row_count/10 + 1] writes cannot queue the table again. *)
Theorem writes_below_limit_only_count (k : nat) (trx : option trx_t) (e : env)
    (t : dict_table_t) (s : state) :
  stat_initialized t = true ->
  dict_stats_is_persistent_enabled t = true ->
  0 <= stat_n_rows t < ULONGLONG_MODULUS ->
  0 <= stat_modified_counter t ->
  stat_modified_counter t + Z.of_nat k <= stat_n_rows t / 10 + 1 ->
  writes k trx e t s
    = (set_stat_modified_counter (stat_modified_counter t + Z.of_nat k) t, s).
Proof.
  revert t. induction k as [|k IH]; intros t Hi Hp Hn Hc Hk.
  - cbn. rewrite Z.add_0_r. now destruct t.
  - cbn [writes].
    assert (Hdiv : stat_n_rows t / 10 < ULONGLONG_MODULUS - 1).
    { unfold ULONGLONG_MODULUS in *. apply Z.div_lt_upper_bound; lia. }
    assert (Hstep : dict_stats_update_if_needed_body trx e t s =
                    (set_stat_modified_counter (stat_modified_counter t + 1) t, s)).
    { unfold dict_stats_update_if_needed_body. rewrite Hi. cbn.
      unfold dict_stats_is_persistent_enabled, is_temporary, dict_table_get_n_rows in *.
      cbn. rewrite Hp.
      rewrite Z.mod_small by lia.
      destruct (name_is_temporary t); [reflexivity|].
      replace (stat_n_rows t / 10 <? stat_modified_counter t) with false
        by (symmetry; apply Z.ltb_ge; lia).
      reflexivity. }
    rewrite Hstep.
    rewrite IH; cbn; try assumption; try lia.
    f_equal. unfold set_stat_modified_counter. cbn. f_equal. lia.
Qed.

Lemma writes_below_limit_only_count_witness :
  writes 11 None Sample.e0 (PersistentSample.t100 0) (Sample.started ∅)
    = (PersistentSample.t100 11, Sample.started ∅).
Proof.
  apply (writes_below_limit_only_count 11 None Sample.e0 (PersistentSample.t100 0)
           (Sample.started ∅)); try reflexivity.
  all: unfold ULONGLONG_MODULUS; cbn; lia.
Defined.

(** ** The debug switch with tables queued *)

Lemma add_nonempty e t f s :
  recalc_pool s <> [] ->
  dict_stats_timer (dict_stats_recalc_pool_add e t f s) = dict_stats_timer s /\
  recalc_pool (dict_stats_recalc_pool_add e t f s) <> [].
Proof.
  intros Hne. split.
  - unfold dict_stats_recalc_pool_add.
    cbn [recalc_pool mysql_mutex_lock set_recalc_pool_mutex].
    destruct (pool_scan (id t) (recalc_pool s)); [reflexivity|].
    cbn [recalc_pool set_recalc_pool].
    replace (Z.of_nat (length (recalc_pool s ++ [id t])) =? 1) with false; [reflexivity|].
    symmetry. apply Z.eqb_neq. rewrite length_app. cbn.
    destruct (recalc_pool s); [congruence | cbn; lia].
  - rewrite add_recalc_pool. destruct (pool_scan _ _); [exact Hne|].
    destruct (recalc_pool s); [congruence | discriminate].
Qed.

(** X27. Turning the debug switch on and off again
    ([dict_stats_disabled_debug_update] with 1, then with 0) while tables
    are queued keeps the pool but leaves a new timer that is not armed, and
    no add to the pool arms it afterwards: an add asks for a firing only
    when it finds the pool empty. *)
Theorem restart_with_queued_tables_stays_idle (e : env) (s : state)
    (adds : list (dict_table_t * bool)) :
  recalc_pool s <> [] ->
  let s1 := dict_stats_disabled_debug_update false
              (dict_stats_disabled_debug_update true s) in
  recalc_pool s1 = recalc_pool s /\
  dict_stats_timer s1 = Some (mk_timer None) /\
  dict_stats_timer (add_all e adds s1) = Some (mk_timer None).
Proof.
  intros Hne s1.
  assert (Hp : recalc_pool s1 = recalc_pool s).
  { subst s1. unfold dict_stats_disabled_debug_update, dict_stats_shutdown, dict_stats_start.
    cbn. destruct (dict_stats_timer s); reflexivity. }
  assert (Ht : dict_stats_timer s1 = Some (mk_timer None)).
  { subst s1. unfold dict_stats_disabled_debug_update, dict_stats_shutdown, dict_stats_start.
    cbn. reflexivity. }
  split; [exact Hp|]. split; [exact Ht|].
  assert (Hne1 : recalc_pool s1 <> []) by (now rewrite Hp).
  clearbody s1. clear Hp Hne. revert s1 Ht Hne1.
  induction adds as [|a adds IH]; intros s1 Ht Hne1; [exact Ht|].
  cbn [add_all foldl]. destruct (add_nonempty e a.1 a.2 s1 Hne1) as [Ht' Hne'].
  apply IH; [now rewrite Ht' | exact Hne'].
Qed.

Lemma restart_with_queued_tables_stays_idle_witness :
  dict_stats_timer
    (add_all Sample.e0 [(Sample.tbl 5 0, true); (Sample.tbl 6 0, true)]
       (dict_stats_disabled_debug_update false
          (dict_stats_disabled_debug_update true (WorkerSample.with_pool [7]))))
  = Some (mk_timer None).
Proof.
  apply (restart_with_queued_tables_stays_idle Sample.e0 (WorkerSample.with_pool [7])
           [(Sample.tbl 5 0, true); (Sample.tbl 6 0, true)]).
  discriminate.
Defined.

(** * SQL mode dependency warnings (Sql_mode_dependency)

    The two functions of the class that push the warnings, and after them
    the performance schema handler (ha_perfschema.cc), each with its
    definitions first and its properties after. Strings are needed from
    here on. *)

From Stdlib Require Import Ascii.
From stdpp Require Import strings.
Local Open Scope Z_scope.

(** The two bit masks of the class; [sql_mode_t] is a 64-bit unsigned
    integer. *)
Record Sql_mode_dependency := mk_dependency {
  m_hard : Z;
  m_soft : Z
}.

Definition SQL_MODE_BITS : nat := 64.

(** What [push_warning_printf] is given: level, error code, format and the
    string arguments of the format. Only the level and the code used here
    are listed. *)
Inductive warning_level := WARN_LEVEL_WARN.
Inductive error_code := ER_UNKNOWN_ERROR.

Record Sql_condition := mk_condition {
  cond_level : warning_level;
  cond_errno : error_code;
  cond_format : String.string;
  cond_args : list String.string
}.

(** The session's list of conditions, oldest first; [push_warning_printf]
    adds one at the end. *)
Definition push_warning_printf (thd : list Sql_condition) (level : warning_level)
    (code : error_code) (format : String.string) (args : list String.string)
    : list Sql_condition :=
  thd ++ [mk_condition level code format args].

(** The loop both functions are written around,
    [for (uint i= 0; all ; i++, all >>= 1) { if (all & 1) body(i) }],
    bounded by [fuel] rounds; [None] when the bound is used up. *)
Fixpoint dependency_loop (body : nat -> list Sql_condition -> list Sql_condition)
    (fuel : nat) (i : nat) (all : Z) (thd : list Sql_condition)
    : option (list Sql_condition) :=
  match fuel with
  | O => None
  | S fuel' =>
      if all =? 0 then Some thd
      else
        let thd := if negb (Z.land all 1 =? 0) then body i thd else thd in
        dependency_loop body fuel' (S i) (Z.shiftr all 1) thd
  end.

Section SqlModeDependency.
(** [sql_mode_string_representation(i)], the name of mode bit [i], is
    defined with the system variables; the two session-variable bits are
    constants of a header that is not among the sources. *)
Variable sql_mode_string_representation : nat -> String.string.
Variable SESSION_SYS_VAR_TIME_ZONE : Z.
Variable SESSION_SYS_VAR_DIV_PRECISION_INCREMENT : Z.

Definition sql_mode_warning (i : nat) (thd : list Sql_condition) : list Sql_condition :=
  push_warning_printf thd WARN_LEVEL_WARN ER_UNKNOWN_ERROR
    "Expression depends on the @@%s value %s"
    ["sql_mode"%string; sql_mode_string_representation i].

(** A 64-bit mask is zero after 64 shifts, so 65 rounds are enough. *)
Definition push_dependency_warnings (d : Sql_mode_dependency)
    (thd : list Sql_condition) : option (list Sql_condition) :=
  let all := Z.lor (m_hard d) (m_soft d) in
  dependency_loop sql_mode_warning (S SQL_MODE_BITS) 0 all thd.

(** The [switch ((sql_mode_t(1) << i))]. *)
Definition session_sys_var_name (i : nat) : String.string :=
  let name := "Unknown"%string in
  let bit := Z.shiftl 1 (Z.of_nat i) mod ULONGLONG_MODULUS in
  if bit =? SESSION_SYS_VAR_TIME_ZONE then "time_zone"%string
  else if bit =? SESSION_SYS_VAR_DIV_PRECISION_INCREMENT
       then "div_precision_increment"%string
       else name.

Definition session_sys_var_warning (i : nat) (thd : list Sql_condition)
    : list Sql_condition :=
  push_warning_printf thd WARN_LEVEL_WARN ER_UNKNOWN_ERROR
    "Expression depends on the session system variable @@%s"
    [session_sys_var_name i].

Definition push_dependency_warnings_session_sys_var (d : Sql_mode_dependency)
    (thd : list Sql_condition) : option (list Sql_condition) :=
  let all := Z.lor (m_hard d) (m_soft d) in
  dependency_loop session_sys_var_warning (S SQL_MODE_BITS) 0 all thd.
End SqlModeDependency.

(** The positions of the bits set in a mask, lowest first. *)
Definition set_bits (all : Z) : list nat :=
  List.filter (fun j => Z.testbit all (Z.of_nat j)) (seq 0 SQL_MODE_BITS).

(** * The performance schema handler (ha_perfschema.cc) *)

(** ** ha_perfschema::delete_table: taking the path apart *)

(** The terminator of a C string. *)
Definition NUL : ascii := Ascii.zero.

(** The two path separators the loops stop at, backslash and slash. *)
Definition is_path_separator (c : ascii) : bool :=
  Ascii.eqb c "\"%char || Ascii.eqb c "/"%char.

(** The C string that starts at the head of a run of [char]s: what comes
    before the first NUL. *)
Fixpoint c_string (l : list ascii) : list ascii :=
  match l with
  | [] => []
  | c :: l' => if Ascii.eqb c NUL then [] else c :: c_string l'
  end.

(** [strncpy(dst, src, n)] for a destination of [n] chars: the first [n]
    chars of the string, filled up with NUL when the string is shorter. *)
Definition strncpy (src : list ascii) (n : nat) : list ascii :=
  take n src ++ replicate (n - length src) NUL.

(** Both loops of the function (while [ptr >= table_path] and the char at
    [ptr] is no separator, [ptr--]),
    with the pointer kept as [k = ptr - table_path + 1], so that [k = 0]
    stands for the pointer one below the buffer, where the loop stops
    without reading. The result is [k] after the loop. *)
Fixpoint scan_back (table_path : list ascii) (k : nat) : nat :=
  match k with
  | O => O
  | S k' =>
      if is_path_separator (nth k' table_path NUL) then S k'
      else scan_back table_path k'
  end.

(** The path handling of [ha_perfschema::delete_table] for a buffer of
    [FN_REFLEN + 1] chars: the strings [db_name] and [table_name] point to
    when [find_table_share] is called. [None] stands for the store of the
    terminator through [ptr] when [ptr] is below [table_path], a place no
    array holds. *)
Definition delete_table_names (FN_REFLEN : nat) (name : list ascii)
    : option (list ascii * list ascii) :=
  let table_path := strncpy name (FN_REFLEN + 1) in
  let table_path := <[FN_REFLEN := NUL]> table_path in
  (* ptr = strend(table_path) - 1 *)
  let k := length (c_string table_path) in
  let k := scan_back table_path k in
  let table_name := k in
  match k with
  | O => None
  | S p =>
      let table_path := <[p := NUL]> table_path in
      let k := scan_back table_path k in
      let db_name := k in
      Some (c_string (drop db_name table_path), c_string (drop table_name table_path))
  end.

(** ** The table shares *)

(** What this file reads of a [PFS_engine_table_share], and the one field it
    writes, [m_state->m_checked]. [m_delete_all_rows] and [m_open_table] are
    function pointers: here only whether they are set. *)
Record PFS_engine_table_share := mk_share {
  m_perpetual : bool;
  m_optional : bool;
  m_checked : bool;
  m_ref_length : Z;
  m_has_open_table : bool;
  m_has_delete_all_rows : bool
}.

Definition set_m_checked (b : bool) (sh : PFS_engine_table_share)
    : PFS_engine_table_share :=
  mk_share (m_perpetual sh) (m_optional sh) b (m_ref_length sh)
           (m_has_open_table sh) (m_has_delete_all_rows sh).

(** The lookups that are defined elsewhere: whether a schema name is the
    performance schema ([db.streq(PERFORMANCE_SCHEMA_str)]) and which share,
    if any, carries a table name ([PFS_engine_table::find_engine_table_share]);
    a share is named by its key in the registry. *)
Record pfs_lookup := mk_lookup {
  db_is_performance_schema : list ascii -> bool;
  find_engine_table_share : list ascii -> option nat
}.

Definition find_table_share (lk : pfs_lookup) (db name : list ascii) : option nat :=
  if negb (db_is_performance_schema lk db) then None
  else
    let result := find_engine_table_share lk name in
    result.

(** [pfs_discover_table_existence]: [MY_TEST] of the share pointer. *)
Definition pfs_discover_table_existence (lk : pfs_lookup) (db table_name : list ascii)
    : Z :=
  match find_table_share lk db table_name with
  | Some _ => 1
  | None => 0
  end.

(** [ha_perfschema::delete_table]: the value returned and the registry of
    shares afterwards. *)
Definition delete_table (FN_REFLEN : nat) (lk : pfs_lookup) (name : list ascii)
    (shares : gmap nat PFS_engine_table_share)
    : option (Z * gmap nat PFS_engine_table_share) :=
  match delete_table_names FN_REFLEN name with
  | None => None
  | Some (db_name, table_name) =>
      let share := find_table_share lk db_name table_name in
      let shares :=
        match share with
        | Some i =>
            match shares !! i with
            | Some sh =>
                if m_optional sh then <[i := set_m_checked false sh]> shares
                else shares
            | None => shares
            end
        | None => shares
        end in
      Some (0, shares)
  end.

(** Strings without a NUL inside, and strings without a path separator. *)
Definition nul_free (l : list ascii) : Prop := Forall (fun c => c <> NUL) l.
Definition separator_free (l : list ascii) : Prop :=
  Forall (fun c => is_path_separator c = false) l.

(** What [delete_table] does to the share it has found:
    [if (share->m_optional) share->m_state->m_checked = false]. *)
Definition disarm_if_optional (sh : PFS_engine_table_share) : PFS_engine_table_share :=
  if m_optional sh then set_m_checked false sh else sh.

(** ** The handler object and what surrounds it *)

(** Constants of headers that are not among the sources (my_base.h,
    table.h, thr_lock.h): kept as parameters. *)
Record handler_constants := mk_constants {
  HA_ERR_WRONG_COMMAND : Z;
  HA_ERR_END_OF_FILE : Z;
  HA_ERR_OUT_OF_MEM : Z;
  HA_ERR_NO_SUCH_TABLE : Z;
  STATUS_NOT_FOUND : Z;
  HA_STATUS_VARIABLE : Z;
  HA_STATUS_CONST : Z;
  TL_IGNORE : Z;
  TL_UNLOCK : Z
}.

(** The calls into the table implementations ([PFS_engine_table_share] and
    [PFS_engine_table]), with the share or the cursor they go to; a call
    that makes a cursor carries what it returned. *)
Inductive pfs_call :=
  | CallThrLockDataInit (share : nat)
  | CallWriteRow (share : nat)
  | CallUpdateRow (cursor : nat)
  | CallDeleteRow (cursor : nat)
  | CallOpenTable (share : nat) (made : option nat)
  | CallResetPosition (cursor : nat)
  | CallRndInit (cursor : nat) (scan : bool)
  | CallRndNext (cursor : nat)
  | CallReadRow (cursor : nat)
  | CallRndPos (cursor : nat)
  | CallGetPosition (cursor : nat)
  | CallGetRowCount (share : nat)
  | CallDeleteAllRows (share : nat)
  | CallDeleteCursor (cursor : nat).

(** The handler, with the fields of [TABLE], [TABLE_SHARE] and [handler] that
    this file reads or writes. A share is pointed to by its key in the
    registry and a cursor by a number; [None] is the null pointer.
    [pfs_log] is the ghost log of the calls made so far. *)
Record ha_perfschema := mk_handler {
  table_share_db : list ascii;
  table_share_table_name : list ascii;
  m_table_share : option nat;
  m_table : option nat;
  stats_records : Z;
  table_status : Z;
  ref_length : Z;
  m_thr_lock_type : Z;
  m_thr_lock_m_psi : Z;
  m_psi : Z;
  executed_by_slave : bool;
  pfs_log : list pfs_call
}.

(** What the handler finds around it: the two global switches, the registry
    of shares, the lookups, and what the table implementations answer. The
    answer to a call may depend on all the calls made before: [reply l] is
    the [int] returned by the last call of [l], [made_cursor l] the cursor
    (or null) returned by [m_open_table()] when it is called after the
    calls [l]. *)
Record pfs_env := mk_pfs_env {
  pfs_initialized : bool;
  pfs_enabled : bool;
  pfs_shares : gmap nat PFS_engine_table_share;
  pfs_lookups : pfs_lookup;
  reply : list pfs_call -> Z;
  made_cursor : list pfs_call -> option nat
}.

Section HandlerSetters.
Variable h : ha_perfschema.

Definition set_m_table_share (x : option nat) : ha_perfschema :=
  mk_handler (table_share_db h) (table_share_table_name h) x (m_table h)
    (stats_records h) (table_status h) (ref_length h) (m_thr_lock_type h)
    (m_thr_lock_m_psi h) (m_psi h) (executed_by_slave h) (pfs_log h).

Definition set_m_table (x : option nat) : ha_perfschema :=
  mk_handler (table_share_db h) (table_share_table_name h) (m_table_share h) x
    (stats_records h) (table_status h) (ref_length h) (m_thr_lock_type h)
    (m_thr_lock_m_psi h) (m_psi h) (executed_by_slave h) (pfs_log h).

Definition set_stats_records (x : Z) : ha_perfschema :=
  mk_handler (table_share_db h) (table_share_table_name h) (m_table_share h)
    (m_table h) x (table_status h) (ref_length h) (m_thr_lock_type h)
    (m_thr_lock_m_psi h) (m_psi h) (executed_by_slave h) (pfs_log h).

Definition set_table_status (x : Z) : ha_perfschema :=
  mk_handler (table_share_db h) (table_share_table_name h) (m_table_share h)
    (m_table h) (stats_records h) x (ref_length h) (m_thr_lock_type h)
    (m_thr_lock_m_psi h) (m_psi h) (executed_by_slave h) (pfs_log h).

Definition set_ref_length (x : Z) : ha_perfschema :=
  mk_handler (table_share_db h) (table_share_table_name h) (m_table_share h)
    (m_table h) (stats_records h) (table_status h) x (m_thr_lock_type h)
    (m_thr_lock_m_psi h) (m_psi h) (executed_by_slave h) (pfs_log h).

Definition set_m_thr_lock_type (x : Z) : ha_perfschema :=
  mk_handler (table_share_db h) (table_share_table_name h) (m_table_share h)
    (m_table h) (stats_records h) (table_status h) (ref_length h) x
    (m_thr_lock_m_psi h) (m_psi h) (executed_by_slave h) (pfs_log h).

Definition set_m_thr_lock_m_psi (x : Z) : ha_perfschema :=
  mk_handler (table_share_db h) (table_share_table_name h) (m_table_share h)
    (m_table h) (stats_records h) (table_status h) (ref_length h)
    (m_thr_lock_type h) x (m_psi h) (executed_by_slave h) (pfs_log h).

Definition set_pfs_log (x : list pfs_call) : ha_perfschema :=
  mk_handler (table_share_db h) (table_share_table_name h) (m_table_share h)
    (m_table h) (stats_records h) (table_status h) (ref_length h)
    (m_thr_lock_type h) (m_thr_lock_m_psi h) (m_psi h) (executed_by_slave h) x.
End HandlerSetters.

(** The constructor: [m_table_share(NULL), m_table(NULL)], for the table
    named by [db] and [table_name], run by a replication slave thread or
    not. Fields the constructor leaves to the base class start at zero. *)
Definition new_ha_perfschema (db table_name : list ascii) (slave : bool)
    : ha_perfschema :=
  mk_handler db table_name None None 0 0 0 0 0 0 slave [].

(** One call that returns an [int]: it is logged and answered. *)
Definition call_int (env : pfs_env) (c : pfs_call) (h : ha_perfschema)
    : Z * ha_perfschema :=
  let l := pfs_log h ++ [c] in (reply env l, set_pfs_log h l).

(** One call whose result is not looked at. *)
Definition call_void (c : pfs_call) (h : ha_perfschema) : ha_perfschema :=
  set_pfs_log h (pfs_log h ++ [c]).

(** [delete m_table]: nothing for the null pointer. *)
Definition delete_m_table (h : ha_perfschema) : ha_perfschema :=
  match m_table h with
  | Some c => call_void (CallDeleteCursor c) h
  | None => h
  end.

(** The share behind [m_table_share], when the pointer is not null and
    points into the registry. *)
Definition the_share (env : pfs_env) (h : ha_perfschema)
    : option (nat * PFS_engine_table_share) :=
  match m_table_share h with
  | Some i => match pfs_shares env !! i with
              | Some sh => Some (i, sh)
              | None => None
              end
  | None => None
  end.

(** #define PFS_ENABLED()
    (pfs_initialized && (pfs_enabled || m_table_share->m_perpetual)).
    [None]: [m_table_share] is dereferenced and does not point to a share. *)
Definition PFS_ENABLED (env : pfs_env) (h : ha_perfschema) : option bool :=
  if negb (pfs_initialized env) then Some false
  else if pfs_enabled env then Some true
  else match the_share env h with
       | Some (_, sh) => Some (m_perpetual sh)
       | None => None
       end.

(** ** The handler's methods *)

(** The methods return [None] where the source leaves the outcome open: a
    null [m_table_share] or [m_table] is dereferenced, or an [assert]
    fails. Otherwise they return the [int] result and the handler
    afterwards. *)

(** [ha_perfschema::open]; of [thr_lock_data_init], which is defined with
    the lock manager, only the call is recorded. *)
Definition ha_open (k : handler_constants) (env : pfs_env) (h : ha_perfschema)
    : option (Z * ha_perfschema) :=
  let found := find_table_share (pfs_lookups env) (table_share_db h)
                 (table_share_table_name h) in
  let h := set_m_table_share h found in
  match found with
  | None => Some (HA_ERR_NO_SUCH_TABLE k, h)
  | Some i =>
      match pfs_shares env !! i with
      | None => None
      | Some sh =>
          let h := call_void (CallThrLockDataInit i) h in
          let h := set_ref_length h (m_ref_length sh) in
          Some (0, h)
      end
  end.

Definition ha_close (h : ha_perfschema) : option (Z * ha_perfschema) :=
  let h := set_m_table_share h None in
  let h := delete_m_table h in
  let h := set_m_table h None in
  Some (0, h).

Definition write_row (k : handler_constants) (env : pfs_env) (h : ha_perfschema)
    : option (Z * ha_perfschema) :=
  match PFS_ENABLED env h with
  | None => None
  | Some false => Some (HA_ERR_WRONG_COMMAND k, h)
  | Some true =>
      match the_share env h with
      | None => None
      | Some (i, _) => Some (call_int env (CallWriteRow i) h)
      end
  end.

Definition update_row (k : handler_constants) (env : pfs_env) (h : ha_perfschema)
    : option (Z * ha_perfschema) :=
  match PFS_ENABLED env h with
  | None => None
  | Some false => Some (HA_ERR_WRONG_COMMAND k, h)
  | Some true =>
      if executed_by_slave h then Some (0, h)
      else match m_table h with
           | None => None
           | Some c => Some (call_int env (CallUpdateRow c) h)
           end
  end.

Definition delete_row (k : handler_constants) (env : pfs_env) (h : ha_perfschema)
    : option (Z * ha_perfschema) :=
  match PFS_ENABLED env h with
  | None => None
  | Some false => Some (HA_ERR_WRONG_COMMAND k, h)
  | Some true =>
      match m_table h with
      | None => None
      | Some c => Some (call_int env (CallDeleteRow c) h)
      end
  end.

Definition rnd_init (k : handler_constants) (env : pfs_env) (scan : bool)
    (h : ha_perfschema) : option (Z * ha_perfschema) :=
  match the_share env h with
  | None => None
  | Some (i, sh) =>
      if negb (m_has_open_table sh) then None
      else
        let h := set_stats_records h 0 in
        let h := match m_table h with
                 | None =>
                     let made := made_cursor env (pfs_log h) in
                     set_m_table (call_void (CallOpenTable i made) h) made
                 | Some c => call_void (CallResetPosition c) h
                 end in
        let h := match m_table h with
                 | Some c => call_void (CallRndInit c scan) h
                 | None => h
                 end in
        let result := match m_table h with
                      | Some _ => 0
                      | None => HA_ERR_OUT_OF_MEM k
                      end in
        Some (result, h)
  end.

Definition rnd_end (h : ha_perfschema) : option (Z * ha_perfschema) :=
  match m_table h with
  | None => None
  | Some _ =>
      let h := delete_m_table h in
      let h := set_m_table h None in
      Some (0, h)
  end.

Definition rnd_next (k : handler_constants) (env : pfs_env) (h : ha_perfschema)
    : option (Z * ha_perfschema) :=
  match PFS_ENABLED env h with
  | None => None
  | Some false =>
      let h := set_table_status h (STATUS_NOT_FOUND k) in
      Some (HA_ERR_END_OF_FILE k, h)
  | Some true =>
      match m_table h with
      | None => None
      | Some c =>
          let '(result, h) := call_int env (CallRndNext c) h in
          let '(result, h) :=
            if result =? 0 then
              let '(result, h) := call_int env (CallReadRow c) h in
              if result =? 0
              then (result,
                    set_stats_records h ((stats_records h + 1) mod ULONGLONG_MODULUS))
              else (result, h)
            else (result, h) in
          let h := set_table_status h
                     (if negb (result =? 0) then STATUS_NOT_FOUND k else 0) in
          Some (result, h)
      end
  end.

Definition position (h : ha_perfschema) : option ha_perfschema :=
  match m_table h with
  | None => None
  | Some c => Some (call_void (CallGetPosition c) h)
  end.

Definition rnd_pos (k : handler_constants) (env : pfs_env) (h : ha_perfschema)
    : option (Z * ha_perfschema) :=
  match PFS_ENABLED env h with
  | None => None
  | Some false =>
      let h := set_table_status h (STATUS_NOT_FOUND k) in
      Some (HA_ERR_END_OF_FILE k, h)
  | Some true =>
      match m_table h with
      | None => None
      | Some c =>
          let '(result, h) := call_int env (CallRndPos c) h in
          let '(result, h) :=
            if result =? 0 then call_int env (CallReadRow c) h else (result, h) in
          let h := set_table_status h
                     (if negb (result =? 0) then STATUS_NOT_FOUND k else 0) in
          Some (result, h)
      end
  end.

Definition info (k : handler_constants) (env : pfs_env) (flag : Z)
    (h : ha_perfschema) : option (Z * ha_perfschema) :=
  match the_share env h with
  | None => None
  | Some (i, sh) =>
      let h := if negb (Z.land flag (HA_STATUS_VARIABLE k) =? 0)
               then let '(rows, h) := call_int env (CallGetRowCount i) h in
                    set_stats_records h rows
               else h in
      let h := if negb (Z.land flag (HA_STATUS_CONST k) =? 0)
               then set_ref_length h (m_ref_length sh)
               else h in
      Some (0, h)
  end.

Definition delete_all_rows (k : handler_constants) (env : pfs_env)
    (h : ha_perfschema) : option (Z * ha_perfschema) :=
  match PFS_ENABLED env h with
  | None => None
  | Some false => Some (0, h)
  | Some true =>
      if executed_by_slave h then Some (0, h)
      else match the_share env h with
           | None => None
           | Some (i, sh) =>
               if m_has_delete_all_rows sh
               then Some (call_int env (CallDeleteAllRows i) h)
               else Some (HA_ERR_WRONG_COMMAND k, h)
           end
  end.

Definition truncate (k : handler_constants) (env : pfs_env) (h : ha_perfschema)
    : option (Z * ha_perfschema) :=
  delete_all_rows k env h.

(** [store_lock]: the handler afterwards; the one slot of [to] that is
    written, and the pointer returned, are not modelled. *)
Definition store_lock (k : handler_constants) (lock_type : Z) (h : ha_perfschema)
    : ha_perfschema :=
  let h := if negb (lock_type =? TL_IGNORE k) && (m_thr_lock_type h =? TL_UNLOCK k)
           then set_m_thr_lock_type h lock_type
           else h in
  set_m_thr_lock_m_psi h (m_psi h).

Definition rename_table (k : handler_constants) : Z := HA_ERR_WRONG_COMMAND k.
Definition create (k : handler_constants) : Z := HA_ERR_WRONG_COMMAND k.

(** ** Sequences of calls on one handler *)

Inductive handler_op :=
  | OpOpen | OpClose
  | OpWriteRow | OpUpdateRow | OpDeleteRow
  | OpRndInit (scan : bool) | OpRndEnd | OpRndNext | OpPosition | OpRndPos
  | OpInfo (flag : Z)
  | OpDeleteAllRows | OpTruncate
  | OpStoreLock (lock_type : Z).

Definition run_op (k : handler_constants) (env : pfs_env) (op : handler_op)
    (h : ha_perfschema) : option (Z * ha_perfschema) :=
  match op with
  | OpOpen => ha_open k env h
  | OpClose => ha_close h
  | OpWriteRow => write_row k env h
  | OpUpdateRow => update_row k env h
  | OpDeleteRow => delete_row k env h
  | OpRndInit scan => rnd_init k env scan h
  | OpRndEnd => rnd_end h
  | OpRndNext => rnd_next k env h
  | OpPosition => option_map (fun h' => (0, h')) (position h)
  | OpRndPos => rnd_pos k env h
  | OpInfo flag => info k env flag h
  | OpDeleteAllRows => delete_all_rows k env h
  | OpTruncate => truncate k env h
  | OpStoreLock lock_type => Some (0, store_lock k lock_type h)
  end.

(** The results of the calls, first call first, and the handler at the end;
    [None] as soon as one call has no defined outcome. *)
Fixpoint run_ops (k : handler_constants) (env : pfs_env) (ops : list handler_op)
    (h : ha_perfschema) : option (list Z * ha_perfschema) :=
  match ops with
  | [] => Some ([], h)
  | op :: ops' =>
      match run_op k env op h with
      | None => None
      | Some (r, h1) =>
          match run_ops k env ops' h1 with
          | None => None
          | Some (rs, h2) => Some (r :: rs, h2)
          end
      end
  end.

(** The discipline of cursors, read off a call log: starting with the
    cursor [live] (or none), the log is followed call by call; the result is
    the cursor alive at the end, or [None] when a call breaks the
    discipline: a cursor is made while one is alive, a cursor that is not
    the live one is used or deleted. *)
Fixpoint cursor_run (live : option nat) (l : list pfs_call) : option (option nat) :=
  match l with
  | [] => Some live
  | CallOpenTable _ made :: l' =>
      match live with
      | Some _ => None
      | None => cursor_run made l'
      end
  | CallDeleteCursor c :: l' =>
      if decide (live = Some c) then cursor_run None l' else None
  | CallUpdateRow c :: l' | CallDeleteRow c :: l' | CallResetPosition c :: l'
  | CallRndInit c _ :: l' | CallRndNext c :: l' | CallReadRow c :: l'
  | CallRndPos c :: l' | CallGetPosition c :: l' =>
      if decide (live = Some c) then cursor_run live l' else None
  | _ :: l' => cursor_run live l'
  end.

(** How many of the results are zero. *)
Definition count_zero (rs : list Z) : nat := length (List.filter (fun r => r =? 0) rs).

(** ** Sample inputs for the handler *)

Module HandlerSample.
Definition k0 : handler_constants := mk_constants 131 137 128 155 2 16 8 (-1) 0.
Definition setup_actors : PFS_engine_table_share := mk_share false false true 4 true true.
Definition threads : PFS_engine_table_share := mk_share true false true 8 true false.
(** Every schema name counts as the performance schema; a table name of
    length 1 is share 1, of length 2 share 2, any other is unknown. *)
Definition lookups : pfs_lookup :=
  mk_lookup (fun _ => true)
            (fun name => match length name with
                         | 1%nat => Some 1%nat
                         | 2%nat => Some 2%nat
                         | _ => None
                         end).
(** The table implementation answers 0 to everything until four calls have
    been made and 137 afterwards; every [m_open_table()] makes cursor 7. *)
Definition env_on : pfs_env :=
  mk_pfs_env true true (<[1%nat := setup_actors]> (<[2%nat := threads]> ∅)) lookups
             (fun l => if (length l <=? 4)%nat then 0 else 137)
             (fun _ => Some 7%nat).
Definition env_off : pfs_env :=
  mk_pfs_env true false (<[1%nat := setup_actors]> (<[2%nat := threads]> ∅)) lookups
             (fun _ => 0) (fun _ => Some 7%nat).
Definition opened_handler : ha_perfschema :=
  mk_handler [] ["a"%char] (Some 1%nat) None 0 0 4 0 0 0 false [].
End HandlerSample.

(** * Properties of the SQL mode dependency warnings *)

Lemma land_1_testbit (a : Z) : negb (Z.land a 1 =? 0) = Z.testbit a 0.
Proof.
  change 1 with (Z.ones 1). rewrite Z.land_ones by lia.
  rewrite Z.bit0_eqb. change (2 ^ 1) with 2.
  pose proof (Z.mod_pos_bound a 2 ltac:(lia)) as Hb.
  destruct (Z.eqb_spec (a mod 2) 0), (Z.eqb_spec (a mod 2) 1); cbn; try reflexivity; lia.
Qed.

Lemma filter_testbit_0 (l : list nat) :
  List.filter (fun j => Z.testbit 0 (Z.of_nat j)) l = [].
Proof.
  induction l as [|j l IH]; [reflexivity|].
  cbn [List.filter]. now rewrite Z.bits_0.
Qed.

Lemma filter_seq_shift (f : nat -> bool) (n : nat) :
  List.filter f (seq 1 n) = map S (List.filter (fun j => f (S j)) (seq 0 n)).
Proof.
  rewrite <- seq_shift. induction (seq 0 n) as [|j l IH]; [reflexivity|].
  cbn [map List.filter]. destruct (f (S j)); cbn [map]; now rewrite IH.
Qed.

Lemma dependency_loop_S body fuel i all thd :
  dependency_loop body (S fuel) i all thd =
    if all =? 0 then Some thd
    else dependency_loop body fuel (S i) (Z.shiftr all 1)
           (if negb (Z.land all 1 =? 0) then body i thd else thd).
Proof. reflexivity. Qed.

(** The loop visits the set bits of [all] from the lowest up and returns:
    with [all] below [2^n], [n + 1] rounds are enough. *)
Lemma dependency_loop_spec body (n : nat) : forall i all thd,
  0 <= all < 2 ^ Z.of_nat n ->
  dependency_loop body (S n) i all thd =
    Some (fold_left (fun acc j => body (i + j)%nat acc)
            (List.filter (fun j => Z.testbit all (Z.of_nat j)) (seq 0 n)) thd).
Proof.
  induction n as [|n IH]; intros i all thd Hall.
  - assert (all = 0) by (cbn in Hall; lia). subst all. reflexivity.
  - rewrite dependency_loop_S.
    destruct (Z.eqb_spec all 0) as [->|Hne].
    { now rewrite filter_testbit_0. }
    rewrite land_1_testbit.
    assert (Hshift : 0 <= Z.shiftr all 1 < 2 ^ Z.of_nat n).
    { rewrite Z.shiftr_div_pow2 by lia. change (2 ^ 1) with 2.
      rewrite Nat2Z.inj_succ, Z.pow_succ_r in Hall by lia.
      split; [apply Z.div_pos; lia | apply Z.div_lt_upper_bound; lia]. }
    rewrite IH by exact Hshift.
    f_equal. cbn [seq List.filter]. change (Z.of_nat 0) with 0.
    rewrite filter_seq_shift.
    assert (Hbits : forall j, Z.testbit all (Z.of_nat (S j))
                              = Z.testbit (Z.shiftr all 1) (Z.of_nat j)).
    { intros j. rewrite Z.shiftr_spec by lia. f_equal. lia. }
    rewrite (List.filter_ext _ _ Hbits).
    assert (Hfold : forall l acc,
              fold_left (fun a j => body (i + j)%nat a) (map S l) acc
              = fold_left (fun a j => body (S i + j)%nat a) l acc).
    { induction l as [|j l IHl]; intros acc; [reflexivity|].
      cbn [map fold_left]. rewrite IHl. f_equal. f_equal. lia. }
    destruct (Z.testbit all 0); cbn [fold_left]; rewrite Hfold;
      [now rewrite Nat.add_0_r | reflexivity].
Qed.

Lemma fold_push (body : nat -> list Sql_condition -> list Sql_condition)
    (w : nat -> Sql_condition) (l : list nat) :
  (forall i thd, body i thd = thd ++ [w i]) ->
  forall thd,
    fold_left (fun acc j => body (0 + j)%nat acc) l thd = thd ++ map w l.
Proof.
  intros Hbody. induction l as [|j l IH]; intros thd; cbn [fold_left map].
  - now rewrite app_nil_r.
  - rewrite IH, Hbody. now rewrite <- app_assoc.
Qed.

Lemma lor_range (a b : Z) :
  0 <= a < ULONGLONG_MODULUS -> 0 <= b < ULONGLONG_MODULUS ->
  0 <= Z.lor a b < 2 ^ Z.of_nat SQL_MODE_BITS.
Proof.
  unfold ULONGLONG_MODULUS, SQL_MODE_BITS. intros Ha Hb.
  change (Z.of_nat 64) with 64. split; [apply Z.lor_nonneg; lia|].
  destruct (Z.eq_dec (Z.lor a b) 0) as [->|Hne]; [lia|].
  apply Z.log2_lt_pow2; [pose proof (proj2 (Z.lor_nonneg a b)); lia|].
  rewrite Z.log2_lor by lia.
  destruct (Z.eq_dec a 0) as [->|Ha0], (Z.eq_dec b 0) as [->|Hb0]; cbn [Z.log2];
    try lia.
  - rewrite Z.max_r by (apply Z.log2_nonneg). apply Z.log2_lt_pow2; lia.
  - rewrite Z.max_l by (apply Z.log2_nonneg). apply Z.log2_lt_pow2; lia.
  - apply Z.max_lub_lt; apply Z.log2_lt_pow2; lia.
Qed.

Lemma set_bits_lor (a b : Z) (j : nat) :
  j ∈ set_bits (Z.lor a b) <->
  (j < SQL_MODE_BITS)%nat /\
  (Z.testbit a (Z.of_nat j) = true \/ Z.testbit b (Z.of_nat j) = true).
Proof.
  unfold set_bits. rewrite list_elem_of_In, List.filter_In, List.in_seq, Z.lor_spec.
  rewrite orb_true_iff. intuition lia.
Qed.

(** X17. [push_dependency_warnings] returns, having added to the session's
    conditions one warning for every mode bit that is set in the hard or in
    the soft mask, from the lowest bit up, each naming "sql_mode" and the
    string representation of that bit; a bit set in both masks is reported
    once, a clear bit not at all, and the conditions already there stay in
    front. *)
Theorem push_dependency_warnings_per_bit (repr : nat -> string)
    (d : Sql_mode_dependency) (thd : list Sql_condition) :
  0 <= m_hard d < ULONGLONG_MODULUS ->
  0 <= m_soft d < ULONGLONG_MODULUS ->
  push_dependency_warnings repr d thd =
    Some (thd ++ map (fun i => mk_condition WARN_LEVEL_WARN ER_UNKNOWN_ERROR
                                 "Expression depends on the @@%s value %s"
                                 ["sql_mode"%string; repr i])
                     (set_bits (Z.lor (m_hard d) (m_soft d)))) /\
  (forall j, j ∈ set_bits (Z.lor (m_hard d) (m_soft d)) <->
             (j < SQL_MODE_BITS)%nat /\
             (Z.testbit (m_hard d) (Z.of_nat j) = true \/
              Z.testbit (m_soft d) (Z.of_nat j) = true)).
Proof.
  intros Hh Hs. split; [|intros j; apply set_bits_lor].
  unfold push_dependency_warnings.
  rewrite dependency_loop_spec by (apply lor_range; assumption).
  f_equal. unfold set_bits.
  apply (fold_push _ (fun i => mk_condition WARN_LEVEL_WARN ER_UNKNOWN_ERROR
                                 "Expression depends on the @@%s value %s"
                                 ["sql_mode"%string; repr i])).
  reflexivity.
Qed.

Lemma push_dependency_warnings_per_bit_witness :
  push_dependency_warnings (fun i => String.string_of_list_ascii
                                       (repeat "x"%char (S i)))
    (mk_dependency 5 4) []
  = Some [mk_condition WARN_LEVEL_WARN ER_UNKNOWN_ERROR
            "Expression depends on the @@%s value %s" ["sql_mode"%string; "x"%string];
          mk_condition WARN_LEVEL_WARN ER_UNKNOWN_ERROR
            "Expression depends on the @@%s value %s" ["sql_mode"%string; "xxx"%string]].
Proof.
  destruct (push_dependency_warnings_per_bit
              (fun i => String.string_of_list_ascii (repeat "x"%char (S i)))
              (mk_dependency 5 4) []) as [H _].
  - unfold ULONGLONG_MODULUS; cbn; lia.
  - unfold ULONGLONG_MODULUS; cbn; lia.
  - rewrite H. reflexivity.
Defined.

Lemma shiftl_1_small (j : nat) :
  (j < SQL_MODE_BITS)%nat ->
  Z.shiftl 1 (Z.of_nat j) mod ULONGLONG_MODULUS = 2 ^ Z.of_nat j.
Proof.
  unfold SQL_MODE_BITS, ULONGLONG_MODULUS. intros Hj.
  rewrite Z.shiftl_1_l. apply Z.mod_small.
  split; [apply Z.pow_nonneg; lia | apply Z.pow_lt_mono_r; lia].
Qed.

(** X18. [push_dependency_warnings_session_sys_var] returns, having added one
    warning for every bit set in the hard or in the soft mask, from the
    lowest bit up; the warning for bit [i] names "time_zone" when [2^i] is
    SESSION_SYS_VAR_TIME_ZONE, "div_precision_increment" when it is
    SESSION_SYS_VAR_DIV_PRECISION_INCREMENT, and "Unknown" for every other
    bit. *)
Theorem session_sys_var_warnings_per_bit (TIME_ZONE DIV_PRECISION_INCREMENT : Z)
    (d : Sql_mode_dependency) (thd : list Sql_condition) :
  0 <= m_hard d < ULONGLONG_MODULUS ->
  0 <= m_soft d < ULONGLONG_MODULUS ->
  push_dependency_warnings_session_sys_var TIME_ZONE DIV_PRECISION_INCREMENT d thd =
    Some (thd ++ map (fun i =>
                        mk_condition WARN_LEVEL_WARN ER_UNKNOWN_ERROR
                          "Expression depends on the session system variable @@%s"
                          [if 2 ^ Z.of_nat i =? TIME_ZONE then "time_zone"%string
                           else if 2 ^ Z.of_nat i =? DIV_PRECISION_INCREMENT
                                then "div_precision_increment"%string
                                else "Unknown"%string])
                     (set_bits (Z.lor (m_hard d) (m_soft d)))).
Proof.
  intros Hh Hs. unfold push_dependency_warnings_session_sys_var.
  rewrite dependency_loop_spec by (apply lor_range; assumption).
  rewrite (fold_push _ (fun i => mk_condition WARN_LEVEL_WARN ER_UNKNOWN_ERROR
                                   "Expression depends on the session system variable @@%s"
                                   [session_sys_var_name TIME_ZONE
                                      DIV_PRECISION_INCREMENT i]))
    by reflexivity.
  unfold set_bits. apply (f_equal Some), (f_equal (app thd)), map_ext_in.
  intros j Hj.
  apply List.filter_In in Hj as [Hj _]. apply List.in_seq in Hj.
  unfold session_sys_var_name. rewrite shiftl_1_small by lia. reflexivity.
Qed.

Lemma session_sys_var_warnings_per_bit_witness :
  push_dependency_warnings_session_sys_var 1 2 (mk_dependency 1 6) []
  = Some [mk_condition WARN_LEVEL_WARN ER_UNKNOWN_ERROR
            "Expression depends on the session system variable @@%s"
            ["time_zone"%string];
          mk_condition WARN_LEVEL_WARN ER_UNKNOWN_ERROR
            "Expression depends on the session system variable @@%s"
            ["div_precision_increment"%string];
          mk_condition WARN_LEVEL_WARN ER_UNKNOWN_ERROR
            "Expression depends on the session system variable @@%s"
            ["Unknown"%string]].
Proof.
  rewrite (session_sys_var_warnings_per_bit 1 2 (mk_dependency 1 6) []).
  - reflexivity.
  - unfold ULONGLONG_MODULUS; cbn; lia.
  - unfold ULONGLONG_MODULUS; cbn; lia.
Defined.

(** * Properties of the performance schema handler *)

(** ** The path buffer of delete_table *)

Lemma c_string_app_nul l r : nul_free l -> c_string (l ++ NUL :: r) = l.
Proof.
  induction 1 as [|c l Hc _ IH]; [reflexivity|]. cbn.
  destruct (Ascii.eqb_spec c NUL); [contradiction|]. now rewrite IH.
Qed.

Lemma c_string_nul_free l : nul_free l -> c_string l = l.
Proof.
  induction 1 as [|c l Hc _ IH]; [reflexivity|]. cbn.
  destruct (Ascii.eqb_spec c NUL); [contradiction|]. now rewrite IH.
Qed.

Lemma c_string_padded l m : nul_free l -> c_string (l ++ replicate (S m) NUL) = l.
Proof. intros H. cbn [replicate]. now apply c_string_app_nul. Qed.

(** After [strncpy] and the store of the terminator at [FN_REFLEN], the
    buffer holds the first [FN_REFLEN] chars of the name and NUL from there
    to its end. *)
Lemma table_path_shape (n : nat) (name : list ascii) :
  <[n := NUL]> (strncpy name (n + 1))
  = take n name ++ replicate (S (n - length (take n name))) NUL.
Proof.
  unfold strncpy. destruct (le_lt_dec (length name) n) as [Hle|Hgt].
  - rewrite !take_ge by lia.
    replace (n + 1 - length name)%nat with (S (n - length name)) by lia.
    rewrite insert_app_r_alt by lia.
    f_equal. apply list_eq. intros i.
    destruct (decide (i = n - length name)%nat) as [->|Hne].
    + rewrite list_lookup_insert_eq by (rewrite length_replicate; lia).
      symmetry. apply lookup_replicate_2. lia.
    + now rewrite list_lookup_insert_ne by congruence.
  - replace (n + 1 - length name)%nat with 0%nat by lia.
    rewrite length_take, Nat.min_l by lia.
    replace (n - n)%nat with 0%nat by lia. cbn [replicate]. rewrite app_nil_r.
    destruct (lookup_lt_is_Some_2 name n Hgt) as [c Hc].
    replace (n + 1)%nat with (S n) by lia. rewrite (take_S_r name n c Hc).
    rewrite insert_app_r_alt by (rewrite length_take; lia).
    rewrite length_take, Nat.min_l by lia.
    replace (n - n)%nat with 0%nat by lia. reflexivity.
Qed.

(** ** The backward scan *)

Lemma scan_back_skip buf m : forall k,
  (forall i, (k <= i < k + m)%nat -> is_path_separator (nth i buf NUL) = false) ->
  scan_back buf (k + m) = scan_back buf k.
Proof.
  induction m as [|m IH]; intros k H; [now rewrite Nat.add_0_r|].
  replace (k + S m)%nat with (S (k + m)) by lia. cbn [scan_back].
  rewrite H by lia. apply IH. intros i Hi. apply H. lia.
Qed.

Lemma scan_back_stop buf k :
  is_path_separator (nth k buf NUL) = true -> scan_back buf (S k) = S k.
Proof. intros H. cbn [scan_back]. now rewrite H. Qed.

Lemma scan_back_none buf k :
  (forall i, (i < k)%nat -> is_path_separator (nth i buf NUL) = false) ->
  scan_back buf k = 0%nat.
Proof. intros H. apply (scan_back_skip buf k 0%nat). intros i Hi. apply H. lia. Qed.

Lemma scan_back_zero_inv buf : forall k,
  scan_back buf k = 0%nat ->
  forall i, (i < k)%nat -> is_path_separator (nth i buf NUL) = false.
Proof.
  induction k as [|k IH]; intros H i Hi; [lia|]. cbn [scan_back] in H.
  destruct (is_path_separator (nth k buf NUL)) eqn:Hk; [discriminate|].
  destruct (decide (i = k)) as [->|Hne]; [exact Hk | apply IH; [exact H | lia]].
Qed.

Lemma nth_separator_free (l r : list ascii) (i : nat) :
  separator_free l -> (i < length l)%nat ->
  is_path_separator (nth i (l ++ r) NUL) = false.
Proof.
  intros Hl Hi. rewrite List.app_nth1 by exact Hi.
  unfold separator_free in Hl. rewrite Forall_forall in Hl. apply Hl.
  apply list_elem_of_In, List.nth_In, Hi.
Qed.

(** ** db_name and table_name *)

Lemma names_split (n : nat) (pre db tbl : list ascii) (sep : ascii) :
  is_path_separator sep = true ->
  separator_free db -> separator_free tbl ->
  nul_free (pre ++ db ++ sep :: tbl) ->
  (pre = [] \/ exists pre' s, pre = pre' ++ [s] /\ is_path_separator s = true) ->
  (length (pre ++ db ++ sep :: tbl) <= n)%nat ->
  delete_table_names n (pre ++ db ++ sep :: tbl) = Some (db, tbl).
Proof.
  intros Hsep Hdb Htbl Hnul Hpre Hlen.
  unfold delete_table_names. cbv zeta. rewrite table_path_shape.
  rewrite take_ge by exact Hlen.
  rewrite (c_string_padded _ _ Hnul).
  set (pad := replicate (S (n - length (pre ++ db ++ sep :: tbl))) NUL).
  assert (Hbuf : (pre ++ db ++ sep :: tbl) ++ pad = (pre ++ db) ++ sep :: (tbl ++ pad))
    by (now rewrite <- !app_assoc).
  rewrite Hbuf.
  assert (Hk1 : scan_back ((pre ++ db) ++ sep :: tbl ++ pad)
                  (length (pre ++ db ++ sep :: tbl)) = S (length (pre ++ db))).
  { replace (length (pre ++ db ++ sep :: tbl))
      with (S (length (pre ++ db)) + length tbl)%nat
      by (rewrite !length_app; cbn; lia).
    rewrite scan_back_skip.
    - apply scan_back_stop. now rewrite List.nth_middle.
    - intros i Hi.
      replace i with (length (pre ++ db) + S (i - S (length (pre ++ db))))%nat by lia.
      rewrite List.app_nth2_plus. cbn [nth].
      apply nth_separator_free; [exact Htbl | lia]. }
  rewrite Hk1.
  assert (Hstore : <[length (pre ++ db) := NUL]> ((pre ++ db) ++ sep :: tbl ++ pad)
                   = (pre ++ db) ++ NUL :: tbl ++ pad).
  { rewrite insert_app_r_alt by lia. now rewrite Nat.sub_diag. }
  rewrite Hstore.
  assert (Hk2 : scan_back ((pre ++ db) ++ NUL :: tbl ++ pad) (S (length (pre ++ db)))
                = length pre).
  { cbn [scan_back]. rewrite List.nth_middle.
    change (is_path_separator NUL) with false. cbv iota.
    rewrite length_app, scan_back_skip.
    - destruct Hpre as [-> | (pre' & s & -> & Hs)]; [reflexivity|].
      rewrite length_app. cbn [length]. rewrite Nat.add_1_r.
      apply scan_back_stop.
      rewrite <- !app_assoc. cbn [app]. now rewrite List.nth_middle.
    - intros i Hi. rewrite <- app_assoc.
      replace i with (length pre + (i - length pre))%nat by lia.
      rewrite List.app_nth2_plus.
      apply nth_separator_free; [exact Hdb | lia]. }
  rewrite Hk2. f_equal. f_equal.
  - rewrite <- app_assoc, drop_app_length.
    apply c_string_app_nul.
    unfold nul_free in *. rewrite !Forall_app in Hnul. tauto.
  - replace (S (length (pre ++ db))) with (length ((pre ++ db) ++ [NUL]))
      by (rewrite (length_app _ [NUL]); cbn; lia).
    rewrite (app_assoc _ [NUL] (tbl ++ pad)) || rewrite cons_middle, app_assoc.
    rewrite drop_app_length. apply c_string_padded.
    unfold nul_free in *. rewrite !Forall_app, Forall_cons in Hnul. tauto.
Qed.

Lemma alter_present (f : PFS_engine_table_share -> PFS_engine_table_share)
    (i : nat) (sh : PFS_engine_table_share) (m : gmap nat PFS_engine_table_share) :
  m !! i = Some sh -> alter f i m = <[i := f sh]> m.
Proof.
  intros H. apply map_eq. intros j.
  rewrite lookup_alter, lookup_insert.
  destruct (decide (i = j)) as [->|]; [now rewrite H | reflexivity].
Qed.

Lemma alter_absent (f : PFS_engine_table_share -> PFS_engine_table_share)
    (i : nat) (m : gmap nat PFS_engine_table_share) :
  m !! i = None -> alter f i m = m.
Proof.
  intros H. apply map_eq. intros j. rewrite lookup_alter.
  destruct (decide (i = j)) as [->|]; [now rewrite H | reflexivity].
Qed.

(** X19. For a path that ends in a schema name, a separator and a table name
    (with nothing or a directory part ending in a separator before the
    schema name; no NUL, no separator inside the two names; at most
    FN_REFLEN chars), [ha_perfschema::delete_table] looks up exactly that
    schema name and that table name, returns 0, and leaves the registry of
    shares as it was except that the share found, when it is optional, has
    [m_checked] cleared. *)
Theorem delete_table_splits_path (n : nat) (lk : pfs_lookup)
    (pre db tbl : list ascii) (sep : ascii)
    (shares : gmap nat PFS_engine_table_share) :
  is_path_separator sep = true ->
  separator_free db -> separator_free tbl ->
  nul_free (pre ++ db ++ sep :: tbl) ->
  (pre = [] \/ exists pre' s, pre = pre' ++ [s] /\ is_path_separator s = true) ->
  (length (pre ++ db ++ sep :: tbl) <= n)%nat ->
  delete_table_names n (pre ++ db ++ sep :: tbl) = Some (db, tbl) /\
  delete_table n lk (pre ++ db ++ sep :: tbl) shares =
    Some (0, match find_table_share lk db tbl with
             | Some i => alter disarm_if_optional i shares
             | None => shares
             end).
Proof.
  intros Hsep Hdb Htbl Hnul Hpre Hlen.
  pose proof (names_split n pre db tbl sep Hsep Hdb Htbl Hnul Hpre Hlen) as Hnames.
  split; [exact Hnames|].
  unfold delete_table. rewrite Hnames. cbv zeta. f_equal. f_equal.
  destruct (find_table_share lk db tbl) as [i|]; [|reflexivity].
  destruct (shares !! i) as [sh|] eqn:Hsh.
  - rewrite (alter_present _ i sh shares Hsh). unfold disarm_if_optional.
    destruct (m_optional sh); [reflexivity|].
    symmetry. now apply insert_id.
  - symmetry. now apply alter_absent.
Qed.

Lemma delete_table_splits_path_witness :
  delete_table_names 512
    (String.list_ascii_of_string "./performance_schema/processlist")
  = Some (String.list_ascii_of_string "performance_schema",
          String.list_ascii_of_string "processlist").
Proof.
  apply (delete_table_splits_path 512
           (mk_lookup (fun _ => true) (fun _ => None))
           (String.list_ascii_of_string "./")
           (String.list_ascii_of_string "performance_schema")
           (String.list_ascii_of_string "processlist")
           "/"%char ∅).
  - reflexivity.
  - unfold separator_free. repeat constructor.
  - unfold separator_free. repeat constructor.
  - unfold nul_free. repeat (constructor; [discriminate|]). constructor.
  - right. exists (String.list_ascii_of_string "."), "/"%char. split; reflexivity.
  - cbn. lia.
Defined.

(** ** Paths without a separator, and long paths *)

Lemma nth_take_pad (l : list ascii) (m i : nat) :
  (i < length l)%nat -> nth i (l ++ replicate m NUL) NUL = nth i l NUL.
Proof. intros Hi. now rewrite List.app_nth1. Qed.

Lemma separator_free_nth (l : list ascii) :
  separator_free l <->
  forall i, (i < length l)%nat -> is_path_separator (nth i l NUL) = false.
Proof.
  unfold separator_free. rewrite Forall_forall. split.
  - intros H i Hi. apply H, list_elem_of_In, List.nth_In, Hi.
  - intros H c Hc. apply list_elem_of_In, (List.In_nth _ _ NUL) in Hc as (i & Hi & <-).
    now apply H.
Qed.

(** X20. For a name without NUL inside, the path handling of
    [ha_perfschema::delete_table] depends on the first FN_REFLEN chars of the
    name only, and it stays inside [table_path] exactly when these hold a
    path separator: without one, the first scan runs off the front of the
    buffer and the terminator would be stored below [table_path]. *)
Theorem delete_table_names_defined (n : nat) (name : list ascii) :
  nul_free name ->
  (delete_table_names n name = None <-> separator_free (take n name)) /\
  delete_table_names n name = delete_table_names n (take n name).
Proof.
  intros Hnul.
  assert (Hbody : nul_free (take n name)).
  { unfold nul_free in *. now apply Forall_take. }
  split.
  - unfold delete_table_names. cbv zeta. rewrite table_path_shape.
    rewrite (c_string_padded _ _ Hbody).
    set (pad := replicate _ NUL).
    destruct (scan_back (take n name ++ pad) (length (take n name))) as [|p] eqn:Hk.
    + split; [intros _|reflexivity].
      apply separator_free_nth. intros i Hi.
      rewrite <- (nth_take_pad _ (length pad) i Hi).
      replace (replicate (length pad) NUL) with pad
        by (subst pad; now rewrite length_replicate).
      eapply scan_back_zero_inv; [exact Hk | exact Hi].
    + split; [discriminate|]. intros Hfree. exfalso.
      rewrite scan_back_none in Hk; [discriminate|].
      intros i Hi. rewrite List.app_nth1 by exact Hi.
      now apply separator_free_nth.
  - unfold delete_table_names. cbv zeta. rewrite !table_path_shape.
    now rewrite take_take, Nat.min_id.
Qed.

Lemma delete_table_names_defined_witness :
  delete_table_names 512 (String.list_ascii_of_string "processlist") = None /\
  delete_table_names 4 (String.list_ascii_of_string "ab/cdef")
    = delete_table_names 4 (String.list_ascii_of_string "ab/c").
Proof.
  destruct (delete_table_names_defined 512 (String.list_ascii_of_string "processlist"))
    as [[_ Hnone] _].
  { unfold nul_free. repeat (constructor; [discriminate|]). constructor. }
  destruct (delete_table_names_defined 4 (String.list_ascii_of_string "ab/cdef"))
    as [_ Htrunc].
  { unfold nul_free. repeat (constructor; [discriminate|]). constructor. }
  split; [apply Hnone; unfold separator_free; repeat constructor | exact Htrunc].
Defined.

(** ** The handler when the performance schema is off *)

Lemma PFS_ENABLED_off env h :
  (pfs_initialized env = false \/
   (pfs_enabled env = false /\
    exists i sh, m_table_share h = Some i /\ pfs_shares env !! i = Some sh /\
                 m_perpetual sh = false)) ->
  PFS_ENABLED env h = Some false.
Proof.
  unfold PFS_ENABLED, the_share.
  intros [-> | (-> & i & sh & -> & -> & ->)]; [reflexivity|].
  now destruct (pfs_initialized env).
Qed.

(** X21. When the performance schema is not initialised, or is disabled and
    the handler's table is not a perpetual one, the seven methods that test
    PFS_ENABLED() do not reach the table implementation: [write_row],
    [update_row] and [delete_row] fail with HA_ERR_WRONG_COMMAND and leave
    the handler as it is, [rnd_next] and [rnd_pos] report HA_ERR_END_OF_FILE
    and set the status to STATUS_NOT_FOUND, and [delete_all_rows] and
    [truncate] return 0 as if they had succeeded. The switch does not cover
    [rnd_init], [info] and [position], which make no such test: on a handler
    with a share, [rnd_init] still opens a cursor or resets the one it has,
    [info] with HA_STATUS_VARIABLE still asks the share for its row count,
    and [position] still asks the cursor for its position. *)
Theorem handler_when_pfs_is_off (k : handler_constants) (env : pfs_env)
    (h : ha_perfschema) :
  (pfs_initialized env = false \/
   (pfs_enabled env = false /\
    exists i sh, m_table_share h = Some i /\ pfs_shares env !! i = Some sh /\
                 m_perpetual sh = false)) ->
  write_row k env h = Some (HA_ERR_WRONG_COMMAND k, h) /\
  update_row k env h = Some (HA_ERR_WRONG_COMMAND k, h) /\
  delete_row k env h = Some (HA_ERR_WRONG_COMMAND k, h) /\
  rnd_next k env h = Some (HA_ERR_END_OF_FILE k, set_table_status h (STATUS_NOT_FOUND k)) /\
  rnd_pos k env h = Some (HA_ERR_END_OF_FILE k, set_table_status h (STATUS_NOT_FOUND k)) /\
  delete_all_rows k env h = Some (0, h) /\
  truncate k env h = Some (0, h) /\
  (forall scan i sh,
     the_share env h = Some (i, sh) -> m_has_open_table sh = true ->
     exists r h' d,
       rnd_init k env scan h = Some (r, h') /\
       pfs_log h' = pfs_log h
                      ++ match m_table h with
                         | None => CallOpenTable i (made_cursor env (pfs_log h))
                         | Some c => CallResetPosition c
                         end :: d) /\
  (forall flag i sh,
     the_share env h = Some (i, sh) ->
     Z.land flag (HA_STATUS_VARIABLE k) <> 0 ->
     exists h',
       info k env flag h = Some (0, h') /\
       pfs_log h' = pfs_log h ++ [CallGetRowCount i]) /\
  (forall c,
     m_table h = Some c ->
     position h = Some (set_pfs_log h (pfs_log h ++ [CallGetPosition c]))).
Proof.
  intros Hoff. apply PFS_ENABLED_off in Hoff.
  unfold write_row, update_row, delete_row, rnd_next, rnd_pos, truncate, delete_all_rows.
  rewrite Hoff. do 7 (split; [reflexivity|]).
  split; [|split].
  - intros scan i sh Hsh Hopen. unfold rnd_init. rewrite Hsh, Hopen. cbn [negb].
    destruct (m_table h) as [c|] eqn:Hc.
    + do 3 eexists. split; [reflexivity|].
      cbn. rewrite Hc. cbn. rewrite Hc. cbn. rewrite <- app_assoc. reflexivity.
    + destruct (made_cursor env (pfs_log h)) as [c|] eqn:Hm.
      * do 3 eexists. split; [reflexivity|].
        cbn. rewrite Hc. cbn. rewrite Hm. cbn. rewrite <- app_assoc. reflexivity.
      * do 3 eexists. split; [reflexivity|].
        cbn. rewrite Hc. cbn. rewrite Hm. cbn. reflexivity.
  - intros flag i sh Hsh Hflag. unfold info. rewrite Hsh.
    apply Z.eqb_neq in Hflag. rewrite Hflag. cbn [negb].
    eexists. split; [reflexivity|].
    destruct (negb (Z.land flag (HA_STATUS_CONST k) =? 0)); reflexivity.
  - intros c Hc. unfold position. now rewrite Hc.
Qed.

Lemma handler_when_pfs_is_off_witness :
  write_row HandlerSample.k0 HandlerSample.env_off HandlerSample.opened_handler
    = Some (131, HandlerSample.opened_handler) /\
  truncate HandlerSample.k0 HandlerSample.env_off HandlerSample.opened_handler
    = Some (0, HandlerSample.opened_handler) /\
  exists r h' d,
    rnd_init HandlerSample.k0 HandlerSample.env_off true HandlerSample.opened_handler
      = Some (r, h') /\
    pfs_log h' = CallOpenTable 1 (Some 7%nat) :: d.
Proof.
  destruct (handler_when_pfs_is_off HandlerSample.k0 HandlerSample.env_off
              HandlerSample.opened_handler)
    as (Hw & _ & _ & _ & _ & _ & Ht & Hinit & _).
  - right. split; [reflexivity|].
    exists 1%nat, HandlerSample.setup_actors. repeat split; reflexivity.
  - split; [exact Hw|]. split; [exact Ht|].
    exact (Hinit true 1%nat HandlerSample.setup_actors eq_refl eq_refl).
Defined.

(** ** The handler on a replication slave *)

(** X22. With the performance schema on, a handler that runs for a
    replication slave thread accepts [update_row], [delete_all_rows] and
    [truncate] with result 0 without calling the table implementation and
    without changing anything, while [delete_row] on its cursor still goes
    to the table implementation and returns what that answers. *)
Theorem handler_on_slave (k : handler_constants) (env : pfs_env)
    (h : ha_perfschema) (c : nat) :
  PFS_ENABLED env h = Some true ->
  executed_by_slave h = true ->
  m_table h = Some c ->
  update_row k env h = Some (0, h) /\
  delete_all_rows k env h = Some (0, h) /\
  truncate k env h = Some (0, h) /\
  delete_row k env h =
    Some (reply env (pfs_log h ++ [CallDeleteRow c]),
          set_pfs_log h (pfs_log h ++ [CallDeleteRow c])).
Proof.
  intros Hon Hslave Hc.
  unfold update_row, delete_all_rows, truncate, delete_all_rows, delete_row.
  rewrite Hon, Hslave, Hc. auto.
Qed.

Lemma handler_on_slave_witness :
  update_row HandlerSample.k0 HandlerSample.env_on
    (mk_handler [] ["a"%char] (Some 1%nat) (Some 7%nat) 0 0 4 0 0 0 true [])
  = Some (0, mk_handler [] ["a"%char] (Some 1%nat) (Some 7%nat) 0 0 4 0 0 0 true []).
Proof.
  apply (handler_on_slave HandlerSample.k0 HandlerSample.env_on
           (mk_handler [] ["a"%char] (Some 1%nat) (Some 7%nat) 0 0 4 0 0 0 true [])
           7%nat); reflexivity.
Defined.

(** ** The lock type a handler keeps *)

(** X23. Over any run of [store_lock] calls the handler keeps the first lock
    type that counts: a handler whose lock type is not TL_UNLOCK keeps it,
    and one whose lock type is TL_UNLOCK ends with the first requested type
    that is neither TL_IGNORE nor TL_UNLOCK, or with TL_UNLOCK when there is
    none. *)
Theorem store_lock_first_type_sticks (k : handler_constants) (requests : list Z)
    (h : ha_perfschema) :
  m_thr_lock_type (fold_left (fun h a => store_lock k a h) requests h) =
    if m_thr_lock_type h =? TL_UNLOCK k
    then default (TL_UNLOCK k)
           (List.find (fun a => negb (a =? TL_IGNORE k) && negb (a =? TL_UNLOCK k))
              requests)
    else m_thr_lock_type h.
Proof.
  revert h. induction requests as [|a requests IH]; intros h; cbn [fold_left List.find].
  - cbn. destruct (Z.eqb_spec (m_thr_lock_type h) (TL_UNLOCK k)); congruence.
  - rewrite IH. unfold store_lock. cbn.
    destruct (Z.eqb_spec a (TL_IGNORE k)) as [Hi|Hi]; cbn.
    + reflexivity.
    + destruct (Z.eqb_spec (m_thr_lock_type h) (TL_UNLOCK k)) as [Hu|Hu]; cbn.
      * destruct (Z.eqb_spec a (TL_UNLOCK k)) as [Ha|Ha]; cbn; [reflexivity|].
        reflexivity.
      * destruct (Z.eqb_spec (m_thr_lock_type h) (TL_UNLOCK k)); congruence.
Qed.

(** ** A scan counts the rows it returns *)

Lemma PFS_ENABLED_share env h h' :
  m_table_share h' = m_table_share h -> PFS_ENABLED env h' = PFS_ENABLED env h.
Proof. intros H. unfold PFS_ENABLED, the_share. now rewrite H. Qed.

Lemma rnd_next_on k env h :
  PFS_ENABLED env h = Some true ->
  forall r h', rnd_next k env h = Some (r, h') ->
  m_table h' = m_table h /\
  m_table_share h' = m_table_share h /\
  stats_records h' = (if r =? 0 then (stats_records h + 1) mod ULONGLONG_MODULUS
                      else stats_records h) /\
  table_status h' = (if r =? 0 then 0 else STATUS_NOT_FOUND k).
Proof.
  intros Hon r h' H. unfold rnd_next in H. rewrite Hon in H.
  destruct (m_table h) as [c|] eqn:Hc; [|discriminate].
  unfold call_int in H. cbn in H.
  destruct (Z.eqb_spec (reply env (pfs_log h ++ [CallRndNext c])) 0) as [H1|H1].
  - destruct (Z.eqb_spec (reply env ((pfs_log h ++ [CallRndNext c]) ++ [CallReadRow c])) 0)
      as [H2|H2]; cbn in H.
    + rewrite H2 in H. cbn in H. inversion H; subst. cbn. auto.
    + apply Z.eqb_neq in H2. rewrite H2 in H. cbn in H. inversion H; subst.
      rewrite H2. cbn. auto.
  - cbn in H. apply Z.eqb_neq in H1. rewrite H1 in H. cbn in H.
    inversion H; subst. rewrite H1. cbn. auto.
Qed.

Lemma rnd_next_run k env n : forall h rs h',
  PFS_ENABLED env h = Some true ->
  0 <= stats_records h < ULONGLONG_MODULUS ->
  run_ops k env (repeat OpRndNext n) h = Some (rs, h') ->
  length rs = n /\
  stats_records h' = (stats_records h + Z.of_nat (count_zero rs)) mod ULONGLONG_MODULUS /\
  (forall r, last rs = Some r ->
             table_status h' = if r =? 0 then 0 else STATUS_NOT_FOUND k).
Proof.
  induction n as [|n IH]; intros h rs h' Hon Hrange H.
  - cbn in H. inversion H; subst. cbn. rewrite Z.add_0_r, Z.mod_small by exact Hrange.
    split; [reflexivity|]. split; [reflexivity | discriminate].
  - cbn [repeat run_ops run_op] in H.
    destruct (rnd_next k env h) as [[r h1]|] eqn:Hstep; [|discriminate].
    destruct (run_ops k env (repeat OpRndNext n) h1) as [[rs' h2]|] eqn:Hrest;
      [|discriminate].
    inversion H; subst. clear H.
    destruct (rnd_next_on k env h Hon r h1 Hstep) as (_ & Hsh & Hrec & Hst).
    assert (Hrange1 : 0 <= stats_records h1 < ULONGLONG_MODULUS).
    { rewrite Hrec. destruct (r =? 0); [|exact Hrange].
      apply Z.mod_pos_bound. reflexivity. }
    destruct (IH h1 rs' h' (eq_trans (PFS_ENABLED_share env h h1 Hsh) Hon) Hrange1 Hrest)
      as (Hlen & Hcount & Hlast).
    split; [cbn; now rewrite Hlen|]. split.
    + rewrite Hcount, Hrec. unfold count_zero. cbn [List.filter].
      destruct (r =? 0); cbn [length].
      * rewrite Zplus_mod_idemp_l. f_equal. lia.
      * reflexivity.
    + intros r' Hr'. destruct rs' as [|r1 rs'].
      * cbn in Hr'. inversion Hr'; subst.
        cbn in Hrest. inversion Hrest; subst. exact Hst.
      * apply Hlast. now rewrite last_cons_cons in Hr'.
Qed.

(** X24. A scan counts the rows it returns. With the performance schema on,
    after [rnd_init] and [n] calls of [rnd_next], [stats.records] is the
    number of those calls that returned 0 (modulo 2^64), whatever it was
    before, and the table status is 0 when the last result is 0 and
    STATUS_NOT_FOUND otherwise. *)
Theorem scan_counts_rows (k : handler_constants) (env : pfs_env) (scan : bool)
    (n : nat) (h h' : ha_perfschema) (r0 : Z) (rs : list Z) :
  PFS_ENABLED env h = Some true ->
  run_ops k env (OpRndInit scan :: repeat OpRndNext n) h = Some (r0 :: rs, h') ->
  length rs = n /\
  stats_records h' = Z.of_nat (count_zero rs) mod ULONGLONG_MODULUS /\
  (forall r, last rs = Some r ->
             table_status h' = if r =? 0 then 0 else STATUS_NOT_FOUND k).
Proof.
  intros Hon H. cbn [run_ops run_op] in H.
  destruct (rnd_init k env scan h) as [[r h1]|] eqn:Hinit; [|discriminate].
  destruct (run_ops k env (repeat OpRndNext n) h1) as [[rs' h2]|] eqn:Hrest;
    [|discriminate].
  inversion H; subst. clear H.
  assert (Hh1 : stats_records h1 = 0 /\ m_table_share h1 = m_table_share h).
  { unfold rnd_init in Hinit.
    destruct (the_share env h) as [[i sh]|]; [|discriminate].
    destruct (m_has_open_table sh); [|discriminate]. cbn in Hinit.
    destruct (m_table h) as [c|] eqn:Hc; cbn in Hinit; rewrite ?Hc in Hinit;
      cbn in Hinit.
    - inversion Hinit; subst. cbn. auto.
    - destruct (made_cursor env (pfs_log h)); inversion Hinit; subst; cbn; auto. }
  destruct Hh1 as [Hrec Hsh].
  destruct (rnd_next_run k env n h1 rs h'
              (eq_trans (PFS_ENABLED_share env h h1 Hsh) Hon)) as (Hlen & Hcount & Hlast);
    [rewrite Hrec; unfold ULONGLONG_MODULUS; lia | exact Hrest |].
  rewrite Hrec in Hcount. auto.
Qed.

Lemma scan_counts_rows_witness :
  exists h',
    run_ops HandlerSample.k0 HandlerSample.env_on
      [OpRndInit true; OpRndNext; OpRndNext; OpRndNext] HandlerSample.opened_handler
      = Some ([0; 0; 137; 137], h') /\
    stats_records h' = 1 /\
    table_status h' = 2.
Proof.
  assert (Hrun : exists h',
            run_ops HandlerSample.k0 HandlerSample.env_on
              [OpRndInit true; OpRndNext; OpRndNext; OpRndNext]
              HandlerSample.opened_handler = Some ([0; 0; 137; 137], h')).
  { eexists. vm_compute. reflexivity. }
  destruct Hrun as [h' Hrun]. exists h'. split; [exact Hrun|].
  destruct (scan_counts_rows HandlerSample.k0 HandlerSample.env_on true 3
              HandlerSample.opened_handler h' 0 [0; 137; 137] eq_refl Hrun)
    as (_ & Hrec & Hst).
  split; [exact Hrec | exact (Hst 137 eq_refl)].
Defined.

(** ** One cursor at a time *)

Lemma cursor_run_app a : forall live b live',
  cursor_run live a = Some live' -> cursor_run live (a ++ b) = cursor_run live' b.
Proof.
  induction a as [|ev a IH]; intros live b live' H; cbn in *.
  - now inversion H.
  - destruct ev; cbn in *;
      repeat match goal with
             | H : context [decide ?P] |- _ => destruct (decide P)
             | H : match ?x with Some _ => _ | None => _ end = Some _ |- _ => destruct x
             end;
      try discriminate; eauto.
Qed.

Lemma op_keeps_cursor_discipline k env op h r h' :
  cursor_run None (pfs_log h) = Some (m_table h) ->
  run_op k env op h = Some (r, h') ->
  cursor_run None (pfs_log h') = Some (m_table h').
Proof.
  intros Hinv Hop.
  destruct (m_table h) as [c|] eqn:Hc;
    (destruct op; cbn [run_op] in Hop;
     unfold ha_open, ha_close, write_row, update_row, delete_row, rnd_init, rnd_end,
       rnd_next, position, rnd_pos, info, truncate, delete_all_rows, store_lock,
       delete_m_table, call_int, call_void, option_map in Hop;
     repeat (cbn in Hop; rewrite ?Hc in Hop;
             match type of Hop with
             | context [PFS_ENABLED env h] => destruct (PFS_ENABLED env h) as [[|]|]
             | context [the_share env h] => destruct (the_share env h) as [[? ?]|]
             | context [made_cursor env ?l] => destruct (made_cursor env l)
             | context [find_table_share ?a ?b ?c] => destruct (find_table_share a b c)
             | context [pfs_shares env !! ?i] => destruct (pfs_shares env !! i)
             | context [if ?b then _ else _] => destruct b eqn:?
             end);
     cbn in Hop; rewrite ?Hc in Hop; cbn in Hop; try discriminate;
     inversion Hop; subst; clear Hop; cbn; rewrite ?Hc;
     rewrite <- ?app_assoc;
     try exact Hinv;
     rewrite (cursor_run_app _ _ _ _ Hinv); cbn;
     repeat match goal with
            | |- context [decide (Some ?x = Some ?x)] =>
                destruct (decide (Some x = Some x)); [cbn | congruence]
            end;
     reflexivity).
Qed.

(** X25. The handler keeps to one cursor. Over any defined sequence of calls
    on a fresh handler, the calls into the table implementation never make a
    cursor while another is alive, never use or delete a cursor other than
    the live one (so none after its deletion, and none twice), and the
    cursor alive at the end is the one [m_table] points to. *)
Theorem handler_keeps_one_cursor (k : handler_constants) (env : pfs_env)
    (ops : list handler_op) (db table_name : list ascii) (slave : bool)
    (rs : list Z) (h' : ha_perfschema) :
  run_ops k env ops (new_ha_perfschema db table_name slave) = Some (rs, h') ->
  cursor_run None (pfs_log h') = Some (m_table h').
Proof.
  assert (Hgen : forall ops h rs h',
            cursor_run None (pfs_log h) = Some (m_table h) ->
            run_ops k env ops h = Some (rs, h') ->
            cursor_run None (pfs_log h') = Some (m_table h')).
  { clear. induction ops as [|op ops IH]; intros h rs h' Hinv H; cbn in H.
    - now inversion H; subst.
    - destruct (run_op k env op h) as [[r h1]|] eqn:Hop; [|discriminate].
      destruct (run_ops k env ops h1) as [[rs' h2]|] eqn:Hrest; [|discriminate].
      inversion H; subst.
      eapply IH; [|exact Hrest]. eapply op_keeps_cursor_discipline; eassumption. }
  intros H. eapply Hgen; [|exact H]. reflexivity.
Qed.

Lemma handler_keeps_one_cursor_witness :
  exists rs h',
    run_ops HandlerSample.k0 HandlerSample.env_on
      [OpOpen; OpRndInit true; OpRndNext; OpRndInit false; OpRndEnd; OpRndInit true; OpClose]
      (new_ha_perfschema [] ["a"%char] false) = Some (rs, h') /\
    pfs_log h' = [CallThrLockDataInit 1; CallOpenTable 1 (Some 7%nat);
                  CallRndInit 7 true; CallRndNext 7; CallReadRow 7;
                  CallResetPosition 7; CallRndInit 7 false; CallDeleteCursor 7;
                  CallOpenTable 1 (Some 7%nat); CallRndInit 7 true;
                  CallDeleteCursor 7] /\
    cursor_run None (pfs_log h') = Some (m_table h').
Proof.
  assert (Hrun : exists rs h',
            run_ops HandlerSample.k0 HandlerSample.env_on
              [OpOpen; OpRndInit true; OpRndNext; OpRndInit false; OpRndEnd;
               OpRndInit true; OpClose]
              (new_ha_perfschema [] ["a"%char] false) = Some (rs, h') /\
            pfs_log h' = [CallThrLockDataInit 1; CallOpenTable 1 (Some 7%nat);
                          CallRndInit 7 true; CallRndNext 7; CallReadRow 7;
                          CallResetPosition 7; CallRndInit 7 false; CallDeleteCursor 7;
                          CallOpenTable 1 (Some 7%nat); CallRndInit 7 true;
                          CallDeleteCursor 7]).
  { eexists _, _. split; vm_compute; reflexivity. }
  destruct Hrun as (rs & h' & Hrun & Hlog). exists rs, h'.
  split; [exact Hrun|]. split; [exact Hlog|].
  exact (handler_keeps_one_cursor _ _ _ _ _ _ _ _ Hrun).
Defined.

(** ** Discovery and open agree *)

(** X26. [pfs_discover_table_existence] and [ha_perfschema::open] decide the
    same way, through [find_table_share]: the existence test gives 0 or 1,
    and 0 for every table of a schema that is not the performance schema;
    when it gives 0, [open] fails with HA_ERR_NO_SUCH_TABLE, leaves
    [m_table_share] null and calls nothing; when it gives 1, [open] finds
    the share that carries the table name and, that share being in the
    registry, returns 0 with [m_table_share] set, the lock data initialised
    and [ref_length] taken from the share. *)
Theorem open_agrees_with_discovery (k : handler_constants) (env : pfs_env)
    (h : ha_perfschema) :
  let db := table_share_db h in
  let name := table_share_table_name h in
  let found := pfs_discover_table_existence (pfs_lookups env) db name in
  (found = 0 \/ found = 1) /\
  (db_is_performance_schema (pfs_lookups env) db = false -> found = 0) /\
  (found = 0 ->
     ha_open k env h = Some (HA_ERR_NO_SUCH_TABLE k, set_m_table_share h None)) /\
  (found = 1 ->
     exists i,
       find_engine_table_share (pfs_lookups env) name = Some i /\
       forall sh, pfs_shares env !! i = Some sh ->
         ha_open k env h =
           Some (0, set_ref_length
                      (call_void (CallThrLockDataInit i) (set_m_table_share h (Some i)))
                      (m_ref_length sh))).
Proof.
  cbv zeta. unfold pfs_discover_table_existence, ha_open, find_table_share.
  destruct (db_is_performance_schema (pfs_lookups env) (table_share_db h)); cbn.
  - destruct (find_engine_table_share (pfs_lookups env) (table_share_table_name h))
      as [i|]; cbn.
    + split; [auto|]. split; [discriminate|]. split; [discriminate|].
      intros _. exists i. split; [reflexivity|]. intros sh Hsh. now rewrite Hsh.
    + split; [auto|]. split; [discriminate|]. split; [reflexivity | discriminate].
  - split; [auto|]. split; [reflexivity|]. split; [reflexivity | discriminate].
Qed.
